(** * An entity-component-system runtime: shallow embedding and properties

    The development follows the headers under [src/ecs]:
    [type_def.h], [component_list.h], [entity_manager.h],
    [component_manager.h], [system.h], [system_manager.h] and [engine.h].

    Every C++ member function becomes a computation in a state-and-exception
    monad over the object it belongs to.  An exception leaves behind the
    state that the function had built up when it threw, exactly as a C++
    [throw] does; an access past the end of a [std::array] has no defined
    result and is kept apart from exceptions. *)

From stdpp Require Import gmap list fin_maps fin_sets.
From Stdlib Require Import ZArith Lia.

Local Open Scope Z_scope.

(** ** [type_def.h] *)

(** [constexpr uint8_t kMaxComponents = 64]. *)
Definition kMaxComponents : Z := 64.

(** [constexpr uint16_t kMaxEntities = 65535]. *)
Definition kMaxEntities : Z := 65535.

(** [using Entity = uint32_t]; [using ComponentType = uint16_t];
    [using Signature = std::bitset<kMaxComponents>], a 64-bit mask held as
    the integer whose binary digits are the bits. *)
Abbreviation Entity := Z (only parsing).
Abbreviation ComponentType := Z (only parsing).
Abbreviation Signature := Z (only parsing).

(** [typeid(T).name()]: the maps of the managers are keyed by this pointer
    and compare it by address, so a type is identified by one number. *)
Abbreviation TypeName := positive (only parsing).

(** Unsigned wrap-around of [size_t] and of [uint16_t]. *)
Definition wrap_size_t (z : Z) : Z := z mod 2 ^ 64.
Definition wrap_uint16 (z : Z) : Z := z mod 2 ^ 16.

(** ** Exceptions and outcomes *)

(** The source throws [std::runtime_error] everywhere and tells the cases
    apart by message only; [std::bitset::set] throws [std::out_of_range].
    One constructor per throw site family. *)
Inductive error : Type :=
| CapacityExceeded      (* "Maximum number of living entities ... exceeded" *)
| OutOfRange            (* "The entity ... exceeds the maximum number of entities" *)
| DuplicateEntity       (* "Tried to insert duplicate entity" *)
| NotFound              (* "Tried to remove/get entity ... which is not in ... list" *)
| UnregisteredType      (* component type or system type not registered *)
| MissingComponentList  (* GetComponentList: "... component list which does not exist yet" *)
| AlreadyRegistered     (* "Tried to register a system ... which is already registered" *)
| BitsetPosition.       (* std::out_of_range from std::bitset::set *)

Global Instance error_eq_dec : EqDecision error.
Proof. solve_decision. Defined.

(** Result of running a member function on an object of type [St]. *)
Inductive outcome (St A : Type) : Type :=
| Ok (a : A) (s : St)         (* returned [a], object now [s] *)
| Throw (e : error) (s : St)  (* threw [e], object left as [s] *)
| Undefined.                  (* out-of-bounds [std::array] access *)
Arguments Ok {St A} a s.
Arguments Throw {St A} e s.
Arguments Undefined {St A}.

Definition M (St A : Type) : Type := St → outcome St A.

Definition ret {St A} (a : A) : M St A := λ s, Ok a s.
Definition throw {St A} (e : error) : M St A := λ s, Throw e s.
Definition undefined {St A} : M St A := λ _, Undefined.
Definition bind {St A B} (m : M St A) (k : A → M St B) : M St B :=
  λ s, match m s with
       | Ok a s' => k a s'
       | Throw e s' => Throw e s'
       | Undefined => Undefined
       end.
Definition get {St} : M St St := λ s, Ok s s.
Definition put {St} (s : St) : M St unit := λ _, Ok tt s.

(** Run a member function of a sub-object (reached through [proj], written
    back with [upd]) inside the object that owns it. *)
Definition within {St Sub A} (proj : St → Sub) (upd : Sub → St → St)
    (m : M Sub A) : M St A :=
  λ s, match m (proj s) with
       | Ok a sub => Ok a (upd sub s)
       | Throw e sub => Throw e (upd sub s)
       | Undefined => Undefined
       end.

Declare Scope ecs_scope.
Delimit Scope ecs_scope with ecs.
Notation "x <- m ;; k" := (bind m (λ x, k))
  (at level 100, m at next level, right associativity) : ecs_scope.
Notation "m ;; k" := (bind m (λ _, k))
  (at level 100, right associativity) : ecs_scope.
Local Open Scope ecs_scope.

(** ** Library containers used by the source *)

(** [m[k]] on a [std::map]: an absent key is first inserted with the
    value-initialised mapped value, here [dflt]. *)
Definition map_subscript `{Countable K} {A} (dflt : A) (m : gmap K A) (k : K)
    : A * gmap K A :=
  match m !! k with
  | Some a => (a, m)
  | None => (dflt, <[k := dflt]> m)
  end.

(** A [std::array<A, kMaxEntities>] whose cells start value-initialised:
    the cells written so far, every other cell holding the value-initialised
    [dflt].  Reading or writing at an index outside [0, kMaxEntities) is
    undefined. *)
Definition in_bounds (i : Z) : Prop := 0 ≤ i < kMaxEntities.

Definition array_read {St A} (dflt : A) (a : gmap Z A) (i : Z) : M St A :=
  if decide (in_bounds i) then ret (default dflt (a !! i)) else undefined.

Definition array_write {St A} (a : gmap Z A) (i : Z) (x : A) : M St (gmap Z A) :=
  if decide (in_bounds i) then ret (<[i := x]> a) else undefined.

(** [std::bitset<64>::set(pos, val)]: throws when [pos] is not a bit index. *)
Definition bitset_set {St} (sig : Signature) (pos : Z) (val : bool) : M St Signature :=
  if decide (0 ≤ pos < kMaxComponents)
  then ret (if val then Z.setbit sig pos else Z.clearbit sig pos)
  else throw BitsetPosition.

(** ** [component_list.h]: [ComponentList<T>] *)

Module ComponentList.
Section ComponentList.
(** The component type [T]; [inhabitant] is the value-initialised [T{}]. *)
Context {T : Type} `{Inhabited T}.

Record t : Type := Build {
  next_component_index_ : Z;                 (* size_t *)
  components_ : gmap Z T;                    (* std::array<T, kMaxEntities> *)
  entity_to_component_index_ : gmap Z Z;     (* std::map<Entity, size_t> *)
  component_index_to_entity_ : gmap Z Z;     (* std::map<size_t, Entity> *)
}.

(** The freshly constructed list of [std::make_shared<ComponentList<T>>()]. *)
Definition empty : t := Build 0 ∅ ∅ ∅.

Definition contains (s : t) (entity : Entity) : bool :=
  bool_decide (is_Some (entity_to_component_index_ s !! entity)).

Definition Insert (entity : Entity) (component : T) : M t unit :=
  s <- get;;
  if contains s entity then throw DuplicateEntity
  else
    let next := next_component_index_ s in
    components <- array_write (components_ s) next component;;
    put (Build (wrap_size_t (next + 1))
               components
               (<[entity := next]> (entity_to_component_index_ s))
               (<[next := entity]> (component_index_to_entity_ s))).

Definition Remove (remove_entity : Entity) : M t unit :=
  s <- get;;
  if negb (contains s remove_entity) then throw NotFound
  else
    let end_component_idx := wrap_size_t (next_component_index_ s - 1) in
    let '(remove_component_idx, e2i) :=
      map_subscript 0 (entity_to_component_index_ s) remove_entity in
    last <- array_read inhabitant (components_ s) end_component_idx;;
    components <- array_write (components_ s) remove_component_idx last;;
    let '(end_entity, i2e) :=
      map_subscript 0 (component_index_to_entity_ s) end_component_idx in
    let e2i := <[end_entity := remove_component_idx]> e2i in
    let i2e := <[remove_component_idx := end_entity]> i2e in
    put (Build (wrap_size_t (next_component_index_ s - 1))
               components
               (delete remove_entity e2i)
               (delete end_component_idx i2e)).

Definition Get (entity : Entity) : M t T :=
  s <- get;;
  if negb (contains s entity) then throw NotFound
  else
    let '(idx, _) := map_subscript 0 (entity_to_component_index_ s) entity in
    array_read inhabitant (components_ s) idx.

Definition EntityWasDestroyed (entity : Entity) : M t unit :=
  s <- get;;
  if contains s entity then Remove entity else ret tt.

End ComponentList.
Arguments t : clear implicits.
End ComponentList.

(** ** [entity_manager.h]: [EntityManager] *)

Module EntityManager.

Record t : Type := Build {
  available_entities_ : list Z;      (* std::queue<Entity>, front first *)
  entity_signatures_ : gmap Z Z;     (* std::array<Signature, kMaxEntities> *)
}.

(** The constructor's loop
    [for (Entity entity = 0; entity < kMaxEntities; ++entity) push(entity)]:
    the entities it pushes from [entity] on, in the order pushed. *)
Fixpoint pushed_from (fuel : nat) (entity : Z) : list Z :=
  match fuel with
  | O => []
  | S fuel' =>
      if decide (entity < kMaxEntities)
      then entity :: pushed_from fuel' (entity + 1)
      else []
  end.

Definition new : t := Build (pushed_from (Z.to_nat kMaxEntities) 0) ∅.

Definition CheckEntityOutOfBound (entity : Entity) : M t unit :=
  if decide (kMaxEntities ≤ entity) then throw OutOfRange else ret tt.

Definition CreateEntity : M t Entity :=
  s <- get;;
  match available_entities_ s with
  | [] => throw CapacityExceeded
  | entity :: rest => put (Build rest (entity_signatures_ s));; ret entity
  end.

Definition DestroyEntity (entity : Entity) : M t unit :=
  CheckEntityOutOfBound entity;;
  s <- get;;
  signatures <- array_write (entity_signatures_ s) entity 0;;
  put (Build (available_entities_ s ++ [entity]) signatures).

Definition SetSignature (entity : Entity) (signature : Signature) : M t unit :=
  CheckEntityOutOfBound entity;;
  s <- get;;
  signatures <- array_write (entity_signatures_ s) entity signature;;
  put (Build (available_entities_ s) signatures).

Definition GetSignature (entity : Entity) : M t Signature :=
  CheckEntityOutOfBound entity;;
  s <- get;;
  array_read 0 (entity_signatures_ s) entity.

End EntityManager.

(** [for (auto const& pair : m) body(pair.first, pair.second)] over the
    entries of a [std::map]. *)
Fixpoint for_each {St K A} (entries : list (K * A)) (body : K → A → M St unit)
    : M St unit :=
  match entries with
  | [] => ret tt
  | (k, a) :: rest => body k a;; for_each rest body
  end.

(** ** [component_manager.h]: [ComponentManager] *)

Module ComponentManager.
Section ComponentManager.
(** Every component list is held behind the same interface; the values of
    all component types are taken from one universe [V], and the list of
    type [T] is the one stored under [typeid(T).name()]. *)
Context {V : Type} `{Inhabited V}.

Record t : Type := Build {
  component_types_ : gmap positive Z;                      (* name -> ComponentType *)
  component_lists_ : gmap positive (ComponentList.t V);    (* name -> list object *)
  next_component_type_ : Z;                                (* uint16_t *)
}.

Definition new : t := Build ∅ ∅ 0.

Definition set_list (T : TypeName) (l : ComponentList.t V) (s : t) : t :=
  Build (component_types_ s) (<[T := l]> (component_lists_ s))
        (next_component_type_ s).

Definition RegisterComponent (T : TypeName) : M t unit :=
  s <- get;;
  if bool_decide (is_Some (component_types_ s !! T)) then ret tt
  else
    put (Build (<[T := next_component_type_ s]> (component_types_ s))
               (<[T := ComponentList.empty]> (component_lists_ s))
               (wrap_uint16 (next_component_type_ s + 1))).

(** [GetComponentList<T>()->op(...)]: the call runs on the list object the
    map points to under [T]. *)
Definition on_component_list {A} (T : TypeName) (op : M (ComponentList.t V) A)
    : M t A :=
  s <- get;;
  match component_lists_ s !! T with
  | None => throw MissingComponentList
  | Some l => within (λ _, l) (set_list T) op
  end.

Definition AddComponent (T : TypeName) (entity : Entity) (component : V)
    : M t unit :=
  s <- get;;
  (if bool_decide (is_Some (component_types_ s !! T)) then ret tt
   else RegisterComponent T);;
  on_component_list T (ComponentList.Insert entity component).

Definition RemoveComponent (T : TypeName) (entity : Entity) : M t unit :=
  on_component_list T (ComponentList.Remove entity).

Definition GetComponent (T : TypeName) (entity : Entity) : M t V :=
  on_component_list T (ComponentList.Get entity).

Definition GetComponentType (T : TypeName) : M t ComponentType :=
  s <- get;;
  match component_types_ s !! T with
  | None => throw UnregisteredType
  | Some component_type => ret component_type
  end.

(** Body of the loop of [EntityWasDestroyed]:
    [component_list->EntityWasDestroyed(entity)] on the list object of the
    entry. *)
Definition notify_list (entity : Entity) (T : TypeName) (l : ComponentList.t V)
    : M t unit :=
  within (λ _, l) (set_list T) (ComponentList.EntityWasDestroyed entity).

Definition EntityWasDestroyed (entity : Entity) : M t unit :=
  s <- get;;
  for_each (map_to_list (component_lists_ s)) (notify_list entity).

End ComponentManager.
Arguments t : clear implicits.
End ComponentManager.

(** ** [system.h] and [system_manager.h]: [System], [SystemManager] *)

Module SystemManager.

(** A [System] object is its public member [entities_], a
    [std::set<Entity>]; the manager holds one object per system type. *)
Record t : Type := Build {
  systems_ : gmap positive (gset Z);         (* name -> System object *)
  system_signatures_ : gmap positive Z;      (* name -> Signature *)
}.

Definition new : t := Build ∅ ∅.

Definition set_system (T : TypeName) (entities : gset Z) (s : t) : t :=
  Build (<[T := entities]> (systems_ s)) (system_signatures_ s).

(** [RegisterSystem<T>(T system)]: stores a copy of [system]. *)
Definition RegisterSystem_copy (T : TypeName) (system : gset Z) : M t (gset Z) :=
  s <- get;;
  if bool_decide (is_Some (systems_ s !! T)) then throw AlreadyRegistered
  else put (set_system T system s);; ret system.

(** [RegisterSystem<T>()]: stores a default-constructed system. *)
Definition RegisterSystem (T : TypeName) : M t (gset Z) :=
  RegisterSystem_copy T ∅.

Definition SetSystemSignature (T : TypeName) (signature : Signature) : M t unit :=
  s <- get;;
  if negb (bool_decide (is_Some (systems_ s !! T))) then throw UnregisteredType
  else put (Build (systems_ s) (<[T := signature]> (system_signatures_ s))).

Definition GetSystem (T : TypeName) : M t (gset Z) :=
  s <- get;;
  match systems_ s !! T with
  | None => throw UnregisteredType
  | Some system => ret system
  end.

(** Body of the loop of [EntityWasDestroyed]:
    [system->entities_.erase(entity)]. *)
Definition erase_from (entity : Entity) (T : TypeName) (system : gset Z)
    : M t unit :=
  s <- get;; put (set_system T (system ∖ {[entity]}) s).

Definition EntityWasDestroyed (entity : Entity) : M t unit :=
  s <- get;;
  for_each (map_to_list (systems_ s)) (erase_from entity).

(** Body of the loop of [EntitySignatureChanged]. *)
Definition match_signature (entity : Entity) (entity_signature : Signature)
    (type : TypeName) (system : gset Z) : M t unit :=
  s <- get;;
  let '(system_signature, signatures) :=
    map_subscript 0 (system_signatures_ s) type in
  let compatibility_sig := Z.land entity_signature system_signature in
  if decide (compatibility_sig = system_signature)
  then put (Build (<[type := system ∪ {[entity]}]> (systems_ s)) signatures)
  else put (Build (<[type := system ∖ {[entity]}]> (systems_ s)) signatures).

Definition EntitySignatureChanged (entity : Entity) (entity_signature : Signature)
    : M t unit :=
  s <- get;;
  for_each (map_to_list (systems_ s)) (match_signature entity entity_signature).

End SystemManager.

(** ** [engine.h]: [Engine] *)

Module Engine.
Section Engine.
Context {V : Type} `{Inhabited V}.

Record t : Type := Build {
  entity_manager_ : EntityManager.t;
  component_manager_ : ComponentManager.t V;
  system_manager_ : SystemManager.t;
}.

(** The engine built by [Engine::singleton()]. *)
Definition new : t :=
  Build EntityManager.new ComponentManager.new SystemManager.new.

Definition entities {A} : M EntityManager.t A → M t A :=
  within entity_manager_
    (λ em s, Build em (component_manager_ s) (system_manager_ s)).
Definition components {A} : M (ComponentManager.t V) A → M t A :=
  within component_manager_
    (λ cm s, Build (entity_manager_ s) cm (system_manager_ s)).
Definition systems {A} : M SystemManager.t A → M t A :=
  within system_manager_
    (λ sm s, Build (entity_manager_ s) (component_manager_ s) sm).

Definition CreateEntity : M t Entity :=
  entities EntityManager.CreateEntity.

Definition DestroyEntity (entity : Entity) : M t unit :=
  entities (EntityManager.DestroyEntity entity);;
  components (ComponentManager.EntityWasDestroyed entity);;
  systems (SystemManager.EntityWasDestroyed entity).

Definition RegisterComponent (T : TypeName) : M t unit :=
  components (ComponentManager.RegisterComponent T).

Definition AddComponent (T : TypeName) (entity : Entity) (component : V)
    : M t unit :=
  components (ComponentManager.AddComponent T entity component);;
  component_id <- components (ComponentManager.GetComponentType T);;
  entity_signature <- entities (EntityManager.GetSignature entity);;
  entity_signature <- bitset_set entity_signature component_id true;;
  entities (EntityManager.SetSignature entity entity_signature);;
  systems (SystemManager.EntitySignatureChanged entity entity_signature).

Definition RemoveComponent (T : TypeName) (entity : Entity) : M t unit :=
  components (ComponentManager.RemoveComponent T entity);;
  component_id <- components (ComponentManager.GetComponentType T);;
  entity_signature <- entities (EntityManager.GetSignature entity);;
  entity_signature <- bitset_set entity_signature component_id false;;
  entities (EntityManager.SetSignature entity entity_signature);;
  systems (SystemManager.EntitySignatureChanged entity entity_signature).

Definition HasComponent (T : TypeName) (entity : Entity) : M t bool :=
  component_id <- components (ComponentManager.GetComponentType T);;
  component_signature <- bitset_set 0 component_id true;;
  entity_signature <- entities (EntityManager.GetSignature entity);;
  ret (bool_decide
         (Z.land component_signature entity_signature = component_signature)).

Definition GetComponent (T : TypeName) (entity : Entity) : M t V :=
  components (ComponentManager.GetComponent T entity).

Definition GetComponentType (T : TypeName) : M t ComponentType :=
  components (ComponentManager.GetComponentType T).

Definition RegisterSystem_copy (T : TypeName) (system : gset Z) : M t (gset Z) :=
  systems (SystemManager.RegisterSystem_copy T system).

Definition RegisterSystem (T : TypeName) : M t (gset Z) :=
  systems (SystemManager.RegisterSystem T).

Definition SetSystemSignature (T : TypeName) (signature : Signature) : M t unit :=
  systems (SystemManager.SetSystemSignature T signature).

Definition GetSystem (T : TypeName) : M t (gset Z) :=
  systems (SystemManager.GetSystem T).

End Engine.
Arguments t : clear implicits.
End Engine.

(** * Vocabulary of the properties *)

(** ** Component stores *)

Module Store.
Section Store.
Context {T : Type} `{Inhabited T}.
Import ComponentList.

Definition count (s : t T) : Z := next_component_index_ s.
Definition slot_of (s : t T) (entity : Entity) : option Z :=
  entity_to_component_index_ s !! entity.
Definition entity_at (s : t T) (slot : Z) : option Entity :=
  component_index_to_entity_ s !! slot.
Definition occupied (s : t T) (slot : Z) : Prop := is_Some (entity_at s slot).
Definition cell (s : t T) (slot : Z) : T :=
  default inhabitant (components_ s !! slot).

(** Dense packing of one store. *)
Record packed (s : t T) : Prop := Packed {
  packed_capacity : 0 ≤ count s ≤ kMaxEntities;
  packed_inverse : ∀ e i, slot_of s e = Some i ↔ entity_at s i = Some e;
  packed_range : ∀ i, occupied s i ↔ 0 ≤ i < count s;
  packed_size : Z.of_nat (size (entity_to_component_index_ s)) = count s;
}.

(** The store left by removing the entity [e] of slot [i] when the last
    slot belongs to [l]. *)
Definition removed (s : t T) (e i l : Z) : t T :=
  Build (count s - 1)
        (<[i := cell s (count s - 1)]> (components_ s))
        (delete e (<[l := i]> (entity_to_component_index_ s)))
        (delete (count s - 1) (<[i := l]> (component_index_to_entity_ s))).

(** Every stored entity is an identifier the entity manager can issue. *)
Definition ids_in_range (s : t T) : Prop :=
  ∀ e, is_Some (slot_of s e) → 0 ≤ e < kMaxEntities.

(** A caller's sequence of calls on one store.  A call that throws is
    caught by the caller, who goes on with the next one. *)
Inductive op : Type :=
| OpInsert (entity : Entity) (component : T)
| OpRemove (entity : Entity).

Definition op_entity (o : op) : Entity :=
  match o with OpInsert e _ => e | OpRemove e => e end.

Definition call (o : op) : M (t T) unit :=
  match o with
  | OpInsert e c => Insert e c
  | OpRemove e => Remove e
  end.

(** The store together with the numbers of inserts and removes that
    completed on it. *)
Record history : Type := History {
  store : t T;
  inserts : Z;
  removes : Z;
}.

Definition start : history := History empty 0 0.

Definition completed (o : op) (s : t T) (h : history) : history :=
  match o with
  | OpInsert _ _ => History s (inserts h + 1) (removes h)
  | OpRemove _ => History s (inserts h) (removes h + 1)
  end.

(** [None]: some call made an undefined array access. *)
Fixpoint run (ops : list op) (h : history) : option history :=
  match ops with
  | [] => Some h
  | o :: rest =>
      match call o (store h) with
      | Ok _ s => run rest (completed o s h)
      | Throw _ s => run rest (History s (inserts h) (removes h))
      | Undefined => None
      end
  end.

(** The packing property read for every sequence of calls whatsoever:
    the sequence leaves a store, and that store is packed with as many
    components as inserts minus removes completed. *)
Definition leaves_packed_store (ops : list op) : Prop :=
  ∃ h, run ops start = Some h
     ∧ count (store h) = inserts h - removes h
     ∧ (∀ i, occupied (store h) i ↔ 0 ≤ i < count (store h))
     ∧ (∀ e i, slot_of (store h) e = Some i ↔ entity_at (store h) i = Some e).

End Store.
Arguments op : clear implicits.
Arguments history : clear implicits.
End Store.

(** ** Entity lifetimes *)

Module Lifetime.

(** Calls on the entity manager, in the order a caller makes them. *)
Inductive op : Type :=
| OpCreate
| OpDestroy (entity : Entity)
| OpSetSignature (entity : Entity) (signature : Signature).

(** The manager together with what it does not record itself: the
    identifiers [CreateEntity] has returned so far, and those of them that are
    checked out, that is returned and not destroyed since. *)
Record tracked : Type := Tracked {
  manager : EntityManager.t;
  issued : gset Z;
  live : gset Z;
}.

Definition fresh : tracked := Tracked EntityManager.new ∅ ∅.

(** A call that throws is caught; [None] when a call is undefined. *)
Definition step (o : op) (t : tracked) : option tracked :=
  match o with
  | OpCreate =>
      match EntityManager.CreateEntity (manager t) with
      | Ok e em => Some (Tracked em (issued t ∪ {[e]}) (live t ∪ {[e]}))
      | Throw _ em => Some (Tracked em (issued t) (live t))
      | Undefined => None
      end
  | OpDestroy e =>
      match EntityManager.DestroyEntity e (manager t) with
      | Ok _ em => Some (Tracked em (issued t) (live t ∖ {[e]}))
      | Throw _ em => Some (Tracked em (issued t) (live t))
      | Undefined => None
      end
  | OpSetSignature e sig =>
      match EntityManager.SetSignature e sig (manager t) with
      | Ok _ em | Throw _ em => Some (Tracked em (issued t) (live t))
      | Undefined => None
      end
  end.

Fixpoint run (ops : list op) (t : tracked) : option tracked :=
  match ops with
  | [] => Some t
  | o :: rest => step o t ≫= run rest
  end.

(** Every identifier waiting in the pool is below [kMaxEntities]. *)
Definition pool_in_range (em : EntityManager.t) : Prop :=
  Forall (λ e, 0 ≤ e < kMaxEntities) (EntityManager.available_entities_ em).

(** The entity manager after a successful [DestroyEntity] of [entity]. *)
Definition destroyed (entity : Entity) (em : EntityManager.t) : EntityManager.t :=
  EntityManager.Build (EntityManager.available_entities_ em ++ [entity])
                      (<[entity := 0]> (EntityManager.entity_signatures_ em)).

End Lifetime.

(** [n] calls of [Engine::CreateEntity] in a row, none of them caught: the
    identifiers returned, in order. *)
Fixpoint create_many {V : Type} `{Inhabited V} (n : nat) : M (Engine.t V) (list Entity) :=
  match n with
  | O => ret []
  | S n' =>
      entity <- Engine.CreateEntity;;
      rest <- create_many n';;
      ret (entity :: rest)
  end.

(** [RegisterComponent<T>()] for each type of [types] in turn. *)
Fixpoint register_all {V : Type} (types : list TypeName)
    : M (ComponentManager.t V) unit :=
  match types with
  | [] => ret tt
  | T :: rest => ComponentManager.RegisterComponent T;; register_all rest
  end.

(** The set a system holds after the manager has compared the signature
    [entity_signature] of [entity] with the signature the system requires. *)
Definition admitted (entity : Entity) (entity_signature system_signature : Signature)
    (system : gset Z) : gset Z :=
  if decide (Z.land entity_signature system_signature = system_signature)
  then system ∪ {[entity]}
  else system ∖ {[entity]}.

(** The signature a system requires: the recorded one, and the empty
    signature while none is recorded. *)
Definition required (sm : SystemManager.t) (T : TypeName) : Signature :=
  default 0 (SystemManager.system_signatures_ sm !! T).

(** The signature the entity manager holds for [entity]. *)
Definition signature_of (em : EntityManager.t) (entity : Entity) : Signature :=
  default 0 (EntityManager.entity_signatures_ em !! entity).

(** [entity] is in the entity set of the system registered under [T]. *)
Definition member (sm : SystemManager.t) (T : TypeName) (entity : Entity) : Prop :=
  ∃ system, SystemManager.systems_ sm !! T = Some system ∧ entity ∈ system.

(** The mutating operations of the engine, as calls. *)
Inductive mutation {V : Type} : Type :=
| CallCreateEntity
| CallDestroyEntity (entity : Entity)
| CallRegisterComponent (T : TypeName)
| CallAddComponent (T : TypeName) (entity : Entity) (component : V)
| CallRemoveComponent (T : TypeName) (entity : Entity)
| CallRegisterSystem (T : TypeName)
| CallRegisterSystem_copy (T : TypeName) (system : gset Z)
| CallSetSystemSignature (T : TypeName) (signature : Signature).
Arguments mutation : clear implicits.

(** The call with its return value dropped. *)
Definition perform {V : Type} `{Inhabited V} (c : mutation V) : M (Engine.t V) unit :=
  match c with
  | CallCreateEntity => _ <- Engine.CreateEntity;; ret tt
  | CallDestroyEntity entity => Engine.DestroyEntity entity
  | CallRegisterComponent T => Engine.RegisterComponent T
  | CallAddComponent T entity component => Engine.AddComponent T entity component
  | CallRemoveComponent T entity => Engine.RemoveComponent T entity
  | CallRegisterSystem T => _ <- Engine.RegisterSystem T;; ret tt
  | CallRegisterSystem_copy T system => _ <- Engine.RegisterSystem_copy T system;; ret tt
  | CallSetSystemSignature T signature => Engine.SetSystemSignature T signature
  end.

(** ** Vocabulary of the further properties *)

(** [n] calls of [EntityManager::CreateEntity] in a row, none of them caught:
    the identifiers returned, in order. *)
Fixpoint create_n (n : nat) : M EntityManager.t (list Entity) :=
  match n with
  | O => ret []
  | S n' =>
      entity <- EntityManager.CreateEntity;;
      rest <- create_n n';;
      ret (entity :: rest)
  end.

(** Every [DestroyEntity] of the sequence is given an identifier that is
    checked out when the call is made. *)
Fixpoint destroys_live (ops : list Lifetime.op) (t : Lifetime.tracked) : Prop :=
  match ops with
  | [] => True
  | o :: rest =>
      match o with
      | Lifetime.OpDestroy e => e ∈ Lifetime.live t
      | _ => True
      end
      ∧ match Lifetime.step o t with
        | Some t' => destroys_live rest t'
        | None => True
        end
  end.

(** The member functions of the component manager, as calls with their
    return value dropped. *)
Inductive manager_call {V : Type} : Type :=
| ManagerRegisterComponent (T : TypeName)
| ManagerAddComponent (T : TypeName) (entity : Entity) (component : V)
| ManagerRemoveComponent (T : TypeName) (entity : Entity)
| ManagerGetComponent (T : TypeName) (entity : Entity)
| ManagerGetComponentType (T : TypeName)
| ManagerEntityWasDestroyed (entity : Entity).
Arguments manager_call : clear implicits.

Definition perform_manager {V : Type} `{Inhabited V} (c : manager_call V)
    : M (ComponentManager.t V) unit :=
  match c with
  | ManagerRegisterComponent T => ComponentManager.RegisterComponent T
  | ManagerAddComponent T entity component =>
      ComponentManager.AddComponent T entity component
  | ManagerRemoveComponent T entity => ComponentManager.RemoveComponent T entity
  | ManagerGetComponent T entity =>
      _ <- ComponentManager.GetComponent T entity;; ret tt
  | ManagerGetComponentType T => _ <- ComponentManager.GetComponentType T;; ret tt
  | ManagerEntityWasDestroyed entity => ComponentManager.EntityWasDestroyed entity
  end.

(** A caller's sequence of calls, exceptions caught; [None] when a call is
    undefined. *)
Fixpoint run_calls {St C : Type} (do : C → M St unit) (calls : list C) (s : St)
    : option St :=
  match calls with
  | [] => Some s
  | c :: rest =>
      match do c s with
      | Ok _ s' | Throw _ s' => run_calls do rest s'
      | Undefined => None
      end
  end.

(** The store of type [T] holds a component for [entity]. *)
Definition stored {V : Type} (cm : ComponentManager.t V) (T : TypeName)
    (entity : Entity) : Prop :=
  ∃ l, ComponentManager.component_lists_ cm !! T = Some l
     ∧ is_Some (Store.slot_of l entity).

(** A store in which the entity [1] holds [10] and the entity [2] holds
    [20], as [Insert 1 10] and [Insert 2 20] leave a fresh store. *)
Definition sample_store : ComponentList.t Z :=
  ComponentList.Build 2 {[0 := 10; 1 := 20]} {[1 := 0; 2 := 1]} {[0 := 1; 1 := 2]}.

(** The number of component types [uint16_t] can tell apart. *)
Definition type_id_space : Z := 2 ^ 16.

(** The two maps of the component manager name the same types, and, while
    no more types are registered than [uint16_t] can tell apart, the
    identifiers handed out are [0], [1], ... without repetition. *)
Definition registry_ok {V : Type} (cm : ComponentManager.t V) : Prop :=
  let types := ComponentManager.component_types_ cm in
  (∀ T, is_Some (types !! T)
        ↔ is_Some (ComponentManager.component_lists_ cm !! T))
  ∧ ComponentManager.next_component_type_ cm
      = Z.of_nat (size types) `mod` type_id_space
  ∧ (Z.of_nat (size types) ≤ type_id_space →
       (∀ T id, types !! T = Some id → 0 ≤ id < Z.of_nat (size types))
       ∧ (∀ T1 T2 id, types !! T1 = Some id → types !! T2 = Some id → T1 = T2)).

(** Every store of the component manager is packed. *)
Definition stores_packed {V : Type} (cm : ComponentManager.t V) : Prop :=
  ∀ T l, ComponentManager.component_lists_ cm !! T = Some l → Store.packed l.

(** The signature bit of a component type is set for an entity exactly when
    the store of that type holds a component for the entity. *)
Definition bits_match_stores {V : Type} (eng : Engine.t V) : Prop :=
  ∀ T id e,
    ComponentManager.component_types_ (Engine.component_manager_ eng) !! T = Some id →
    0 ≤ id < kMaxComponents → 0 ≤ e < kMaxEntities →
    (Z.testbit (signature_of (Engine.entity_manager_ eng) e) id = true
     ↔ stored (Engine.component_manager_ eng) T e).

(** Only bits of registered component types are set in a signature. *)
Definition bits_are_registered {V : Type} (eng : Engine.t V) : Prop :=
  ∀ e id,
    Z.testbit (signature_of (Engine.entity_manager_ eng) e) id = true →
    ∃ T, ComponentManager.component_types_ (Engine.component_manager_ eng) !! T
         = Some id.

(** What the component manager and the signatures owe each other. *)
Definition engine_consistent {V : Type} (eng : Engine.t V) : Prop :=
  registry_ok (Engine.component_manager_ eng)
  ∧ stores_packed (Engine.component_manager_ eng)
  ∧ (Z.of_nat (size (ComponentManager.component_types_
                       (Engine.component_manager_ eng))) ≤ type_id_space →
     bits_match_stores eng ∧ bits_are_registered eng).

(** ** [tests/engine.cc] and [main.cc] *)

(** [TestSystem::Update]: one log line per entity of [entities_]; what is
    observed of it here is the set of entities the loop visits. *)
Definition Update (entities_ : gset Z) : gset Z := entities_.

(** [test_system->Update()] through the handle returned at registration:
    the handle shares the object held under the system type [S]. *)
Definition Update_through_handle {V : Type} (S : TypeName) : M (Engine.t V) (gset Z) :=
  system <- Engine.GetSystem S;; ret (Update system).

(** What a run of a driver observes. *)
Record observed {V : Type} : Type := Observed {
  seen_entity : Entity;
  seen_component_type : ComponentType;
  seen_component : V;
  seen_has_component : bool;
  seen_updates : list (gset Z);
}.
Arguments observed : clear implicits.

(** The body shared by [TEST(ECS, IntegrationTest)] and [main] from the
    creation of [entity] on; [float] is the component type [T], the local
    class [TestSystem] the system type [S], [1.0] the value [one]. *)
Definition driver_body {V : Type} `{Inhabited V} (T S : TypeName) (one : V)
    (get_system_twice : bool) : M (Engine.t V) (observed V) :=
  entity <- Engine.CreateEntity;;
  Engine.RegisterComponent T;;
  Engine.AddComponent T entity one;;
  component_type <- Engine.GetComponentType T;;
  component <- Engine.GetComponent T entity;;
  has_component <- Engine.HasComponent T entity;;
  Engine.RegisterSystem S;;
  (if get_system_twice then _ <- Engine.GetSystem S;; ret tt else ret tt);;
  Engine.GetSystem S;;
  component_type' <- Engine.GetComponentType T;;
  sig <- bitset_set 0 component_type' true;;
  Engine.SetSystemSignature S sig;;
  update1 <- Update_through_handle S;;
  Engine.RemoveComponent T entity;;
  update2 <- Update_through_handle S;;
  Engine.DestroyEntity entity;;
  update3 <- Update_through_handle S;;
  ret (Observed V entity component_type component has_component
         [update1; update2; update3]).

(** [TEST(ECS, IntegrationTest)]: a first entity is created and dropped. *)
Definition IntegrationTest {V : Type} `{Inhabited V} (T S : TypeName) (one : V)
    : M (Engine.t V) (observed V) :=
  Engine.CreateEntity;;
  driver_body T S one true.

(** [main]. *)
Definition main {V : Type} `{Inhabited V} (T S : TypeName) (one : V)
    : M (Engine.t V) (observed V) :=
  driver_body T S one false.

(** * Properties *)

Lemma kMaxEntities_eq : kMaxEntities = 65535.
Proof. reflexivity. Qed.

Lemma wrap_size_t_small z : 0 ≤ z < 2 ^ 64 → wrap_size_t z = z.
Proof. intros. unfold wrap_size_t. by apply Z.mod_small. Qed.

Lemma map_subscript_Some `{Countable K} {A} (d : A) (m : gmap K A) k a :
  m !! k = Some a → map_subscript d m k = (a, m).
Proof. intros Hk. unfold map_subscript. by rewrite Hk. Qed.

Lemma map_subscript_None `{Countable K} {A} (d : A) (m : gmap K A) k :
  m !! k = None → map_subscript d m k = (d, <[k := d]> m).
Proof. intros Hk. unfold map_subscript. by rewrite Hk. Qed.

(** Unfolds the monadic plumbing of a call applied to a state. *)
Ltac run_monad :=
  unfold bind, get, put, ret, throw, undefined, within; simpl.

(** ** Component stores *)

Section StoreProps.
Context {T : Type} `{Inhabited T}.
Import ComponentList Store.
Implicit Types (s : ComponentList.t T) (e i : Z).
Implicit Types (o : op T) (ops : list (op T)) (h : history T).

Lemma contains_true s e i : slot_of s e = Some i → contains s e = true.
Proof. intros He. unfold contains. apply bool_decide_eq_true. by exists i. Qed.

Lemma contains_false s e : slot_of s e = None → contains s e = false.
Proof.
  intros He. unfold contains. apply bool_decide_eq_false.
  unfold slot_of in He. rewrite He. by intros [? ?].
Qed.

(** *** The three ways [Insert] can go *)

Lemma Insert_duplicate s e c i :
  slot_of s e = Some i → Insert e c s = Throw DuplicateEntity s.
Proof. intros He. unfold Insert. run_monad. by rewrite (contains_true s e i). Qed.

Lemma Insert_fresh s e c :
  slot_of s e = None → in_bounds (count s) →
  Insert e c s =
    Ok tt (Build (wrap_size_t (count s + 1))
                 (<[count s := c]> (components_ s))
                 (<[e := count s]> (entity_to_component_index_ s))
                 (<[count s := e]> (component_index_to_entity_ s))).
Proof.
  intros He Hb. unfold Insert, array_write, count in *. run_monad.
  rewrite contains_false by done. by rewrite decide_True.
Qed.

Lemma Insert_full s e c :
  slot_of s e = None → ¬ in_bounds (count s) → Insert e c s = Undefined.
Proof.
  intros He Hb. unfold Insert, array_write, count in *. run_monad.
  rewrite contains_false by done. by rewrite decide_False.
Qed.

(** *** [Remove] *)

Lemma Remove_absent s e : slot_of s e = None → Remove e s = Throw NotFound s.
Proof. intros He. unfold Remove. run_monad. by rewrite contains_false. Qed.

Lemma Remove_present s e i l :
  slot_of s e = Some i →
  entity_at s (wrap_size_t (count s - 1)) = Some l →
  in_bounds i → in_bounds (wrap_size_t (count s - 1)) →
  Remove e s =
    Ok tt (Build (wrap_size_t (count s - 1))
                 (<[i := cell s (wrap_size_t (count s - 1))]> (components_ s))
                 (delete e (<[l := i]> (entity_to_component_index_ s)))
                 (delete (wrap_size_t (count s - 1))
                         (<[i := l]> (component_index_to_entity_ s)))).
Proof.
  intros He Hl Hi Hend.
  unfold Remove, array_read, array_write, count, cell, slot_of, entity_at in *.
  run_monad. rewrite (contains_true s e i) by done. simpl.
  rewrite (map_subscript_Some _ _ _ _ He).
  rewrite (decide_True _ _ Hend). simpl. rewrite (decide_True _ _ Hi). simpl.
  by rewrite (map_subscript_Some _ _ _ _ Hl).
Qed.

Lemma Get_present s e i :
  slot_of s e = Some i → in_bounds i → Get e s = Ok (cell s i) s.
Proof.
  intros He Hi. unfold Get, array_read, cell, slot_of in *. run_monad.
  rewrite (contains_true s e i) by done. simpl.
  rewrite (map_subscript_Some _ _ _ _ He). by rewrite decide_True.
Qed.

(** *** Consequences of dense packing *)

Lemma packed_slot_range s e i : packed s → slot_of s e = Some i → 0 ≤ i < count s.
Proof.
  intros Hp He. apply (packed_range s Hp). exists e. by apply (packed_inverse s Hp).
Qed.

Lemma packed_slot_unique s e1 e2 i :
  packed s → slot_of s e1 = Some i → slot_of s e2 = Some i → e1 = e2.
Proof.
  intros Hp H1 H2. apply (packed_inverse s Hp) in H1, H2. congruence.
Qed.

Lemma packed_last s : packed s → 0 < count s → ∃ l, entity_at s (count s - 1) = Some l.
Proof. intros Hp Hn. apply (packed_range s Hp). lia. Qed.

Lemma packed_empty : packed (empty (T:=T)).
Proof.
  split; unfold occupied, count, slot_of, entity_at, empty;
    cbn [next_component_index_ entity_to_component_index_
         component_index_to_entity_].
  - rewrite kMaxEntities_eq. lia.
  - intros e i. by rewrite !lookup_empty.
  - intros i. rewrite lookup_empty. split; [by intros [? ?] | lia].
  - by rewrite map_size_empty.
Qed.

(** *** [Insert] and [Remove] keep the store packed *)

Lemma Insert_Ok_inv s e c s' :
  Insert e c s = Ok tt s' →
  slot_of s e = None ∧ in_bounds (count s) ∧
  s' = Build (wrap_size_t (count s + 1))
             (<[count s := c]> (components_ s))
             (<[e := count s]> (entity_to_component_index_ s))
             (<[count s := e]> (component_index_to_entity_ s)).
Proof.
  intros Hrun. destruct (slot_of s e) as [i|] eqn:He.
  { rewrite (Insert_duplicate s e c i He) in Hrun. discriminate. }
  destruct (decide (in_bounds (count s))) as [Hb|Hb].
  - rewrite (Insert_fresh s e c He Hb) in Hrun. by simplify_eq.
  - rewrite (Insert_full s e c He Hb) in Hrun. discriminate.
Qed.

Lemma Insert_packed s e c s' :
  packed s → Insert e c s = Ok tt s' → packed s' ∧ count s' = count s + 1.
Proof.
  intros Hp Hrun. apply Insert_Ok_inv in Hrun as (He & Hb & ->).
  destruct Hp as [Hcap Hinv Hrange Hsize].
  assert (Hw : wrap_size_t (count s + 1) = count s + 1).
  { apply wrap_size_t_small. unfold in_bounds in Hb.
    rewrite kMaxEntities_eq in Hb. lia. }
  assert (Hfree : ∀ e', slot_of s e' ≠ Some (count s)).
  { intros e' He'. apply Hinv in He'.
    assert (occupied s (count s)) as Hocc by (by exists e').
    apply Hrange in Hocc. lia. }
  split; [|by unfold count; simpl].
  unfold in_bounds in Hb.
  split; unfold occupied, count, slot_of, entity_at in *;
    cbn [next_component_index_ entity_to_component_index_
         component_index_to_entity_]; rewrite ?Hw.
  - lia.
  - intros e' i. rewrite !lookup_insert.
    destruct (decide (e = e')) as [<-|Hne];
      destruct (decide (next_component_index_ s = i)) as [<-|Hni].
    + done.
    + split; [intros; simplify_eq|].
      intros Hi. apply Hinv in Hi. congruence.
    + split; [|intros; simplify_eq]. intros Hi. by apply Hfree in Hi.
    + apply Hinv.
  - intros i. rewrite lookup_insert.
    destruct (decide (next_component_index_ s = i)) as [<-|Hni].
    + split; [lia | by eexists].
    + rewrite Hrange. lia.
  - rewrite map_size_insert_None by done. lia.
Qed.

Lemma Remove_packed_present s e i :
  packed s → slot_of s e = Some i →
  ∃ l, entity_at s (count s - 1) = Some l ∧ Remove e s = Ok tt (removed s e i l).
Proof.
  intros Hp He.
  pose proof (packed_slot_range s e i Hp He) as Hi.
  destruct (packed_last s Hp) as [l Hl]; [lia|].
  pose proof (packed_capacity s Hp) as Hcap.
  assert (Hw : wrap_size_t (count s - 1) = count s - 1).
  { apply wrap_size_t_small. rewrite kMaxEntities_eq in Hcap. lia. }
  exists l. split; [done|].
  rewrite (Remove_present s e i l);
    rewrite ?Hw; unfold in_bounds; try done; lia.
Qed.

Lemma Remove_Ok_inv s e s' :
  packed s → Remove e s = Ok tt s' →
  ∃ i l, slot_of s e = Some i ∧ entity_at s (count s - 1) = Some l ∧
    s' = removed s e i l.
Proof.
  intros Hp Hrun. destruct (slot_of s e) as [i|] eqn:He.
  2:{ rewrite (Remove_absent s e He) in Hrun. discriminate. }
  destruct (Remove_packed_present s e i Hp He) as (l & Hl & Heq).
  rewrite Heq in Hrun. exists i, l. by simplify_eq.
Qed.

Lemma Remove_packed s e s' :
  packed s → Remove e s = Ok tt s' → packed s' ∧ count s' = count s - 1.
Proof.
  intros Hp Hrun.
  destruct (Remove_Ok_inv s e s' Hp Hrun) as (i & l & He & Hl & ->).
  unfold removed. clear Hrun.
  pose proof (packed_slot_range s e i Hp He) as Hi.
  destruct Hp as [Hcap Hinv Hrange Hsize].
  pose proof (proj1 (Hinv e i) He) as Hie.
  pose proof (proj2 (Hinv l (count s - 1)) Hl) as Hle.
  split; [|by unfold count; simpl].
  split; unfold occupied, count, slot_of, entity_at in *;
    cbn [next_component_index_ entity_to_component_index_
         component_index_to_entity_].
  - lia.
  - intros e' j. rewrite !lookup_delete, !lookup_insert.
    pose proof (Hinv e' j) as Hej.
    repeat case_decide; simplify_eq; try done;
      (split; intros Hx; simplify_eq; try congruence;
       apply Hej in Hx; congruence).
  - intros j. rewrite lookup_delete, lookup_insert.
    repeat case_decide; simplify_eq.
    + split; [by intros [? ?] | lia].
    + split; [lia | by eexists].
    + rewrite Hrange. lia.
  - rewrite map_size_delete_Some.
    + rewrite map_size_insert_Some by (by eexists). lia.
    + rewrite lookup_insert. case_decide; by eexists.
Qed.

(** *** Sequences of calls *)

Lemma call_Throw_inv o s err s' : call o s = Throw err s' → s' = s.
Proof.
  destruct o as [e c|e]; simpl; intros Hrun.
  - destruct (slot_of s e) as [i|] eqn:He.
    { rewrite (Insert_duplicate s e c i He) in Hrun. by simplify_eq. }
    destruct (decide (in_bounds (count s))) as [Hb|Hb].
    + rewrite (Insert_fresh s e c He Hb) in Hrun. discriminate.
    + rewrite (Insert_full s e c He Hb) in Hrun. discriminate.
  - revert Hrun. unfold Remove, array_read, array_write. run_monad.
    destruct (contains s e); simpl; [|intros; by simplify_eq].
    destruct (map_subscript 0 (entity_to_component_index_ s) e) as [i e2i].
    repeat (case_decide; simpl; try discriminate).
    destruct (map_subscript 0 (component_index_to_entity_ s) _) as [l i2e].
    discriminate.
Qed.

Lemma call_Ok_packed o s s' :
  packed s → call o s = Ok tt s' →
  packed s' ∧
  count s' = count s + match o with OpInsert _ _ => 1 | OpRemove _ => -1 end.
Proof.
  destruct o as [e c|e]; simpl; intros Hp Hrun.
  - by apply (Insert_packed s e c).
  - destruct (Remove_packed s e s' Hp Hrun). split; [done | lia].
Qed.

Lemma run_packed ops : ∀ h h',
  packed (store h) → run ops h = Some h' →
  packed (store h') ∧
  count (store h') - count (store h)
    = (inserts h' - inserts h) - (removes h' - removes h).
Proof.
  induction ops as [|o ops IH]; intros h h' Hp Hrun; simpl in Hrun.
  { simplify_eq. split; [done | lia]. }
  destruct (call o (store h)) as [[] s1|err s1|] eqn:Hcall; [| |done].
  - destruct (call_Ok_packed o (store h) s1 Hp Hcall) as [Hp1 Hc1].
    apply IH in Hrun as [Hp' Hc']; [|by destruct o].
    split; [done|]. destruct o; simpl in *; lia.
  - apply call_Throw_inv in Hcall as ->.
    apply IH in Hrun as [Hp' Hc']; [|done]. split; [done|]. simpl in *; lia.
Qed.

(** *** Identifiers in range never run the array over *)

Lemma room_for_fresh s e :
  packed s → ids_in_range s → slot_of s e = None → 0 ≤ e < kMaxEntities →
  count s < kMaxEntities.
Proof.
  intros Hp Hids He Hrange.
  set (X := dom (entity_to_component_index_ s) : gset Z).
  assert (Hsub : {[e]} ∪ X ⊆ list_to_set (seqZ 0 kMaxEntities)).
  { intros x. rewrite elem_of_union, elem_of_singleton, elem_of_list_to_set,
      elem_of_seqZ. intros [->|Hx]; [lia|].
    apply elem_of_dom in Hx. apply Hids in Hx. lia. }
  apply subseteq_size in Hsub.
  rewrite size_union, size_singleton in Hsub.
  2:{ apply disjoint_singleton_l. intros Hx. apply elem_of_dom in Hx.
      unfold slot_of in He. rewrite He in Hx. by destruct Hx. }
  rewrite size_list_to_set, length_seqZ in Hsub by apply NoDup_seqZ.
  unfold X in Hsub. rewrite size_dom in Hsub.
  pose proof (packed_size s Hp). rewrite kMaxEntities_eq in *. lia.
Qed.

Lemma call_in_range o s s' :
  packed s → ids_in_range s → 0 ≤ op_entity o < kMaxEntities →
  call o s = Ok tt s' → ids_in_range s'.
Proof.
  destruct o as [e c|e]; simpl; intros Hp Hids He Hrun e' [j Hj].
  - apply Insert_Ok_inv in Hrun as (_ & _ & ->).
    unfold slot_of in Hj; simpl in Hj. rewrite lookup_insert in Hj.
    case_decide; simplify_eq; [done|]. apply Hids. by exists j.
  - apply Remove_Ok_inv in Hrun as (i & l & Hi & Hl & ->); [|done].
    unfold slot_of, removed in Hj; simpl in Hj.
    rewrite lookup_delete, lookup_insert in Hj.
    repeat case_decide; simplify_eq.
    + apply Hids. exists (count s - 1). by apply (packed_inverse s Hp).
    + apply Hids. by exists j.
Qed.

Lemma call_defined o s :
  packed s → ids_in_range s → 0 ≤ op_entity o < kMaxEntities →
  call o s ≠ Undefined.
Proof.
  destruct o as [e c|e]; simpl; intros Hp Hids He.
  - destruct (slot_of s e) as [i|] eqn:Hslot.
    { by rewrite (Insert_duplicate s e c i Hslot). }
    rewrite Insert_fresh; [done..|].
    pose proof (room_for_fresh s e Hp Hids Hslot He).
    pose proof (packed_capacity s Hp). unfold in_bounds. lia.
  - destruct (slot_of s e) as [i|] eqn:Hslot.
    + destruct (Remove_packed_present s e i Hp Hslot) as (l & _ & ->). done.
    + by rewrite Remove_absent.
Qed.

Lemma run_defined ops : ∀ h,
  packed (store h) → ids_in_range (store h) →
  Forall (λ o, 0 ≤ op_entity o < kMaxEntities) ops →
  is_Some (run ops h).
Proof.
  induction ops as [|o ops IH]; intros h Hp Hids Hops; simpl; [by eexists|].
  apply Forall_cons in Hops as [Ho Hops].
  pose proof (call_defined o (store h) Hp Hids Ho) as Hdef.
  destruct (call o (store h)) as [[] s1|err s1|] eqn:Hcall; [| |done].
  - apply IH; [| |done]; destruct o; simpl.
    all: first [ by apply (call_Ok_packed _ _ _ Hp Hcall)
               | by apply (call_in_range _ _ _ Hp Hids Ho Hcall) ].
  - apply call_Throw_inv in Hcall as ->. by apply IH.
Qed.

Lemma ids_in_range_empty : ids_in_range (empty (T:=T)).
Proof. intros e [i Hi]. unfold slot_of, empty in Hi. simpl in Hi. done. Qed.

Lemma run_app ops1 ops2 : ∀ h,
  run (ops1 ++ ops2) h = run ops1 h ≫= run ops2.
Proof.
  induction ops1 as [|o ops1 IH]; intros h; simpl; [done|].
  destruct (call o (store h)) as [[] s1|err s1|]; by rewrite ?IH.
Qed.

(** Inserting the entities [0], [1], ..., [n-1] into a fresh store. *)
Lemma run_fill (c : T) (n : nat) :
  Z.of_nat n ≤ kMaxEntities →
  ∃ h, run ((λ e, OpInsert e c) <$> seqZ 0 (Z.of_nat n)) start = Some h
     ∧ count (store h) = Z.of_nat n
     ∧ ∀ e, is_Some (slot_of (store h) e) ↔ 0 ≤ e < Z.of_nat n.
Proof.
  induction n as [|n IH]; intros Hn.
  { exists start. split; [done|]. split; [done|].
    intros e. unfold slot_of, start, empty. cbn [store entity_to_component_index_].
    rewrite lookup_empty. split; [by intros [? ?] | lia]. }
  destruct IH as (h & Hrun & Hcount & Hdom); [lia|].
  assert (Hfresh : slot_of (store h) (Z.of_nat n) = None).
  { apply eq_None_not_Some. rewrite Hdom. lia. }
  assert (Hb : in_bounds (count (store h))) by (unfold in_bounds; lia).
  rewrite seqZ_S, fmap_app, run_app, Hrun. cbn [mbind option_bind fmap list_fmap run call].
  rewrite Z.add_0_l, (Insert_fresh _ _ c Hfresh Hb).
  eexists. split; [done|].
  cbn [completed store]. unfold count at 1, slot_of.
  cbn [next_component_index_ entity_to_component_index_].
  rewrite Hcount, wrap_size_t_small by (rewrite kMaxEntities_eq in Hn; lia).
  split; [lia|]. intros e. rewrite lookup_insert.
  case_decide as He; [subst; split; [lia | by eexists]|].
  fold (slot_of (store h) e). rewrite Hdom. lia.
Qed.

Lemma call_Undefined_inv o s :
  packed s → call o s = Undefined →
  ∃ e c, o = OpInsert e c ∧ slot_of s e = None ∧ count s = kMaxEntities.
Proof.
  destruct o as [e c|e]; simpl; intros Hp Hrun.
  - exists e, c. split; [done|].
    destruct (slot_of s e) as [i|] eqn:He.
    { by rewrite (Insert_duplicate s e c i He) in Hrun. }
    split; [done|].
    destruct (decide (in_bounds (count s))) as [Hb|Hb].
    { by rewrite (Insert_fresh s e c He Hb) in Hrun. }
    pose proof (packed_capacity s Hp). unfold in_bounds in Hb. lia.
  - destruct (slot_of s e) as [i|] eqn:He.
    + destruct (Remove_packed_present s e i Hp He) as (l & _ & Hok).
      by rewrite Hok in Hrun.
    + by rewrite (Remove_absent s e He) in Hrun.
Qed.

Lemma run_None_inv ops : ∀ h,
  packed (store h) → run ops h = None →
  ∃ before e c after h',
    ops = before ++ OpInsert e c :: after
    ∧ run before h = Some h'
    ∧ slot_of (store h') e = None
    ∧ count (store h') = kMaxEntities.
Proof.
  induction ops as [|o ops IH]; intros h Hp Hrun; simpl in Hrun; [done|].
  destruct (call o (store h)) as [[] s1|err s1|] eqn:Hcall.
  - destruct (call_Ok_packed o (store h) s1 Hp Hcall) as [Hp1 _].
    destruct (IH (completed o s1 h)) as (before & e & c & after & h' & -> & Hb & He & Hc);
      [by destruct o | done |].
    exists (o :: before), e, c, after, h'. simpl. by rewrite Hcall.
  - pose proof Hcall as Hsame. apply call_Throw_inv in Hsame as ->.
    destruct (IH (History (store h) (inserts h) (removes h)))
      as (before & e & c & after & h' & -> & Hb & He & Hc); [done..|].
    exists (o :: before), e, c, after, h'. simpl. by rewrite Hcall.
  - destruct (call_Undefined_inv o (store h) Hp Hcall) as (e & c & -> & He & Hc).
    by exists [], e, c, ops, h.
Qed.

(** *** The claims on a single store *)

(** C1 (amended).  Take any sequence of [Insert] and [Remove] calls on a
    fresh component store, a call that throws leaving the store as it was.
    The sequence leaves no defined store only if one of its [Insert] calls,
    for an entity not yet stored, finds the store already holding
    [kMaxEntities] components, which never happens when all entity
    identifiers are below [kMaxEntities].  In every other case the occupied
    slots are exactly [0, count), where [count] is the number of completed
    inserts minus the number of completed removes, the entity-to-slot and
    slot-to-entity maps are inverse to each other, and every stored entity
    has its own slot in that range. *)
Theorem packing_invariant ops :
  (Forall (λ o, 0 ≤ op_entity o < kMaxEntities) ops → is_Some (run ops start))
  ∧ (run ops start = None →
       ∃ before e c after h,
         ops = before ++ OpInsert e c :: after
         ∧ run before start = Some h
         ∧ slot_of (store h) e = None
         ∧ count (store h) = kMaxEntities)
  ∧ (∀ h, run ops start = Some h →
       count (store h) = inserts h - removes h
       ∧ 0 ≤ count (store h) ≤ kMaxEntities
       ∧ (∀ i, occupied (store h) i ↔ 0 ≤ i < count (store h))
       ∧ (∀ e i, slot_of (store h) e = Some i ↔ entity_at (store h) i = Some e)
       ∧ (∀ e i, slot_of (store h) e = Some i → 0 ≤ i < count (store h))
       ∧ (∀ e1 e2 i, slot_of (store h) e1 = Some i →
                     slot_of (store h) e2 = Some i → e1 = e2)).
Proof.
  split; [|split].
  - intros Hops. apply run_defined; [apply packed_empty | apply ids_in_range_empty | done].
  - apply run_None_inv. apply packed_empty.
  - intros h Hrun.
    destruct (run_packed ops start h packed_empty Hrun) as [Hp Hc].
    change (count (store start)) with 0 in Hc.
    change (inserts start) with 0 in Hc. change (removes start) with 0 in Hc.
    split; [lia|]. split; [apply (packed_capacity _ Hp)|].
    split; [apply (packed_range _ Hp)|].
    split; [apply (packed_inverse _ Hp)|].
    split; [intros e i; apply (packed_slot_range _ e i Hp)|].
    intros e1 e2 i. apply (packed_slot_unique _ e1 e2 i Hp).
Qed.

(** C7.  In a packed store, removing an entity [E] that is not in the last
    slot succeeds, copies the component of the last occupied slot into the
    slot [E] had, maps the entity [L] of the last slot to that slot, and
    lowers the count by one; [Get] for [L] returns after the removal the
    value it returned before. *)
Theorem remove_relocates_last s (E L iE : Z) :
  packed s →
  slot_of s E = Some iE →
  entity_at s (count s - 1) = Some L →
  iE ≠ count s - 1 →
  ∃ s', Remove E s = Ok tt s'
    ∧ 2 ≤ count s
    ∧ cell s' iE = cell s (count s - 1)
    ∧ slot_of s' L = Some iE
    ∧ entity_at s' iE = Some L
    ∧ slot_of s' E = None
    ∧ count s' = count s - 1
    ∧ Get L s = Ok (cell s (count s - 1)) s
    ∧ Get L s' = Ok (cell s (count s - 1)) s'.
Proof.
  intros Hp HE HL Hne.
  pose proof (packed_slot_range s E iE Hp HE) as HiE.
  pose proof (packed_capacity s Hp) as Hcap.
  destruct (Remove_packed_present s E iE Hp HE) as (l & Hl & Hrun).
  assert (l = L) as -> by congruence.
  pose proof (proj2 (packed_inverse s Hp L (count s - 1)) HL) as HsL.
  assert (HEL : E ≠ L) by (intros ->; congruence).
  exists (removed s E iE L). split; [done|].
  assert (Hcell : cell (removed s E iE L) iE = cell s (count s - 1)).
  { unfold cell at 1, removed. cbn [components_]. by rewrite lookup_insert_eq. }
  assert (Hslot : slot_of (removed s E iE L) L = Some iE).
  { unfold slot_of, removed. cbn [entity_to_component_index_].
    rewrite lookup_delete_ne by done. by rewrite lookup_insert_eq. }
  split; [lia|]. split; [done|]. split; [done|].
  split.
  { unfold entity_at, removed. cbn [component_index_to_entity_].
    rewrite lookup_delete_ne by done. by rewrite lookup_insert_eq. }
  split.
  { unfold slot_of, removed. cbn [entity_to_component_index_].
    by rewrite lookup_delete_eq. }
  split; [done|].
  split.
  - apply Get_present; [done|]. unfold in_bounds. lia.
  - rewrite <- Hcell. apply Get_present; [done|]. unfold in_bounds. lia.
Qed.

End StoreProps.

(** One [Insert] too many: [kMaxEntities + 1] distinct entities, the last of
    them the identifier [kMaxEntities] itself. *)
Lemma overflow_run_undefined :
  Store.run ((λ e, Store.OpInsert e 0) <$> seqZ 0 (kMaxEntities + 1))
            (Store.start (T:=Z)) = None.
Proof.
  destruct (run_fill (T:=Z) 0 (Z.to_nat kMaxEntities)) as (h & Hrun & Hcount & Hdom).
  { rewrite Z2Nat.id; [lia | by rewrite kMaxEntities_eq]. }
  rewrite Z2Nat.id in Hrun, Hcount, Hdom by (by rewrite kMaxEntities_eq).
  rewrite seqZ_app by (rewrite ?kMaxEntities_eq; lia).
  rewrite fmap_app, run_app, Hrun.
  change (seqZ (0 + kMaxEntities) 1) with [kMaxEntities].
  cbn [mbind option_bind fmap list_fmap Store.run Store.call].
  rewrite Insert_full; [done | |].
  - apply eq_None_not_Some. rewrite Hdom. lia.
  - rewrite Hcount. unfold in_bounds. lia.
Qed.

(** C1 as stated, for every sequence of calls, fails on the sequence that
    inserts the [kMaxEntities + 1] entities [0], ..., [kMaxEntities]: the last
    [Insert] finds [next_component_index_ = kMaxEntities] and writes
    [components_[kMaxEntities]], one past the end of the array, so no store
    state is defined afterwards. *)
Lemma packing_invariant_counterexample :
  ¬ Store.leaves_packed_store (T:=Z)
      ((λ e, Store.OpInsert e 0) <$> seqZ 0 (kMaxEntities + 1)).
Proof.
  intros (h & Hrun & _). rewrite overflow_run_undefined in Hrun. discriminate.
Qed.

(** The packing property on a short sequence with a duplicate insert and a
    removal of an absent entity among its calls. *)
Lemma packing_invariant_witness :
  let ops := [Store.OpInsert 3 30; Store.OpInsert 5 50; Store.OpInsert 3 31;
              Store.OpRemove 3; Store.OpRemove 9] in
  Forall (λ o, 0 ≤ Store.op_entity o < kMaxEntities) ops
  ∧ ∃ h, Store.run ops Store.start = Some h
       ∧ Store.inserts h = 2 ∧ Store.removes h = 1
       ∧ Store.count (Store.store h) = Store.inserts h - Store.removes h
       ∧ Store.slot_of (Store.store h) 5 = Some 0.
Proof.
  intros ops.
  assert (Hops : Forall (λ o, 0 ≤ Store.op_entity o < kMaxEntities) ops).
  { unfold ops. repeat constructor; vm_compute; congruence. }
  split; [exact Hops|].
  destruct (packing_invariant (T:=Z) ops) as (Hdef & _ & Hinv).
  exists (Store.History (ComponentList.Build 1 {[0 := 50; 1 := 50]} {[5 := 0]} {[0 := 5]}) 2 1).
  assert (Hrun : Store.run ops Store.start
                 = Some (Store.History (ComponentList.Build 1 {[0 := 50; 1 := 50]} {[5 := 0]} {[0 := 5]}) 2 1)).
  { vm_compute. reflexivity. }
  split; [exact Hrun|].
  split; [reflexivity|]. split; [reflexivity|].
  split; [exact (proj1 (Hinv _ Hrun))|].
  reflexivity.
Defined.

(** Entities [1] and [2] hold [10] and [20]; removing [1] moves [2] into
    slot [0], where [Get] still finds [20]. *)
Lemma remove_relocates_last_witness :
  let s := ComponentList.Build 2 {[0 := 10; 1 := 20]} {[1 := 0; 2 := 1]}
                               {[0 := 1; 1 := 2]} in
  Store.run [Store.OpInsert 1 10; Store.OpInsert 2 20] Store.start
    = Some (Store.History s 2 0)
  ∧ ∃ s', ComponentList.Remove 1 s = Ok tt s'
        ∧ ComponentList.Get 2 s' = Ok 20 s'
        ∧ Store.slot_of s' 2 = Some 0.
Proof.
  intros s.
  assert (Hrun : Store.run [Store.OpInsert 1 10; Store.OpInsert 2 20] Store.start
                 = Some (Store.History s 2 0)).
  { vm_compute. reflexivity. }
  split; [exact Hrun|].
  assert (Hp : Store.packed s).
  { exact (proj1 (run_packed _ Store.start _ packed_empty Hrun)). }
  destruct (remove_relocates_last (T:=Z) s 1 2 0 Hp)
    as (s' & Hrem & _ & _ & Hslot & _ & _ & _ & _ & Hget).
  - reflexivity.
  - reflexivity.
  - vm_compute. congruence.
  - exists s'. split; [exact Hrem|]. split; [exact Hget|]. exact Hslot.
Defined.


(** ** Monadic plumbing *)

Section Plumbing.
Context {St Sub A B : Type}.
Implicit Types (m : M St A) (k : A → M St B).

Lemma bind_Ok_inv m k s b s' :
  bind m k s = Ok b s' → ∃ a s1, m s = Ok a s1 ∧ k a s1 = Ok b s'.
Proof. unfold bind. destruct (m s) as [a s1|e s1|]; [|done..]. by exists a, s1. Qed.

Lemma bind_Throw_inv m k s e s' :
  bind m k s = Throw e s' →
  m s = Throw e s' ∨ ∃ a s1, m s = Ok a s1 ∧ k a s1 = Throw e s'.
Proof.
  unfold bind. destruct (m s) as [a s1|e1 s1|]; [| |done].
  - right. by exists a, s1.
  - left. by simplify_eq.
Qed.

Lemma bind_Ok m k s a s1 : m s = Ok a s1 → bind m k s = k a s1.
Proof. unfold bind. by intros ->. Qed.

Lemma bind_Throw m k s e s1 : m s = Throw e s1 → bind m k s = Throw e s1.
Proof. unfold bind. by intros ->. Qed.

Lemma within_Ok_inv (proj : St → Sub) upd (m : M Sub A) s a s' :
  within proj upd m s = Ok a s' →
  ∃ sub, m (proj s) = Ok a sub ∧ s' = upd sub s.
Proof.
  unfold within. destruct (m (proj s)) as [a1 sub|e sub|]; [|done..].
  intros. simplify_eq. by exists sub.
Qed.

Lemma within_Throw_inv (proj : St → Sub) upd (m : M Sub A) s e s' :
  within proj upd m s = Throw e s' →
  ∃ sub, m (proj s) = Throw e sub ∧ s' = upd sub s.
Proof.
  unfold within. destruct (m (proj s)) as [a1 sub|e1 sub|]; [done| |done].
  intros. simplify_eq. by exists sub.
Qed.

End Plumbing.

(** ** The entity manager *)

Lemma pushed_from_seqZ (fuel : nat) (entity : Z) :
  entity + Z.of_nat fuel = kMaxEntities →
  EntityManager.pushed_from fuel entity = seqZ entity (Z.of_nat fuel).
Proof.
  revert entity. induction fuel as [|fuel IH]; intros entity Hsum.
  { by rewrite seqZ_nil. }
  cbn [EntityManager.pushed_from]. rewrite decide_True by lia.
  rewrite seqZ_cons by lia. f_equal.
  rewrite IH by lia. f_equal; lia.
Qed.

Lemma new_pool :
  EntityManager.available_entities_ EntityManager.new = seqZ 0 kMaxEntities.
Proof.
  unfold EntityManager.new. cbn [EntityManager.available_entities_].
  rewrite pushed_from_seqZ; rewrite Z2Nat.id; rewrite ?kMaxEntities_eq; done.
Qed.

Lemma CreateEntity_pool em entity rest :
  EntityManager.available_entities_ em = entity :: rest →
  EntityManager.CreateEntity em
    = Ok entity (EntityManager.Build rest (EntityManager.entity_signatures_ em)).
Proof. intros Hq. unfold EntityManager.CreateEntity. run_monad. by rewrite Hq. Qed.

Lemma CreateEntity_empty em :
  EntityManager.available_entities_ em = [] →
  EntityManager.CreateEntity em = Throw CapacityExceeded em.
Proof. intros Hq. unfold EntityManager.CreateEntity. run_monad. by rewrite Hq. Qed.

Lemma DestroyEntity_out_of_range em entity :
  kMaxEntities ≤ entity →
  EntityManager.DestroyEntity entity em = Throw OutOfRange em.
Proof.
  intros He. unfold EntityManager.DestroyEntity, EntityManager.CheckEntityOutOfBound.
  run_monad. by rewrite decide_True.
Qed.

Lemma DestroyEntity_in_range em entity :
  0 ≤ entity < kMaxEntities →
  EntityManager.DestroyEntity entity em = Ok tt (Lifetime.destroyed entity em).
Proof.
  intros He. unfold EntityManager.DestroyEntity, EntityManager.CheckEntityOutOfBound,
    array_write, in_bounds.
  run_monad. rewrite decide_False by lia. simpl. by rewrite decide_True.
Qed.

Lemma GetSignature_in_range em entity :
  0 ≤ entity < kMaxEntities →
  EntityManager.GetSignature entity em
    = Ok (default 0 (EntityManager.entity_signatures_ em !! entity)) em.
Proof.
  intros He. unfold EntityManager.GetSignature, EntityManager.CheckEntityOutOfBound,
    array_read, in_bounds.
  run_monad. rewrite decide_False by lia. simpl. by rewrite decide_True.
Qed.

Lemma GetSignature_out_of_range em entity :
  kMaxEntities ≤ entity →
  EntityManager.GetSignature entity em = Throw OutOfRange em.
Proof.
  intros He. unfold EntityManager.GetSignature, EntityManager.CheckEntityOutOfBound.
  run_monad. by rewrite decide_True.
Qed.

Lemma SetSignature_in_range em entity signature :
  0 ≤ entity < kMaxEntities →
  EntityManager.SetSignature entity signature em
    = Ok tt (EntityManager.Build (EntityManager.available_entities_ em)
               (<[entity := signature]> (EntityManager.entity_signatures_ em))).
Proof.
  intros He. unfold EntityManager.SetSignature, EntityManager.CheckEntityOutOfBound,
    array_write, in_bounds.
  run_monad. rewrite decide_False by lia. simpl. by rewrite decide_True.
Qed.

Lemma SetSignature_out_of_range em entity signature :
  kMaxEntities ≤ entity →
  EntityManager.SetSignature entity signature em = Throw OutOfRange em.
Proof.
  intros He. unfold EntityManager.SetSignature, EntityManager.CheckEntityOutOfBound.
  run_monad. by rewrite decide_True.
Qed.

Section Capacity.
Context {V : Type} `{Inhabited V}.

Lemma Engine_CreateEntity_pool (eng : Engine.t V) entity rest :
  EntityManager.available_entities_ (Engine.entity_manager_ eng) = entity :: rest →
  Engine.CreateEntity eng
    = Ok entity
        (Engine.Build
           (EntityManager.Build rest
              (EntityManager.entity_signatures_ (Engine.entity_manager_ eng)))
           (Engine.component_manager_ eng) (Engine.system_manager_ eng)).
Proof.
  intros Hq. unfold Engine.CreateEntity, Engine.entities, within.
  by rewrite (CreateEntity_pool _ entity rest Hq).
Qed.

Lemma Engine_CreateEntity_empty (eng : Engine.t V) :
  EntityManager.available_entities_ (Engine.entity_manager_ eng) = [] →
  Engine.CreateEntity eng = Throw CapacityExceeded eng.
Proof.
  intros Hq. unfold Engine.CreateEntity, Engine.entities, within.
  rewrite (CreateEntity_empty _ Hq). by destruct eng as [[] ? ?].
Qed.

(** [n] creations on a pool holding the run [first, first + 1, ...]. *)
Lemma create_many_seqZ (n : nat) : ∀ (eng : Engine.t V) first len,
  EntityManager.available_entities_ (Engine.entity_manager_ eng) = seqZ first len →
  Z.of_nat n ≤ len →
  create_many n eng
    = Ok (seqZ first (Z.of_nat n))
        (Engine.Build
           (EntityManager.Build (seqZ (first + Z.of_nat n) (len - Z.of_nat n))
              (EntityManager.entity_signatures_ (Engine.entity_manager_ eng)))
           (Engine.component_manager_ eng) (Engine.system_manager_ eng)).
Proof.
  induction n as [|n IH]; intros eng first len Hq Hn.
  { cbn [create_many]. unfold ret. rewrite Z.add_0_r, Z.sub_0_r, <- Hq.
    by destruct eng as [[] ? ?]. }
  cbn [create_many]. rewrite seqZ_cons in Hq by lia.
  rewrite (bind_Ok _ _ _ _ _ (Engine_CreateEntity_pool eng _ _ Hq)).
  erewrite bind_Ok;
    [|apply (IH _ (Z.succ first) (Z.pred len)); [reflexivity | lia]].
  unfold ret. cbn [Engine.entity_manager_ Engine.component_manager_
                   Engine.system_manager_ EntityManager.entity_signatures_].
  rewrite (seqZ_cons first (Z.of_nat (S n))) by lia.
  replace (Z.pred (Z.of_nat (S n))) with (Z.of_nat n) by lia.
  replace (first + Z.of_nat (S n)) with (Z.succ first + Z.of_nat n) by lia.
  by replace (len - Z.of_nat (S n)) with (Z.pred len - Z.of_nat n) by lia.
Qed.

(** C6.  On the engine as constructed, [kMaxEntities] calls of [CreateEntity]
    in a row all succeed (they return [0], [1], ..., [kMaxEntities - 1]), each
    call before the last of them is followed by one that succeeds too, and
    the call after them, the [(kMaxEntities + 1)]-th, throws the
    capacity error and changes nothing. *)
Theorem capacity_boundary :
  ∃ full : Engine.t V,
    create_many (Z.to_nat kMaxEntities) Engine.new = Ok (seqZ 0 kMaxEntities) full
    ∧ Engine.CreateEntity full = Throw CapacityExceeded full
    ∧ ∀ n : nat, Z.of_nat n < kMaxEntities →
        ∃ eng eng' : Engine.t V,
          create_many n Engine.new = Ok (seqZ 0 (Z.of_nat n)) eng
          ∧ Engine.CreateEntity eng = Ok (Z.of_nat n) eng'.
Proof.
  pose proof new_pool as Hpool.
  assert (Hk : Z.of_nat (Z.to_nat kMaxEntities) = kMaxEntities).
  { apply Z2Nat.id. by rewrite kMaxEntities_eq. }
  eexists. split; [|split].
  - rewrite (create_many_seqZ _ Engine.new 0 kMaxEntities Hpool) by lia.
    rewrite Hk. reflexivity.
  - apply Engine_CreateEntity_empty.
    cbn [Engine.entity_manager_ EntityManager.available_entities_].
    apply seqZ_nil. lia.
  - intros n Hn. eexists. eexists. split.
    + by rewrite (create_many_seqZ _ Engine.new 0 kMaxEntities Hpool) by lia.
    + rewrite Z.add_0_l.
      erewrite Engine_CreateEntity_pool; [reflexivity|].
      cbn [Engine.entity_manager_ EntityManager.available_entities_].
      apply seqZ_cons. lia.
Qed.

End Capacity.

(** ** Entity lifetimes *)

Lemma new_pool_in_range : Lifetime.pool_in_range EntityManager.new.
Proof.
  unfold Lifetime.pool_in_range. rewrite new_pool.
  apply Forall_seqZ. intros e. lia.
Qed.

Lemma step_in_range o t t' :
  Lifetime.pool_in_range (Lifetime.manager t) →
  (∀ e, e ∈ Lifetime.live t → 0 ≤ e < kMaxEntities) →
  Lifetime.step o t = Some t' →
  Lifetime.pool_in_range (Lifetime.manager t')
  ∧ (∀ e, e ∈ Lifetime.live t' → 0 ≤ e < kMaxEntities).
Proof.
  intros Hpool Hlive. destruct o as [|e|e sig]; cbn [Lifetime.step].
  - destruct (EntityManager.available_entities_ (Lifetime.manager t))
      as [|e rest] eqn:Hq.
    + rewrite (CreateEntity_empty _ Hq). intros; by simplify_eq.
    + rewrite (CreateEntity_pool _ e rest Hq). intros; simplify_eq.
      unfold Lifetime.pool_in_range in *. rewrite Hq in Hpool.
      apply Forall_cons in Hpool as [He Hrest].
      cbn [Lifetime.manager Lifetime.live EntityManager.available_entities_].
      split; [done|]. intros e'. rewrite elem_of_union, elem_of_singleton.
      intros [?| ->]; [by apply Hlive | done].
  - destruct (decide (kMaxEntities ≤ e)) as [Hge|Hlt].
    { rewrite DestroyEntity_out_of_range by done. intros; by simplify_eq. }
    destruct (decide (0 ≤ e)) as [Hnn|Hneg].
    + rewrite DestroyEntity_in_range by lia. intros; simplify_eq.
      cbn [Lifetime.manager Lifetime.live]. split.
      * unfold Lifetime.pool_in_range, Lifetime.destroyed in *.
        cbn [EntityManager.available_entities_].
        apply Forall_app. split; [done|]. apply Forall_singleton. lia.
      * intros e'. rewrite elem_of_difference. intros [? _]. by apply Hlive.
    + unfold EntityManager.DestroyEntity, EntityManager.CheckEntityOutOfBound,
        array_write, in_bounds.
      run_monad. rewrite decide_False by lia. simpl.
      rewrite decide_False by lia. done.
  - unfold EntityManager.SetSignature, EntityManager.CheckEntityOutOfBound,
      array_write.
    run_monad. repeat (case_decide; simpl); intros; by simplify_eq.
Qed.

Lemma run_in_range ops : ∀ t t',
  Lifetime.pool_in_range (Lifetime.manager t) →
  (∀ e, e ∈ Lifetime.live t → 0 ≤ e < kMaxEntities) →
  Lifetime.run ops t = Some t' →
  ∀ e, e ∈ Lifetime.live t' → 0 ≤ e < kMaxEntities.
Proof.
  induction ops as [|o ops IH]; intros t t' Hpool Hlive Hrun; simpl in Hrun.
  { by simplify_eq. }
  destruct (Lifetime.step o t) as [t1|] eqn:Hstep; [|done]. simpl in Hrun.
  destruct (step_in_range o t t1 Hpool Hlive Hstep) as [Hpool1 Hlive1].
  by apply (IH t1 t').
Qed.

(** C4 (amended).  In every state the entity manager reaches from its
    construction, [DestroyEntity] fails with the out-of-range error exactly
    when the identifier is [kMaxEntities] or more, and then changes nothing.
    For every identifier below [kMaxEntities], whether or not it is checked
    out, it succeeds, resets that identifier's signature to empty and puts the
    identifier at the back of the pool.  Every identifier that is checked out
    is below [kMaxEntities], so destroying it succeeds. *)
Theorem DestroyEntity_checks_range_only ops t (entity : Z) :
  Lifetime.run ops Lifetime.fresh = Some t →
  0 ≤ entity →
  let em := Lifetime.manager t in
  (kMaxEntities ≤ entity →
     EntityManager.DestroyEntity entity em = Throw OutOfRange em)
  ∧ (entity < kMaxEntities →
       EntityManager.DestroyEntity entity em = Ok tt (Lifetime.destroyed entity em)
       ∧ EntityManager.GetSignature entity (Lifetime.destroyed entity em)
           = Ok 0 (Lifetime.destroyed entity em)
       ∧ EntityManager.available_entities_ (Lifetime.destroyed entity em)
           = EntityManager.available_entities_ em ++ [entity])
  ∧ (entity ∈ Lifetime.live t → entity < kMaxEntities).
Proof.
  intros Hrun Hnn em. split; [|split].
  - intros Hge. by apply DestroyEntity_out_of_range.
  - intros Hlt. split; [by apply DestroyEntity_in_range|]. split; [|done].
    rewrite GetSignature_in_range by done.
    unfold Lifetime.destroyed. cbn [EntityManager.entity_signatures_].
    by rewrite lookup_insert_eq.
  - intros Hlive.
    apply (run_in_range ops Lifetime.fresh t new_pool_in_range) in Hlive;
      [lia | | done].
    intros e He. cbn [Lifetime.fresh Lifetime.live] in He. set_solver.
Qed.

(** C4 as stated fails on the manager as constructed: the identifier [7] has
    never been returned by [CreateEntity], yet [DestroyEntity 7] does not
    throw; it succeeds and appends [7] to a pool that still holds [7]. *)
Lemma destroy_never_issued_counterexample :
  (7 ∉ Lifetime.issued Lifetime.fresh)
  ∧ (7 ∈ EntityManager.available_entities_ (Lifetime.manager Lifetime.fresh))
  ∧ (EntityManager.DestroyEntity 7 (Lifetime.manager Lifetime.fresh)
       = Ok tt (Lifetime.destroyed 7 (Lifetime.manager Lifetime.fresh)))
  ∧ (EntityManager.DestroyEntity 7 (Lifetime.manager Lifetime.fresh)
       ≠ Throw OutOfRange (Lifetime.manager Lifetime.fresh)).
Proof.
  assert (Hin : 0 ≤ 7 < kMaxEntities) by (by rewrite kMaxEntities_eq).
  split; [cbn [Lifetime.fresh Lifetime.issued]; set_solver|].
  split.
  { cbn [Lifetime.fresh Lifetime.manager]. rewrite new_pool.
    apply elem_of_seqZ. lia. }
  rewrite DestroyEntity_in_range by done. done.
Qed.

(** After two creations the entity [1] is checked out and can be destroyed. *)
Lemma DestroyEntity_checks_range_only_witness :
  ∃ t, Lifetime.run [Lifetime.OpCreate; Lifetime.OpCreate] Lifetime.fresh = Some t
     ∧ 1 ∈ Lifetime.live t
     ∧ EntityManager.DestroyEntity 1 (Lifetime.manager t)
         = Ok tt (Lifetime.destroyed 1 (Lifetime.manager t)).
Proof.
  assert (Hq : ∃ rest, EntityManager.available_entities_ EntityManager.new
                       = 0 :: 1 :: rest).
  { rewrite new_pool. exists (seqZ 2 (kMaxEntities - 2)).
    rewrite seqZ_cons by (by rewrite kMaxEntities_eq).
    rewrite seqZ_cons by (by rewrite kMaxEntities_eq).
    repeat f_equal. }
  destruct Hq as [rest Hq].
  assert (Hrun : ∃ t, Lifetime.run [Lifetime.OpCreate; Lifetime.OpCreate]
                        Lifetime.fresh = Some t ∧ 1 ∈ Lifetime.live t).
  { eexists. split.
    - cbn [Lifetime.run Lifetime.step Lifetime.fresh Lifetime.manager].
      rewrite (CreateEntity_pool _ 0 (1 :: rest) Hq).
      cbn [mbind option_bind Lifetime.run Lifetime.step Lifetime.manager].
      erewrite CreateEntity_pool; [|reflexivity].
      reflexivity.
    - cbn [Lifetime.live Lifetime.issued Lifetime.fresh]. set_solver. }
  destruct Hrun as (t & Hrun & Hlive).
  exists t. split; [exact Hrun|]. split; [exact Hlive|].
  apply (DestroyEntity_checks_range_only
           [Lifetime.OpCreate; Lifetime.OpCreate] t 1 Hrun).
  - lia.
  - by rewrite kMaxEntities_eq.
Defined.


(** ** The component manager *)

Section ComponentManagerProps.
Context {V : Type} `{Inhabited V}.
Implicit Types (cm : ComponentManager.t V) (T : TypeName).

Lemma RegisterComponent_fresh cm T :
  ComponentManager.component_types_ cm !! T = None →
  ComponentManager.RegisterComponent T cm
    = Ok tt (ComponentManager.Build
               (<[T := ComponentManager.next_component_type_ cm]>
                  (ComponentManager.component_types_ cm))
               (<[T := ComponentList.empty]> (ComponentManager.component_lists_ cm))
               (wrap_uint16 (ComponentManager.next_component_type_ cm + 1))).
Proof.
  intros HT. unfold ComponentManager.RegisterComponent. run_monad.
  rewrite bool_decide_eq_false_2; [done|]. rewrite HT. by intros [? ?].
Qed.

Lemma RegisterComponent_known cm T :
  is_Some (ComponentManager.component_types_ cm !! T) →
  ComponentManager.RegisterComponent T cm = Ok tt cm.
Proof.
  intros HT. unfold ComponentManager.RegisterComponent. run_monad.
  by rewrite bool_decide_eq_true_2.
Qed.

Lemma RegisterComponent_total cm T :
  ∃ cm', ComponentManager.RegisterComponent T cm = Ok tt cm'.
Proof.
  destruct (ComponentManager.component_types_ cm !! T) as [c|] eqn:HT.
  - exists cm. apply RegisterComponent_known. by exists c.
  - eexists. by apply RegisterComponent_fresh.
Qed.

Lemma GetComponentType_unregistered cm T :
  ComponentManager.component_types_ cm !! T = None →
  ComponentManager.GetComponentType T cm = Throw UnregisteredType cm.
Proof. intros HT. unfold ComponentManager.GetComponentType. run_monad. by rewrite HT. Qed.

Lemma GetComponentType_registered cm T c :
  ComponentManager.component_types_ cm !! T = Some c →
  ComponentManager.GetComponentType T cm = Ok c cm.
Proof. intros HT. unfold ComponentManager.GetComponentType. run_monad. by rewrite HT. Qed.

(** C10.  For a component type that is not registered, [HasComponent] does
    not answer [false]: whatever the entity, it throws the unregistered-type
    error of [GetComponentType], which it calls before it looks at the
    entity's signature, and leaves the engine as it was. *)
Theorem HasComponent_unregistered (eng : Engine.t V) T (entity : Z) :
  ComponentManager.component_types_ (Engine.component_manager_ eng) !! T = None →
  Engine.HasComponent T entity eng = Throw UnregisteredType eng.
Proof.
  intros HT. unfold Engine.HasComponent, Engine.components.
  unfold bind at 1. unfold within.
  rewrite (GetComponentType_unregistered _ T HT). by destruct eng.
Qed.

End ComponentManagerProps.

(** No type is registered in the engine as constructed. *)
Lemma HasComponent_unregistered_witness :
  Engine.HasComponent 1%positive 0 (Engine.new (V:=Z))
    = Throw UnregisteredType Engine.new.
Proof. apply (HasComponent_unregistered (V:=Z) Engine.new 1%positive 0). reflexivity. Defined.

(** C5, evaluated where the code departs from it: [RegisterComponent] never
    refuses a type, so registering the 65 distinct types [1], ..., [65] on a
    fresh component manager succeeds, and the 65th receives the identifier
    [64], which is not a bit index of a [Signature]. *)
Theorem sixty_fifth_type_registers :
  (∀ (cm : ComponentManager.t Z) T,
     ∃ cm', ComponentManager.RegisterComponent T cm = Ok tt cm')
  ∧ ∃ cm : ComponentManager.t Z,
      register_all (Pos.of_nat <$> seq 1 65) ComponentManager.new = Ok tt cm
      ∧ size (ComponentManager.component_types_ cm) = 65%nat
      ∧ ComponentManager.component_types_ cm !! 65%positive = Some 64
      ∧ ¬ (0 ≤ 64 < kMaxComponents).
Proof.
  split; [apply RegisterComponent_total|].
  eexists. split; [vm_compute; reflexivity|].
  split; [vm_compute; reflexivity|].
  split; [vm_compute; reflexivity|].
  unfold kMaxComponents. lia.
Qed.


(** ** The system manager *)

Section SystemManagerProps.
Implicit Types (sm : SystemManager.t) (T : TypeName) (e : Z).

Lemma SystemManager_eq sm sm' :
  SystemManager.systems_ sm = SystemManager.systems_ sm' →
  SystemManager.system_signatures_ sm = SystemManager.system_signatures_ sm' →
  sm = sm'.
Proof. destruct sm, sm'; simpl; congruence. Qed.

Lemma erase_from_eq e T system sm :
  SystemManager.erase_from e T system sm
    = Ok tt (SystemManager.set_system T (system ∖ {[e]}) sm).
Proof. reflexivity. Qed.

Lemma match_signature_eq e sig T system sm :
  SystemManager.match_signature e sig T system sm
    = Ok tt (SystemManager.Build
               (<[T := admitted e sig (required sm T) system]>
                  (SystemManager.systems_ sm))
               (<[T := required sm T]> (SystemManager.system_signatures_ sm))).
Proof.
  unfold SystemManager.match_signature, map_subscript, required, admitted.
  run_monad.
  destruct (SystemManager.system_signatures_ sm !! T) as [ssig|] eqn:Hs; simpl.
  - rewrite (insert_id _ _ _ Hs). by case_decide.
  - by case_decide.
Qed.

Lemma erase_loop e (l : list (positive * gset Z)) :
  NoDup l.*1 → ∀ sm,
  ∃ sm', for_each l (SystemManager.erase_from e) sm = Ok tt sm'
    ∧ SystemManager.system_signatures_ sm' = SystemManager.system_signatures_ sm
    ∧ ∀ T, SystemManager.systems_ sm' !! T
           = match (list_to_map l : gmap positive (gset Z)) !! T with
             | Some system => Some (system ∖ {[e]})
             | None => SystemManager.systems_ sm !! T
             end.
Proof.
  induction l as [|[k a] l IH]; intros Hnd sm.
  { exists sm. split; [done|]. split; [done|]. intros T.
    cbn [list_to_map foldr]. by rewrite lookup_empty. }
  apply NoDup_cons in Hnd as [Hk Hnd].
  destruct (IH Hnd (SystemManager.set_system k (a ∖ {[e]}) sm))
    as (sm' & Hrun & Hsig & Hsys).
  exists sm'. split; [|split].
  - cbn [for_each]. by rewrite (bind_Ok _ _ _ _ _ (erase_from_eq e k a sm)).
  - by rewrite Hsig.
  - intros T. rewrite Hsys. cbn [list_to_map foldr curry fst snd].
    destruct (decide (k = T)) as [<-|Hne].
    + rewrite lookup_insert_eq, (not_elem_of_list_to_map_1 _ _ Hk).
      unfold SystemManager.set_system. cbn [SystemManager.systems_].
      by rewrite lookup_insert_eq.
    + rewrite (lookup_insert_ne _ _ _ _ Hne).
      unfold SystemManager.set_system. cbn [SystemManager.systems_].
      by rewrite (lookup_insert_ne _ _ _ _ Hne).
Qed.

Lemma EntityWasDestroyed_systems e sm :
  ∃ sm', SystemManager.EntityWasDestroyed e sm = Ok tt sm'
    ∧ SystemManager.system_signatures_ sm' = SystemManager.system_signatures_ sm
    ∧ ∀ T, SystemManager.systems_ sm' !! T
           = (λ system, system ∖ {[e]}) <$> SystemManager.systems_ sm !! T.
Proof.
  destruct (erase_loop e (map_to_list (SystemManager.systems_ sm))
              (NoDup_fst_map_to_list _) sm) as (sm' & Hrun & Hsig & Hsys).
  exists sm'. split; [done|]. split; [done|].
  intros T. rewrite Hsys, list_to_map_to_list.
  by destruct (SystemManager.systems_ sm !! T).
Qed.

Lemma match_loop e sig (l : list (positive * gset Z)) :
  NoDup l.*1 → ∀ sm,
  ∃ sm', for_each l (SystemManager.match_signature e sig) sm = Ok tt sm'
    ∧ (∀ T, SystemManager.systems_ sm' !! T
            = match (list_to_map l : gmap positive (gset Z)) !! T with
              | Some system => Some (admitted e sig (required sm T) system)
              | None => SystemManager.systems_ sm !! T
              end)
    ∧ (∀ T, SystemManager.system_signatures_ sm' !! T
            = match (list_to_map l : gmap positive (gset Z)) !! T with
              | Some _ => Some (required sm T)
              | None => SystemManager.system_signatures_ sm !! T
              end).
Proof.
  induction l as [|[k a] l IH]; intros Hnd sm.
  { exists sm. split; [done|].
    split; intros T; cbn [list_to_map foldr]; by rewrite lookup_empty. }
  apply NoDup_cons in Hnd as [Hk Hnd].
  destruct (IH Hnd (SystemManager.Build
                      (<[k := admitted e sig (required sm k) a]>
                         (SystemManager.systems_ sm))
                      (<[k := required sm k]> (SystemManager.system_signatures_ sm))))
    as (sm' & Hrun & Hsys & Hsig).
  exists sm'. split; [|split].
  - cbn [for_each]. by rewrite (bind_Ok _ _ _ _ _ (match_signature_eq e sig k a sm)).
  - intros T. rewrite Hsys. cbn [list_to_map foldr curry fst snd].
    destruct (decide (k = T)) as [<-|Hne].
    + rewrite lookup_insert_eq, (not_elem_of_list_to_map_1 _ _ Hk).
      cbn [SystemManager.systems_]. by rewrite lookup_insert_eq.
    + rewrite (lookup_insert_ne _ _ _ _ Hne).
      unfold required. cbn [SystemManager.systems_ SystemManager.system_signatures_].
      by rewrite !(lookup_insert_ne _ _ _ _ Hne).
  - intros T. rewrite Hsig. cbn [list_to_map foldr curry fst snd].
    destruct (decide (k = T)) as [<-|Hne].
    + rewrite lookup_insert_eq, (not_elem_of_list_to_map_1 _ _ Hk).
      cbn [SystemManager.system_signatures_]. by rewrite lookup_insert_eq.
    + rewrite (lookup_insert_ne _ _ _ _ Hne).
      unfold required. cbn [SystemManager.system_signatures_].
      by rewrite !(lookup_insert_ne _ _ _ _ Hne).
Qed.

Lemma EntitySignatureChanged_systems e sig sm :
  ∃ sm', SystemManager.EntitySignatureChanged e sig sm = Ok tt sm'
    ∧ (∀ T, SystemManager.systems_ sm' !! T
            = admitted e sig (required sm T) <$> SystemManager.systems_ sm !! T)
    ∧ (∀ T, is_Some (SystemManager.systems_ sm !! T) →
            SystemManager.system_signatures_ sm' !! T = Some (required sm T))
    ∧ (∀ T, required sm' T = required sm T).
Proof.
  destruct (match_loop e sig (map_to_list (SystemManager.systems_ sm))
              (NoDup_fst_map_to_list _) sm) as (sm' & Hrun & Hsys & Hsig).
  exists sm'. split; [done|].
  setoid_rewrite list_to_map_to_list in Hsys.
  setoid_rewrite list_to_map_to_list in Hsig.
  split; [|split].
  - intros T. rewrite Hsys. by destruct (SystemManager.systems_ sm !! T).
  - intros T [system HT]. by rewrite Hsig, HT.
  - intros T. unfold required at 1. rewrite Hsig.
    by destruct (SystemManager.systems_ sm !! T).
Qed.

Lemma elem_of_admitted e e' esig ssig (system : gset Z) :
  e ∈ admitted e' esig ssig system
  ↔ if decide (e = e') then Z.land esig ssig = ssig else e ∈ system.
Proof.
  unfold admitted.
  destruct (decide (Z.land esig ssig = ssig)); destruct (decide (e = e'));
    rewrite ?elem_of_union, ?elem_of_difference, ?elem_of_singleton; tauto.
Qed.

End SystemManagerProps.

Lemma member_systems sm sm' T e :
  SystemManager.systems_ sm' !! T = SystemManager.systems_ sm !! T →
  member sm' T e ↔ member sm T e.
Proof. unfold member. by intros ->. Qed.

(** C9.  For a registered system type, [SetSystemSignature] succeeds, records
    the signature, and leaves every system's entity set as it was, whether or
    not its entities are compatible with the new signature.  From then on a
    signature-change or destruction broadcast for another entity does not
    change whether a given entity is in a given system's set: only a
    broadcast for that entity can. *)
Theorem SetSystemSignature_keeps_entities (sm : SystemManager.t) (T : TypeName)
    (signature : Z) :
  is_Some (SystemManager.systems_ sm !! T) →
  let sm1 := SystemManager.Build (SystemManager.systems_ sm)
               (<[T := signature]> (SystemManager.system_signatures_ sm)) in
  SystemManager.SetSystemSignature T signature sm = Ok tt sm1
  ∧ SystemManager.systems_ sm1 = SystemManager.systems_ sm
  ∧ required sm1 T = signature
  ∧ (∀ e e' sig' sm2, e' ≠ e →
       SystemManager.EntitySignatureChanged e' sig' sm1 = Ok tt sm2 →
       ∀ S, member sm2 S e ↔ member sm S e)
  ∧ (∀ e e' sm2, e' ≠ e →
       SystemManager.EntityWasDestroyed e' sm1 = Ok tt sm2 →
       ∀ S, member sm2 S e ↔ member sm S e).
Proof.
  intros HT sm1. split; [|split; [done|split; [|split]]].
  - unfold SystemManager.SetSystemSignature. run_monad.
    by rewrite bool_decide_eq_true_2.
  - unfold required, sm1. cbn [SystemManager.system_signatures_].
    by rewrite lookup_insert_eq.
  - intros e e' sig' sm2 Hne Hrun S.
    destruct (EntitySignatureChanged_systems e' sig' sm1) as (sm' & Hrun' & Hsys & _).
    rewrite Hrun' in Hrun. simplify_eq. unfold member. rewrite Hsys.
    cbn [sm1 SystemManager.systems_].
    destruct (SystemManager.systems_ sm !! S) as [system|]; simpl.
    + split; intros (x & Hx & Hin); simplify_eq.
      * exists system. split; [done|].
        apply elem_of_admitted in Hin. by rewrite decide_False in Hin.
      * eexists. split; [done|].
        apply elem_of_admitted. by rewrite decide_False.
    + split; intros (x & Hx & _); done.
  - intros e e' sm2 Hne Hrun S.
    destruct (EntityWasDestroyed_systems e' sm1) as (sm' & Hrun' & _ & Hsys).
    rewrite Hrun' in Hrun. simplify_eq. unfold member. rewrite Hsys.
    cbn [sm1 SystemManager.systems_].
    destruct (SystemManager.systems_ sm !! S) as [system|]; simpl.
    + split; intros (x & Hx & Hin); simplify_eq.
      * exists system. split; [done|].
        apply elem_of_difference in Hin. tauto.
      * eexists. split; [done|].
        apply elem_of_difference. rewrite elem_of_singleton. split; [done|congruence].
    + split; intros (x & Hx & _); done.
Qed.

(** A system holding the entity [5] keeps it when it is given a signature
    that requires component type [0]. *)
Lemma SetSystemSignature_keeps_entities_witness :
  let sm := SystemManager.Build {[1%positive := {[5]}]} ∅ in
  SystemManager.SetSystemSignature 1%positive 1 sm
    = Ok tt (SystemManager.Build {[1%positive := {[5]}]} {[1%positive := 1]})
  ∧ member (SystemManager.Build {[1%positive := {[5]}]} {[1%positive := 1]})
           1%positive 5.
Proof.
  intros sm.
  assert (HT : is_Some (SystemManager.systems_ sm !! 1%positive)).
  { exists {[5]}. reflexivity. }
  destruct (SetSystemSignature_keeps_entities sm 1%positive 1 HT) as (Hrun & _).
  split; [exact Hrun|].
  exists {[5]}. split; [reflexivity|]. by apply elem_of_singleton.
Defined.

(** ** Destruction broadcasts *)

Section Broadcast.
Context {V : Type} `{Inhabited V}.
Implicit Types (l : ComponentList.t V) (cm : ComponentManager.t V).

Lemma store_EntityWasDestroyed_absent l e :
  Store.slot_of l e = None → ComponentList.EntityWasDestroyed e l = Ok tt l.
Proof.
  intros He. unfold ComponentList.EntityWasDestroyed. run_monad.
  by rewrite contains_false.
Qed.

Lemma store_EntityWasDestroyed_no_throw l e err l' :
  ComponentList.EntityWasDestroyed e l ≠ Throw err l'.
Proof.
  unfold ComponentList.EntityWasDestroyed. run_monad.
  destruct (ComponentList.contains l e) eqn:Hc; [|done].
  unfold ComponentList.Remove, array_read, array_write. run_monad. rewrite Hc. simpl.
  destruct (map_subscript 0 (ComponentList.entity_to_component_index_ l) e) as [i e2i].
  repeat (case_decide; simpl; try done).
  by destruct (map_subscript 0 (ComponentList.component_index_to_entity_ l) _).
Qed.

Lemma set_list_id cm T l :
  ComponentManager.component_lists_ cm !! T = Some l →
  ComponentManager.set_list T l cm = cm.
Proof.
  intros HT. unfold ComponentManager.set_list. rewrite (insert_id _ _ _ HT).
  by destruct cm.
Qed.

Lemma for_each_no_throw {St K A} (body : K → A → M St unit) :
  (∀ k a s err s', body k a s ≠ Throw err s') →
  ∀ entries s err s', for_each entries body s ≠ Throw err s'.
Proof.
  intros Hbody entries. induction entries as [|[k a] entries IH]; intros s err s'.
  { done. }
  cbn [for_each]. intros Hrun. apply bind_Throw_inv in Hrun as [Hrun|(? & s1 & _ & Hrun)].
  - by apply Hbody in Hrun.
  - by apply IH in Hrun.
Qed.

Lemma manager_EntityWasDestroyed_no_throw cm e err cm' :
  ComponentManager.EntityWasDestroyed e cm ≠ Throw err cm'.
Proof.
  unfold ComponentManager.EntityWasDestroyed. unfold bind at 1. unfold get.
  apply for_each_no_throw. intros T l s err1 s1 Hrun.
  unfold ComponentManager.notify_list in Hrun.
  apply within_Throw_inv in Hrun as (sub & Hrun & _).
  by apply store_EntityWasDestroyed_no_throw in Hrun.
Qed.

Lemma notify_loop_absent e (entries : list (positive * ComponentList.t V)) cm :
  (∀ T l, (T, l) ∈ entries →
     ComponentManager.component_lists_ cm !! T = Some l ∧ Store.slot_of l e = None) →
  for_each entries (ComponentManager.notify_list e) cm = Ok tt cm.
Proof.
  induction entries as [|[T l] entries IH]; intros Hall; [done|].
  destruct (Hall T l) as [HT He]; [left|].
  cbn [for_each]. erewrite bind_Ok.
  - apply IH. intros T' l' Hin. apply Hall. by right.
  - unfold ComponentManager.notify_list, within.
    rewrite (store_EntityWasDestroyed_absent l e He).
    by rewrite (set_list_id cm T l HT).
Qed.

(** C8.  The destruction hook of a component store that does not hold the
    entity returns normally and leaves the store exactly as it was, and so
    does the component manager's broadcast when none of its stores holds the
    entity.  The system manager's hook always returns normally, never touches
    the recorded signatures, leaves the entity set of every system that does
    not hold the entity as it was, and leaves the whole system manager as it
    was when no system holds the entity. *)
Theorem EntityWasDestroyed_absent_is_noop l cm (sm : SystemManager.t) (e : Z) :
  (Store.slot_of l e = None → ComponentList.EntityWasDestroyed e l = Ok tt l)
  ∧ ((∀ T l', ComponentManager.component_lists_ cm !! T = Some l' →
              Store.slot_of l' e = None) →
     ComponentManager.EntityWasDestroyed e cm = Ok tt cm)
  ∧ (∃ sm', SystemManager.EntityWasDestroyed e sm = Ok tt sm'
       ∧ SystemManager.system_signatures_ sm' = SystemManager.system_signatures_ sm
       ∧ ∀ S system, SystemManager.systems_ sm !! S = Some system → e ∉ system →
                     SystemManager.systems_ sm' !! S = Some system)
  ∧ ((∀ S, ¬ member sm S e) → SystemManager.EntityWasDestroyed e sm = Ok tt sm).
Proof.
  destruct (EntityWasDestroyed_systems e sm) as (sm' & Hrun & Hsig & Hsys).
  assert (Hkeep : ∀ S system, SystemManager.systems_ sm !! S = Some system →
                    e ∉ system → SystemManager.systems_ sm' !! S = Some system).
  { intros S system HS He. rewrite Hsys, HS. simpl. f_equal.
    apply set_eq. intros x. rewrite elem_of_difference, elem_of_singleton.
    split; [tauto|]. intros Hx. split; [done|]. by intros ->. }
  split; [apply store_EntityWasDestroyed_absent|]. split; [|split].
  - intros Hall. unfold ComponentManager.EntityWasDestroyed. unfold bind at 1. unfold get.
    apply notify_loop_absent. intros T l' Hin.
    apply elem_of_map_to_list in Hin. split; [done|]. by apply (Hall T).
  - exists sm'. by split; [|split].
  - intros Hnone. rewrite Hrun. f_equal.
    apply SystemManager_eq; [|done]. apply map_eq. intros S.
    destruct (SystemManager.systems_ sm !! S) as [system|] eqn:HS.
    + apply Hkeep; [done|]. intros Hin. apply (Hnone S). by exists system.
    + by rewrite Hsys, HS.
Qed.

End Broadcast.

(** A store, a component manager and a system manager that hold the entity
    [4] only are all left alone by the destruction of the entity [9]. *)
Lemma EntityWasDestroyed_absent_is_noop_witness :
  let l := ComponentList.Build 1 {[0 := 10]} {[4 := 0]} {[0 := 4]} in
  let cm := ComponentManager.Build {[1%positive := 0]} {[1%positive := l]} 1 in
  let sm := SystemManager.Build {[1%positive := {[4]}]} {[1%positive := 1]} in
  ComponentList.EntityWasDestroyed 9 l = Ok tt l
  ∧ ComponentManager.EntityWasDestroyed 9 cm = Ok tt cm
  ∧ SystemManager.EntityWasDestroyed 9 sm = Ok tt sm.
Proof.
  intros l cm sm.
  destruct (EntityWasDestroyed_absent_is_noop (V:=Z) l cm sm 9)
    as (Hstore & Hmanager & _ & Hsystems).
  split; [apply Hstore; reflexivity|]. split.
  - apply Hmanager. intros T l' HT. unfold cm in HT.
    cbn [ComponentManager.component_lists_] in HT.
    apply lookup_singleton_Some in HT as [_ <-]. reflexivity.
  - apply Hsystems. intros S (system & HS & Hin). unfold sm in HS.
    cbn [SystemManager.systems_] in HS.
    apply lookup_singleton_Some in HS as [_ <-].
    apply elem_of_singleton in Hin. discriminate.
Defined.

(** ** The engine *)

Section EngineProps.
Context {V : Type} `{Inhabited V}.
Implicit Types (eng : Engine.t V) (cm : ComponentManager.t V) (T : TypeName).

Lemma Insert_Throw_inv (l l' : ComponentList.t V) e c err :
  ComponentList.Insert e c l = Throw err l' → err = DuplicateEntity ∧ l' = l.
Proof.
  intros Hrun. destruct (Store.slot_of l e) as [i|] eqn:He.
  { rewrite (Insert_duplicate l e c i He) in Hrun. by simplify_eq. }
  destruct (decide (in_bounds (Store.count l))) as [Hb|Hb].
  - rewrite (Insert_fresh l e c He Hb) in Hrun. discriminate.
  - rewrite (Insert_full l e c He Hb) in Hrun. discriminate.
Qed.

Lemma Remove_Throw_inv (l l' : ComponentList.t V) e err :
  ComponentList.Remove e l = Throw err l' → err = NotFound ∧ l' = l.
Proof.
  unfold ComponentList.Remove, array_read, array_write. run_monad.
  destruct (ComponentList.contains l e); simpl; [|intros; by simplify_eq].
  destruct (map_subscript 0 (ComponentList.entity_to_component_index_ l) e) as [i e2i].
  repeat (case_decide; simpl; try discriminate).
  by destruct (map_subscript 0 (ComponentList.component_index_to_entity_ l) _).
Qed.

Lemma on_component_list_Throw_inv {A} cm cm' T (op : M (ComponentList.t V) A) err :
  (∀ l l' err', op l = Throw err' l' → l' = l) →
  ComponentManager.on_component_list T op cm = Throw err cm' → cm' = cm.
Proof.
  intros Hop. unfold ComponentManager.on_component_list. run_monad.
  destruct (ComponentManager.component_lists_ cm !! T) as [l|] eqn:HT;
    [|intros; by simplify_eq].
  destruct (op l) as [a l1|err1 l1|] eqn:Hrun; [done| |done].
  intros. simplify_eq. apply Hop in Hrun as ->. by apply set_list_id.
Qed.

Lemma manager_AddComponent_Throw_inv cm cm' T e (c : V) err :
  ComponentManager.AddComponent T e c cm = Throw err cm' →
  cm' = cm ∧ (err = DuplicateEntity ∨ err = MissingComponentList).
Proof.
  unfold ComponentManager.AddComponent. unfold bind at 1. unfold get.
  destruct (bool_decide (is_Some (ComponentManager.component_types_ cm !! T))) eqn:HT.
  - unfold bind, ret. intros Hrun. split.
    + revert Hrun. apply on_component_list_Throw_inv.
      intros l l' err' Hl. by apply Insert_Throw_inv in Hl as [_ ->].
    + revert Hrun. unfold ComponentManager.on_component_list. run_monad.
      destruct (ComponentManager.component_lists_ cm !! T) as [l|];
        [|intros; simplify_eq; by right].
      destruct (ComponentList.Insert e c l) as [a l1|err1 l1|] eqn:Hl; [done| |done].
      apply Insert_Throw_inv in Hl as [-> _]. intros; simplify_eq. by left.
  - apply bool_decide_eq_false in HT.
    rewrite (bind_Ok _ _ _ _ _ (RegisterComponent_fresh cm T
               (proj2 (eq_None_not_Some _) HT))).
    unfold ComponentManager.on_component_list. run_monad.
    rewrite lookup_insert_eq. rewrite Insert_fresh; [done|done|].
    unfold in_bounds, Store.count. simpl. by rewrite kMaxEntities_eq.
Qed.

Lemma manager_RemoveComponent_Throw_inv cm cm' T e err :
  ComponentManager.RemoveComponent T e cm = Throw err cm' →
  cm' = cm ∧ (err = NotFound ∨ err = MissingComponentList).
Proof.
  unfold ComponentManager.RemoveComponent. intros Hrun. split.
  - revert Hrun. apply on_component_list_Throw_inv.
    intros l l' err' Hl. by apply Remove_Throw_inv in Hl as [_ ->].
  - revert Hrun. unfold ComponentManager.on_component_list. run_monad.
    destruct (ComponentManager.component_lists_ cm !! T) as [l|];
      [|intros; simplify_eq; by right].
    destruct (ComponentList.Remove e l) as [a l1|err1 l1|] eqn:Hl; [done| |done].
    apply Remove_Throw_inv in Hl as [-> _]. intros; simplify_eq. by left.
Qed.

(** What [AddComponent] ([val = true]) and [RemoveComponent] ([val = false])
    do once the component manager has stored or dropped the component. *)
Lemma signature_update_Throw (val : bool) T e eng err eng' :
  (component_id <- Engine.components (ComponentManager.GetComponentType T);;
   entity_signature <- Engine.entities (EntityManager.GetSignature e);;
   entity_signature <- bitset_set entity_signature component_id val;;
   Engine.entities (EntityManager.SetSignature e entity_signature);;
   Engine.systems (SystemManager.EntitySignatureChanged e entity_signature)) eng
    = Throw err eng' →
  eng' = eng ∧ (err = UnregisteredType ∨ err = OutOfRange ∨ err = BitsetPosition).
Proof.
  destruct eng as [em cm sm].
  unfold Engine.components, Engine.entities, Engine.systems, within, bind,
    ComponentManager.GetComponentType, EntityManager.GetSignature,
    EntityManager.SetSignature, EntityManager.CheckEntityOutOfBound,
    array_read, array_write, bitset_set.
  run_monad.
  destruct (ComponentManager.component_types_ cm !! T) as [id|]; simpl;
    [|intros; simplify_eq; by auto].
  destruct (decide (kMaxEntities ≤ e)); simpl; [intros; simplify_eq; by auto|].
  destruct (decide (in_bounds e)); simpl; [|done].
  destruct (decide (0 ≤ id < kMaxComponents)); simpl;
    [|intros; simplify_eq; destruct em; by auto].
  match goal with
  | |- context [SystemManager.EntitySignatureChanged e ?sig sm] =>
      destruct (EntitySignatureChanged_systems e sig sm) as (sm' & -> & _)
  end.
  done.
Qed.

Lemma signature_update_Ok (val : bool) T e eng eng' :
  (component_id <- Engine.components (ComponentManager.GetComponentType T);;
   entity_signature <- Engine.entities (EntityManager.GetSignature e);;
   entity_signature <- bitset_set entity_signature component_id val;;
   Engine.entities (EntityManager.SetSignature e entity_signature);;
   Engine.systems (SystemManager.EntitySignatureChanged e entity_signature)) eng
    = Ok tt eng' →
  Engine.component_manager_ eng' = Engine.component_manager_ eng
  ∧ 0 ≤ e < kMaxEntities
  ∧ (∀ S, SystemManager.systems_ (Engine.system_manager_ eng') !! S
          = admitted e (signature_of (Engine.entity_manager_ eng') e)
              (required (Engine.system_manager_ eng') S)
            <$> SystemManager.systems_ (Engine.system_manager_ eng) !! S).
Proof.
  destruct eng as [em cm sm].
  unfold Engine.components, Engine.entities, Engine.systems, within, bind,
    ComponentManager.GetComponentType, EntityManager.GetSignature,
    EntityManager.SetSignature, EntityManager.CheckEntityOutOfBound,
    array_read, array_write, bitset_set.
  run_monad.
  destruct (ComponentManager.component_types_ cm !! T) as [id|]; simpl; [|done].
  destruct (decide (kMaxEntities ≤ e)) as [|Hlt]; simpl; [done|].
  destruct (decide (in_bounds e)) as [Hb|]; simpl; [|done].
  destruct (decide (0 ≤ id < kMaxComponents)); simpl; [|done].
  match goal with
  | |- context [SystemManager.EntitySignatureChanged e ?sig sm] =>
      destruct (EntitySignatureChanged_systems e sig sm)
        as (sm' & -> & Hsys & _ & Hreq)
  end.
  intros Heq. simplify_eq. cbn [Engine.component_manager_ Engine.entity_manager_
    Engine.system_manager_]. split; [done|].
  unfold signature_of. cbn [EntityManager.entity_signatures_].
  rewrite lookup_insert_eq. cbn [default].
  split; [done|]. intros S. rewrite Hsys. by rewrite Hreq.
Qed.

Lemma Engine_eta eng :
  Engine.Build (Engine.entity_manager_ eng) (Engine.component_manager_ eng)
               (Engine.system_manager_ eng) = eng.
Proof. by destruct eng. Qed.

Lemma AddComponent_Throw_inv eng eng' T e (c : V) err :
  Engine.AddComponent T e c eng = Throw err eng' →
  (eng' = eng ∧ (err = DuplicateEntity ∨ err = MissingComponentList))
  ∨ (Engine.entity_manager_ eng' = Engine.entity_manager_ eng
     ∧ Engine.system_manager_ eng' = Engine.system_manager_ eng
     ∧ (err = UnregisteredType ∨ err = OutOfRange ∨ err = BitsetPosition)).
Proof.
  intros Hrun. apply bind_Throw_inv in Hrun as [Hrun|(? & eng1 & Hstore & Hrun)].
  - left. apply within_Throw_inv in Hrun as (cm1 & Hrun & ->).
    apply manager_AddComponent_Throw_inv in Hrun as [-> Herr].
    by rewrite Engine_eta.
  - right. apply signature_update_Throw in Hrun as [-> Herr].
    apply within_Ok_inv in Hstore as (cm1 & _ & ->). done.
Qed.

Lemma RemoveComponent_Throw_inv eng eng' T e err :
  Engine.RemoveComponent T e eng = Throw err eng' →
  (eng' = eng ∧ (err = NotFound ∨ err = MissingComponentList))
  ∨ (Engine.entity_manager_ eng' = Engine.entity_manager_ eng
     ∧ Engine.system_manager_ eng' = Engine.system_manager_ eng
     ∧ (err = UnregisteredType ∨ err = OutOfRange ∨ err = BitsetPosition)).
Proof.
  intros Hrun. apply bind_Throw_inv in Hrun as [Hrun|(? & eng1 & Hstore & Hrun)].
  - left. apply within_Throw_inv in Hrun as (cm1 & Hrun & ->).
    apply manager_RemoveComponent_Throw_inv in Hrun as [-> Herr].
    by rewrite Engine_eta.
  - right. apply signature_update_Throw in Hrun as [-> Herr].
    apply within_Ok_inv in Hstore as (cm1 & _ & ->). done.
Qed.

Lemma DestroyEntity_Throw_inv eng eng' e err :
  Engine.DestroyEntity e eng = Throw err eng' → eng' = eng ∧ err = OutOfRange.
Proof.
  intros Hrun. apply bind_Throw_inv in Hrun as [Hrun|(? & eng1 & _ & Hrun)].
  - apply within_Throw_inv in Hrun as (em1 & Hrun & ->). revert Hrun.
    unfold EntityManager.DestroyEntity, EntityManager.CheckEntityOutOfBound,
      array_write.
    run_monad. repeat (case_decide; simpl; try done).
    intros; simplify_eq. by rewrite Engine_eta.
  - apply bind_Throw_inv in Hrun as [Hrun|(? & eng2 & _ & Hrun)].
    + apply within_Throw_inv in Hrun as (cm1 & Hrun & _).
      by apply manager_EntityWasDestroyed_no_throw in Hrun.
    + apply within_Throw_inv in Hrun as (sm1 & Hrun & _).
      destruct (EntityWasDestroyed_systems e (Engine.system_manager_ eng2))
        as (sm' & Hrun' & _).
      rewrite Hrun' in Hrun. discriminate.
Qed.

Lemma other_calls_Throw_inv eng eng' (c : mutation V) err :
  (∀ T e v, c ≠ CallAddComponent T e v) →
  (∀ T e, c ≠ CallRemoveComponent T e) →
  perform c eng = Throw err eng' → eng' = eng.
Proof.
  intros Hadd Hremove.
  destruct c as [|e|T|T e v|T e|T|T system|T sig]; cbn [perform].
  - intros Hrun. apply bind_Throw_inv in Hrun as [Hrun|(? & ? & _ & ?)]; [|done].
    apply within_Throw_inv in Hrun as (em1 & Hrun & ->). revert Hrun.
    unfold EntityManager.CreateEntity. run_monad.
    destruct (EntityManager.available_entities_ (Engine.entity_manager_ eng));
      [|done].
    intros; simplify_eq. by rewrite Engine_eta.
  - intros Hrun. by apply DestroyEntity_Throw_inv in Hrun as [-> _].
  - intros Hrun. apply within_Throw_inv in Hrun as (cm1 & Hrun & ->).
    destruct (RegisterComponent_total (Engine.component_manager_ eng) T)
      as [cm' Hok].
    rewrite Hok in Hrun. discriminate.
  - by destruct (Hadd T e v).
  - by destruct (Hremove T e).
  - intros Hrun. apply bind_Throw_inv in Hrun as [Hrun|(? & ? & _ & ?)]; [|done].
    apply within_Throw_inv in Hrun as (sm1 & Hrun & ->). revert Hrun.
    unfold SystemManager.RegisterSystem, SystemManager.RegisterSystem_copy.
    run_monad. case_bool_decide; [|done].
    intros; simplify_eq. by rewrite Engine_eta.
  - intros Hrun. apply bind_Throw_inv in Hrun as [Hrun|(? & ? & _ & ?)]; [|done].
    apply within_Throw_inv in Hrun as (sm1 & Hrun & ->). revert Hrun.
    unfold SystemManager.RegisterSystem_copy.
    run_monad. case_bool_decide; [|done].
    intros; simplify_eq. by rewrite Engine_eta.
  - intros Hrun. apply within_Throw_inv in Hrun as (sm1 & Hrun & ->). revert Hrun.
    unfold SystemManager.SetSystemSignature.
    run_monad. case_bool_decide; simpl; [done|].
    intros; simplify_eq. by rewrite Engine_eta.
Qed.

(** C3 (amended).  When a mutating operation of the engine throws, the entity
    manager (pool and entity signatures) and the system manager (entity sets
    and required signatures) are as before the call.  The whole engine,
    component stores included, is as before the call whenever the operation
    is not [AddComponent] or [RemoveComponent], and also for these two
    whenever the error comes from the component manager's own checks:
    duplicate entity, entity not found, or no store for the type. *)
Theorem failed_call_effect eng eng' (c : mutation V) err :
  perform c eng = Throw err eng' →
  Engine.entity_manager_ eng' = Engine.entity_manager_ eng
  ∧ Engine.system_manager_ eng' = Engine.system_manager_ eng
  ∧ (err = DuplicateEntity ∨ err = NotFound ∨ err = MissingComponentList →
     eng' = eng)
  ∧ ((∀ T e v, c ≠ CallAddComponent T e v) →
     (∀ T e, c ≠ CallRemoveComponent T e) → eng' = eng).
Proof.
  intros Hrun.
  assert (Hcases :
    eng' = eng
    ∨ (Engine.entity_manager_ eng' = Engine.entity_manager_ eng
       ∧ Engine.system_manager_ eng' = Engine.system_manager_ eng
       ∧ (err = UnregisteredType ∨ err = OutOfRange ∨ err = BitsetPosition))).
  { destruct c as [|e|T|T e v|T e|T|T system|T sig].
    4:{ apply AddComponent_Throw_inv in Hrun as [[-> _]|?]; by auto. }
    4:{ apply RemoveComponent_Throw_inv in Hrun as [[-> _]|?]; by auto. }
    all: left; apply other_calls_Throw_inv in Hrun; done. }
  split; [|split; [|split]].
  - by destruct Hcases as [->|(? & _)].
  - by destruct Hcases as [->|(_ & ? & _)].
  - intros Herr. destruct Hcases as [|(_ & _ & Htail)]; [done|].
    destruct Herr as [->|[->| ->]]; by destruct Htail as [?|[?|?]].
  - intros Hadd Hremove. by apply (other_calls_Throw_inv _ _ c err).
Qed.

Lemma signature_update_Ok_required (val : bool) T e eng eng' :
  (component_id <- Engine.components (ComponentManager.GetComponentType T);;
   entity_signature <- Engine.entities (EntityManager.GetSignature e);;
   entity_signature <- bitset_set entity_signature component_id val;;
   Engine.entities (EntityManager.SetSignature e entity_signature);;
   Engine.systems (SystemManager.EntitySignatureChanged e entity_signature)) eng
    = Ok tt eng' →
  ∀ S, required (Engine.system_manager_ eng') S
       = required (Engine.system_manager_ eng) S.
Proof.
  destruct eng as [em cm sm].
  unfold Engine.components, Engine.entities, Engine.systems, within, bind,
    ComponentManager.GetComponentType, EntityManager.GetSignature,
    EntityManager.SetSignature, EntityManager.CheckEntityOutOfBound,
    array_read, array_write, bitset_set.
  run_monad.
  destruct (ComponentManager.component_types_ cm !! T) as [id|]; simpl; [|done].
  destruct (decide (kMaxEntities ≤ e)) as [|Hlt]; simpl; [done|].
  destruct (decide (in_bounds e)) as [Hb|]; simpl; [|done].
  destruct (decide (0 ≤ id < kMaxComponents)); simpl; [|done].
  match goal with
  | |- context [SystemManager.EntitySignatureChanged e ?sig sm] =>
      destruct (EntitySignatureChanged_systems e sig sm)
        as (sm' & -> & _ & _ & Hreq)
  end.
  intros Heq. simplify_eq. exact Hreq.
Qed.

(** What a returning [AddComponent] or [RemoveComponent] does to the
    systems: the entity's membership is recomputed in every system, and
    nothing else about the systems changes. *)
Lemma component_call_Ok_systems eng eng' T e (c : V) :
  Engine.AddComponent T e c eng = Ok tt eng'
  ∨ Engine.RemoveComponent T e eng = Ok tt eng' →
  0 ≤ e < kMaxEntities
  ∧ (∀ S, SystemManager.systems_ (Engine.system_manager_ eng') !! S
          = admitted e (signature_of (Engine.entity_manager_ eng') e)
              (required (Engine.system_manager_ eng') S)
            <$> SystemManager.systems_ (Engine.system_manager_ eng) !! S)
  ∧ (∀ S, required (Engine.system_manager_ eng') S
          = required (Engine.system_manager_ eng) S).
Proof.
  intros Hrun.
  assert (∃ val eng1,
    Engine.system_manager_ eng1 = Engine.system_manager_ eng
    ∧ (component_id <- Engine.components (ComponentManager.GetComponentType T);;
       entity_signature <- Engine.entities (EntityManager.GetSignature e);;
       entity_signature <- bitset_set entity_signature component_id val;;
       Engine.entities (EntityManager.SetSignature e entity_signature);;
       Engine.systems (SystemManager.EntitySignatureChanged e entity_signature)) eng1
        = Ok tt eng') as (val & eng1 & Hsm & Htail).
  { destruct Hrun as [Hrun|Hrun];
      apply bind_Ok_inv in Hrun as (? & eng1 & Hfirst & Htail);
      apply within_Ok_inv in Hfirst as (cm1 & _ & ->);
      [exists true | exists false]; eexists; (split; [|exact Htail]); done. }
  pose proof (signature_update_Ok_required _ _ _ _ _ Htail) as Hreq.
  apply signature_update_Ok in Htail as (_ & He & Hsys).
  split; [done|]. split.
  - intros S. by rewrite Hsys, Hsm.
  - intros S. by rewrite Hreq, Hsm.
Qed.

(** What a returning [DestroyEntity] does to the signatures and systems. *)
Lemma DestroyEntity_Ok_systems eng eng' e :
  Engine.DestroyEntity e eng = Ok tt eng' →
  signature_of (Engine.entity_manager_ eng') e = 0
  ∧ (∀ S, SystemManager.systems_ (Engine.system_manager_ eng') !! S
          = (λ system, system ∖ {[e]})
            <$> SystemManager.systems_ (Engine.system_manager_ eng) !! S)
  ∧ SystemManager.system_signatures_ (Engine.system_manager_ eng')
    = SystemManager.system_signatures_ (Engine.system_manager_ eng).
Proof.
  intros Hrun. unfold Engine.DestroyEntity in Hrun.
  apply bind_Ok_inv in Hrun as (? & eng1 & Hdestroy & Hrun).
  apply bind_Ok_inv in Hrun as (? & eng2 & Hlists & Hrun).
  apply within_Ok_inv in Hdestroy as (em1 & Hdestroy & ->).
  apply within_Ok_inv in Hlists as (cm2 & _ & ->).
  apply within_Ok_inv in Hrun as (sm3 & Hrun & ->).
  cbn [Engine.entity_manager_ Engine.system_manager_
       Engine.component_manager_] in *.
  split.
  { revert Hdestroy.
    unfold EntityManager.DestroyEntity, EntityManager.CheckEntityOutOfBound,
      array_write.
    run_monad. repeat (case_decide; simpl; try done).
    intros; simplify_eq. unfold signature_of.
    cbn [EntityManager.entity_signatures_]. by rewrite lookup_insert_eq. }
  destruct (EntityWasDestroyed_systems e (Engine.system_manager_ eng))
    as (sm' & Hrun' & Hsig & Hsys).
  rewrite Hrun' in Hrun. by simplify_eq.
Qed.

(** C2 (amended).  Right after an [AddComponent] or [RemoveComponent] on an
    entity that returns, the entity is in the set of a registered system
    exactly when its signature, ANDed with the signature the system
    requires, equals the latter; a system whose signature was never set
    requires the empty signature.  Right after a [DestroyEntity] that
    returns, the entity's signature is empty and the entity is in the set of
    no system; for a registered system the membership then agrees with the
    signature test exactly when the system requires at least one component:
    a system with an empty required signature passes the test and does not
    hold the entity.  Each of the three calls, when it returns, leaves the
    same systems registered with the same required signatures and changes
    the membership of no other entity.  When one of them throws, the
    signatures and the systems are as before the call, so nothing is
    recomputed. *)
Theorem systems_follow_signature eng eng' T (e : Z) (c : V) :
  (Engine.AddComponent T e c eng = Ok tt eng'
   ∨ Engine.RemoveComponent T e eng = Ok tt eng' →
   EntityManager.GetSignature e (Engine.entity_manager_ eng')
     = Ok (signature_of (Engine.entity_manager_ eng') e) (Engine.entity_manager_ eng')
   ∧ ∀ S system,
       SystemManager.systems_ (Engine.system_manager_ eng') !! S = Some system →
       (e ∈ system
        ↔ Z.land (signature_of (Engine.entity_manager_ eng') e)
                 (required (Engine.system_manager_ eng') S)
          = required (Engine.system_manager_ eng') S))
  ∧ (Engine.DestroyEntity e eng = Ok tt eng' →
     signature_of (Engine.entity_manager_ eng') e = 0
     ∧ (∀ S, ¬ member (Engine.system_manager_ eng') S e)
     ∧ (∀ S, required (Engine.system_manager_ eng') S ≠ 0 →
             Z.land (signature_of (Engine.entity_manager_ eng') e)
                    (required (Engine.system_manager_ eng') S)
             ≠ required (Engine.system_manager_ eng') S)
     ∧ ∀ S system,
         SystemManager.systems_ (Engine.system_manager_ eng') !! S = Some system →
         ((e ∈ system
           ↔ Z.land (signature_of (Engine.entity_manager_ eng') e)
                    (required (Engine.system_manager_ eng') S)
             = required (Engine.system_manager_ eng') S)
          ↔ required (Engine.system_manager_ eng') S ≠ 0))
  ∧ (Engine.AddComponent T e c eng = Ok tt eng'
     ∨ Engine.RemoveComponent T e eng = Ok tt eng'
     ∨ Engine.DestroyEntity e eng = Ok tt eng' →
     (∀ S, is_Some (SystemManager.systems_ (Engine.system_manager_ eng') !! S)
           ↔ is_Some (SystemManager.systems_ (Engine.system_manager_ eng) !! S))
     ∧ (∀ S, required (Engine.system_manager_ eng') S
             = required (Engine.system_manager_ eng) S)
     ∧ ∀ S e', e' ≠ e →
         (member (Engine.system_manager_ eng') S e'
          ↔ member (Engine.system_manager_ eng) S e'))
  ∧ (∀ err,
       Engine.AddComponent T e c eng = Throw err eng'
       ∨ Engine.RemoveComponent T e eng = Throw err eng'
       ∨ Engine.DestroyEntity e eng = Throw err eng' →
       Engine.entity_manager_ eng' = Engine.entity_manager_ eng
       ∧ Engine.system_manager_ eng' = Engine.system_manager_ eng).
Proof.
  split; [|split; [|split]].
  - intros Hrun.
    destruct (component_call_Ok_systems eng eng' T e c Hrun) as (He & Hsys & _).
    split; [by apply GetSignature_in_range|].
    intros S system HS. rewrite Hsys in HS.
    destruct (SystemManager.systems_ (Engine.system_manager_ eng) !! S)
      as [system1|]; [|done].
    simpl in HS. simplify_eq. rewrite elem_of_admitted. by rewrite decide_True.
  - intros Hrun.
    destruct (DestroyEntity_Ok_systems eng eng' e Hrun) as (Hsig & Hsys & _).
    assert (Hout : ∀ S system,
      SystemManager.systems_ (Engine.system_manager_ eng') !! S = Some system →
      e ∉ system).
    { intros S system HS. rewrite Hsys in HS.
      destruct (SystemManager.systems_ (Engine.system_manager_ eng) !! S)
        as [system0|]; [|done].
      simpl in HS. simplify_eq. intros Hin.
      apply elem_of_difference in Hin as [_ Hin].
      apply Hin. by apply elem_of_singleton. }
    split; [done|]. split; [|split].
    + intros S (system & HS & Hin). by apply (Hout S system).
    + intros S HS. rewrite Hsig, Z.land_0_l. congruence.
    + intros S system HS. rewrite Hsig, Z.land_0_l.
      pose proof (Hout S system HS) as Hnotin. split.
      * intros Hiff Hzero. apply Hnotin, Hiff. by rewrite Hzero.
      * intros Hne. split; [done|]. intros Hzero. by destruct Hne.
  - intros [Hrun|[Hrun|Hrun]].
    3:{ destruct (DestroyEntity_Ok_systems eng eng' e Hrun) as (_ & Hsys & Hsig).
        split; [|split].
        - intros S. rewrite Hsys. by rewrite fmap_is_Some.
        - intros S. unfold required. by rewrite Hsig.
        - intros S e' Hne. unfold member. rewrite Hsys.
          destruct (SystemManager.systems_ (Engine.system_manager_ eng) !! S)
            as [system0|]; simpl.
          + split; intros (system & Heq & Hin); simplify_eq; eexists;
              (split; [done|]); revert Hin;
              rewrite elem_of_difference, elem_of_singleton; tauto.
          + split; by intros (? & ? & _). }
    all: assert (Hcall : Engine.AddComponent T e c eng = Ok tt eng'
                         ∨ Engine.RemoveComponent T e eng = Ok tt eng')
           by tauto;
         destruct (component_call_Ok_systems eng eng' T e c Hcall)
           as (_ & Hsys & Hreq);
         (split; [|split; [done|]]).
    all: try (intros S; rewrite Hsys; by rewrite fmap_is_Some).
    all: intros S e' Hne; unfold member; rewrite Hsys;
         destruct (SystemManager.systems_ (Engine.system_manager_ eng) !! S)
           as [system0|]; simpl;
         [ split; intros (system & Heq & Hin); simplify_eq; eexists;
             (split; [done|]); revert Hin;
             rewrite elem_of_admitted; by rewrite decide_False
         | split; by intros (? & ? & _) ].
  - intros err [Hrun|[Hrun|Hrun]].
    + by apply AddComponent_Throw_inv in Hrun as [[-> _]|(? & ? & _)].
    + by apply RemoveComponent_Throw_inv in Hrun as [[-> _]|(? & ? & _)].
    + by apply DestroyEntity_Throw_inv in Hrun as [-> _].
Qed.

End EngineProps.

(** C3 as stated fails on the engine as constructed: [AddComponent] of a
    component of type [1] for the entity [kMaxEntities] registers the type and
    inserts the component into the new store, and only then
    [GetSignature] throws the out-of-range error.  The call has failed and
    the component manager is not what it was. *)
Lemma failed_AddComponent_counterexample :
  ∃ eng' : Engine.t Z,
    Engine.AddComponent 1%positive 65535 7 Engine.new = Throw OutOfRange eng'
    ∧ ComponentManager.component_types_ (Engine.component_manager_ eng') !! 1%positive
        = Some 0
    ∧ ComponentManager.component_lists_ (Engine.component_manager_ eng') !! 1%positive
        = Some (ComponentList.Build 1 {[0 := 7]} {[65535 := 0]} {[0 := 65535]})
    ∧ ComponentManager.component_lists_
        (Engine.component_manager_ (Engine.new (V:=Z))) !! 1%positive = None
    ∧ eng' ≠ Engine.new.
Proof.
  unfold Engine.new, EntityManager.new.
  generalize (EntityManager.pushed_from (Z.to_nat kMaxEntities) 0). intros pool.
  eexists. split; [vm_compute; reflexivity|].
  split; [reflexivity|]. split; [reflexivity|]. split; [reflexivity|].
  intros Heq.
  apply (f_equal (λ eng : Engine.t Z,
           ComponentManager.next_component_type_ (Engine.component_manager_ eng)))
    in Heq.
  vm_compute in Heq. discriminate.
Qed.

(** A second [AddComponent] of the same type for the same entity throws the
    duplicate error and leaves the engine as the first one left it. *)
Lemma failed_call_effect_witness :
  ∃ eng : Engine.t Z,
    Engine.AddComponent 1%positive 0 7 Engine.new = Ok tt eng
    ∧ perform (CallAddComponent 1%positive 0 8) eng = Throw DuplicateEntity eng.
Proof.
  unfold Engine.new, EntityManager.new.
  generalize (EntityManager.pushed_from (Z.to_nat kMaxEntities) 0). intros pool.
  eexists. split; [vm_compute; reflexivity|].
  match goal with |- perform ?c ?eng = _ =>
    assert (Hrun : ∃ eng', perform c eng = Throw DuplicateEntity eng')
      by (eexists; vm_compute; reflexivity);
    destruct Hrun as [eng' Hrun];
    destruct (failed_call_effect eng eng' c DuplicateEntity Hrun)
      as (_ & _ & Hsame & _)
  end.
  rewrite Hrun. f_equal. apply Hsame. by left.
Defined.

(** C2 as stated fails on the engine as constructed: a system is registered
    and never given a signature, so that it requires nothing; a component is
    added to the entity [0], which puts the entity into the system's set, and
    the entity is destroyed.  Right after [DestroyEntity] the system is still
    registered, the entity's signature ANDed with the system's signature
    equals the system's signature, and the entity is not in the system's
    set. *)
Lemma destroyed_entity_passes_the_test_counterexample :
  ∃ (eng eng' : Engine.t Z) (system : gset Z),
    (Engine.CreateEntity;;
     Engine.RegisterSystem 2%positive;;
     Engine.AddComponent 1%positive 0 7) Engine.new = Ok tt eng
    ∧ member (Engine.system_manager_ eng) 2%positive 0
    ∧ Engine.DestroyEntity 0 eng = Ok tt eng'
    ∧ SystemManager.systems_ (Engine.system_manager_ eng') !! 2%positive
        = Some system
    ∧ (0 ∉ system)
    ∧ Z.land (signature_of (Engine.entity_manager_ eng') 0)
             (required (Engine.system_manager_ eng') 2%positive)
        = required (Engine.system_manager_ eng') 2%positive
    ∧ ¬ (0 ∈ system
         ↔ Z.land (signature_of (Engine.entity_manager_ eng') 0)
                  (required (Engine.system_manager_ eng') 2%positive)
           = required (Engine.system_manager_ eng') 2%positive).
Proof.
  assert (Hpool : ∃ rest,
    EntityManager.pushed_from (Z.to_nat kMaxEntities) 0 = 0 :: rest).
  { rewrite (pushed_from_seqZ (Z.to_nat kMaxEntities) 0) by reflexivity.
    rewrite (seqZ_cons 0) by reflexivity.
    eexists. reflexivity. }
  destruct Hpool as [rest Hpool].
  unfold Engine.new, EntityManager.new. rewrite Hpool. clear Hpool.
  eexists. eexists. exists ∅.
  split; [vm_compute; reflexivity|].
  split; [exists {[0]}; split; [reflexivity | by apply elem_of_singleton]|].
  split; [vm_compute; reflexivity|].
  split; [reflexivity|].
  split; [apply not_elem_of_empty|].
  split; [reflexivity|].
  intros [_ Hback].
  assert (Hin : 0 ∈ (∅ : gset Z)) by (apply Hback; reflexivity).
  by apply not_elem_of_empty in Hin.
Qed.

(** A system that requires component type [0] holds the entity [0] once
    that component has been added to it. *)
Lemma systems_follow_signature_witness :
  ∃ eng eng' : Engine.t Z,
    (Engine.RegisterSystem 1%positive;;
     Engine.RegisterComponent 1%positive;;
     Engine.SetSystemSignature 1%positive 1) Engine.new = Ok tt eng
    ∧ Engine.AddComponent 1%positive 0 7 eng = Ok tt eng'
    ∧ member (Engine.system_manager_ eng') 1%positive 0.
Proof.
  unfold Engine.new, EntityManager.new.
  generalize (EntityManager.pushed_from (Z.to_nat kMaxEntities) 0). intros pool.
  eexists. eexists. split; [vm_compute; reflexivity|].
  match goal with |- ?run = Ok tt ?eng' ∧ _ =>
    assert (Hrun : run = Ok tt eng') by (vm_compute; reflexivity)
  end.
  split; [exact Hrun|].
  match type of Hrun with Engine.AddComponent ?T ?e ?c ?eng = Ok tt ?eng' =>
    destruct (systems_follow_signature eng eng' T e c) as [Hiff _]
  end.
  destruct (Hiff (or_introl Hrun)) as [_ Hmember].
  exists {[0]}. split; [reflexivity|].
  apply (Hmember 1%positive); reflexivity.
Defined.

(** * Further properties *)

(** ** One component store: round trips and frames *)

Section StoreRoundTrips.
Context {T : Type} `{Inhabited T}.
Import ComponentList Store.
Implicit Types (s : ComponentList.t T) (e i : Z).

Lemma Get_absent s e : slot_of s e = None → Get e s = Throw NotFound s.
Proof. intros He. unfold Get. run_monad. by rewrite contains_false. Qed.

Lemma Get_inv s e :
  match Get e s with
  | Ok v s' => s' = s ∧ ∃ i, slot_of s e = Some i ∧ in_bounds i ∧ v = cell s i
  | Throw err s' => s' = s ∧ err = NotFound ∧ slot_of s e = None
  | Undefined => ∃ i, slot_of s e = Some i ∧ ¬ in_bounds i
  end.
Proof.
  destruct (slot_of s e) as [i|] eqn:He.
  - destruct (decide (in_bounds i)) as [Hb|Hb].
    + rewrite (Get_present s e i He Hb). split; [done|]. by exists i.
    + unfold Get, array_read. run_monad. rewrite (contains_true s e i He). simpl.
      unfold slot_of in He. rewrite (map_subscript_Some _ _ _ _ He).
      rewrite decide_False by done. by exists i.
  - by rewrite (Get_absent s e He).
Qed.

Lemma Insert_Ok_Get s e c s' :
  Insert e c s = Ok tt s' → Get e s' = Ok c s'.
Proof.
  intros Hrun. apply Insert_Ok_inv in Hrun as (He & Hb & ->).
  rewrite (Get_present _ e (count s)); [|unfold slot_of; simpl; by rewrite lookup_insert_eq|done].
  unfold cell. simpl. by rewrite lookup_insert_eq.
Qed.

Lemma Remove_Ok_absent s e s' : Remove e s = Ok tt s' → slot_of s' e = None.
Proof.
  unfold Remove, array_read, array_write. run_monad.
  destruct (contains s e); simpl; [|done].
  destruct (map_subscript 0 (entity_to_component_index_ s) e) as [i e2i].
  repeat (case_decide; simpl; try done).
  destruct (map_subscript 0 (component_index_to_entity_ s) _) as [l i2e].
  intros Heq. simplify_eq. unfold slot_of. simpl. by rewrite lookup_delete_eq.
Qed.

(** X1.  [Insert] followed by [Get] returns the inserted component, and the
    insertion leaves every other entity at its slot with its value. *)
Theorem insert_then_get s e (c : T) :
  packed s → slot_of s e = None → count s < kMaxEntities →
  ∃ s', Insert e c s = Ok tt s'
    ∧ packed s'
    ∧ Get e s' = Ok c s'
    ∧ ∀ e' i, e' ≠ e → slot_of s e' = Some i →
        slot_of s' e' = Some i ∧ Get e' s = Ok (cell s i) s
        ∧ Get e' s' = Ok (cell s i) s'.
Proof.
  intros Hp He Hroom.
  pose proof (packed_capacity s Hp) as Hcap.
  assert (Hb : in_bounds (count s)) by (unfold in_bounds; lia).
  pose proof (Insert_fresh s e c He Hb) as Hrun.
  eexists. split; [exact Hrun|].
  split; [by apply (Insert_packed s e c)|].
  split; [by apply (Insert_Ok_Get s)|].
  intros e' i Hne Hi.
  pose proof (packed_slot_range s e' i Hp Hi) as Hrange.
  assert (Hbi : in_bounds i) by (unfold in_bounds; lia).
  split; [|split].
  - unfold slot_of. simpl. by rewrite lookup_insert_ne.
  - by apply Get_present.
  - rewrite (Get_present _ e' i); [| |done].
    + unfold cell. simpl. rewrite lookup_insert_ne; [done|lia].
    + unfold slot_of. simpl. by rewrite lookup_insert_ne.
Qed.

(** X2.  [Insert] of a new entity followed by [Remove] of the same entity
    restores the count and both index maps; of the array only the cell just
    past the occupied range has changed. *)
Theorem insert_then_remove s e (c : T) :
  packed s → slot_of s e = None → count s < kMaxEntities →
  ∃ s', (Insert e c;; Remove e)%ecs s = Ok tt s'
    ∧ count s' = count s
    ∧ entity_to_component_index_ s' = entity_to_component_index_ s
    ∧ component_index_to_entity_ s' = component_index_to_entity_ s
    ∧ components_ s' = <[count s := c]> (components_ s).
Proof.
  intros Hp He Hroom.
  pose proof (packed_capacity s Hp) as Hcap.
  assert (Hb : in_bounds (count s)) by (unfold in_bounds; lia).
  pose proof (Insert_fresh s e c He Hb) as Hins.
  destruct (Insert_packed s e c _ Hp Hins) as [Hp1 Hc1].
  set (s1 := Build (wrap_size_t (count s + 1))
               (<[count s := c]> (components_ s))
               (<[e := count s]> (entity_to_component_index_ s))
               (<[count s := e]> (component_index_to_entity_ s))) in *.
  assert (Hslot : slot_of s1 e = Some (count s)).
  { unfold slot_of, s1. simpl. by rewrite lookup_insert_eq. }
  destruct (Remove_packed_present s1 e (count s) Hp1 Hslot) as (l & Hl & Hrem).
  assert (l = e) as ->.
  { rewrite Hc1 in Hl. replace (count s + 1 - 1) with (count s) in Hl by lia.
    unfold entity_at, s1 in Hl. simpl in Hl. rewrite lookup_insert_eq in Hl.
    by simplify_eq. }
  assert (Hfree : component_index_to_entity_ s !! count s = None).
  { apply eq_None_not_Some. intros Hocc. apply (packed_range s Hp) in Hocc. lia. }
  exists (removed s1 e (count s) e). split.
  { by rewrite (bind_Ok _ _ _ _ _ Hins). }
  unfold removed. rewrite Hc1. replace (count s + 1 - 1) with (count s) by lia.
  unfold cell, s1. simpl. rewrite lookup_insert_eq. simpl.
  split; [done|]. split; [|split].
  - rewrite insert_insert_eq, delete_insert_eq. by apply delete_id.
  - rewrite insert_insert_eq, delete_insert_eq. by apply delete_id.
  - by rewrite insert_insert_eq.
Qed.

Lemma Remove_present_facts s (E iE : Z) :
  packed s → slot_of s E = Some iE →
  ∃ s', Remove E s = Ok tt s'
    ∧ packed s'
    ∧ Get E s' = Throw NotFound s'
    ∧ (∀ e' i, e' ≠ E → slot_of s e' = Some i →
         Get e' s = Ok (cell s i) s ∧ Get e' s' = Ok (cell s i) s')
    ∧ (∀ e', slot_of s e' = None → slot_of s' e' = None).
Proof.
  intros Hp HE.
  destruct (Remove_packed_present s E iE Hp HE) as (L & HL & Hrun).
  pose proof (packed_slot_range s E iE Hp HE) as HiE.
  pose proof (packed_capacity s Hp) as Hcap.
  pose proof (proj2 (packed_inverse s Hp L (count s - 1)) HL) as HsL.
  exists (removed s E iE L). split; [done|].
  split; [by apply (Remove_packed s E)|].
  split; [apply Get_absent; by apply (Remove_Ok_absent s E)|].
  split.
  - intros e' i Hne Hi.
    pose proof (packed_slot_range s e' i Hp Hi) as Hrange.
    assert (Hbi : in_bounds i) by (unfold in_bounds; lia).
    split; [by apply Get_present|].
    destruct (decide (e' = L)) as [->|HneL].
    + assert (i = count s - 1) as -> by congruence.
      rewrite (Get_present _ L iE).
      * unfold cell, removed. simpl. by rewrite lookup_insert_eq.
      * unfold slot_of, removed. simpl.
        rewrite lookup_delete_ne by done. by rewrite lookup_insert_eq.
      * unfold in_bounds. lia.
    + assert (i ≠ iE).
      { intros ->. apply Hne. by apply (packed_slot_unique s e' E iE Hp). }
      rewrite (Get_present _ e' i); [| |done].
      * unfold cell, removed. simpl. by rewrite lookup_insert_ne.
      * unfold slot_of, removed. simpl.
        rewrite lookup_delete_ne by done. by rewrite lookup_insert_ne.
  - intros e' He'. unfold slot_of, removed. simpl.
    rewrite lookup_delete, lookup_insert.
    repeat case_decide; simplify_eq; try done; unfold slot_of in *; congruence.
Qed.

(** X3.  [Remove] of a stored entity succeeds on a packed store and keeps it
    packed; afterwards [Get] throws for the removed entity and returns, for
    every other stored entity, the value it returned before, whether or not
    that entity was moved to another slot. *)
Theorem remove_keeps_others s (E iE : Z) :
  packed s → slot_of s E = Some iE →
  ∃ s', Remove E s = Ok tt s'
    ∧ packed s'
    ∧ Get E s' = Throw NotFound s'
    ∧ (∀ e' i, e' ≠ E → slot_of s e' = Some i →
         Get e' s = Ok (cell s i) s ∧ Get e' s' = Ok (cell s i) s')
    ∧ (∀ e', slot_of s e' = None → slot_of s' e' = None).
Proof. exact (Remove_present_facts s E iE). Qed.

Lemma Get_facts s e :
  (∀ v s', Get e s = Ok v s' → s' = s)
  ∧ (∀ err s', Get e s = Throw err s' → s' = s ∧ err = NotFound)
  ∧ (slot_of s e = None ↔ Get e s = Throw NotFound s)
  ∧ (packed s → is_Some (slot_of s e) → ∃ v, Get e s = Ok v s).
Proof.
  pose proof (Get_inv s e) as Hinv.
  split; [|split; [|split]].
  - intros v s' Hrun. rewrite Hrun in Hinv. by destruct Hinv.
  - intros err s' Hrun. rewrite Hrun in Hinv. by destruct Hinv as (? & ? & _).
  - split; [apply Get_absent|]. intros Hrun. rewrite Hrun in Hinv.
    by destruct Hinv as (_ & _ & ?).
  - intros Hp [i Hi]. exists (cell s i). apply Get_present; [done|].
    pose proof (packed_slot_range s e i Hp Hi). pose proof (packed_capacity s Hp).
    unfold in_bounds. lia.
Qed.

(** X4.  [Get] never changes the store.  It throws the not-found error
    exactly when the entity has no component in the store, and on a packed
    store it returns for every stored entity. *)
Theorem Get_is_read_only s e :
  (∀ v s', Get e s = Ok v s' → s' = s)
  ∧ (∀ err s', Get e s = Throw err s' → s' = s ∧ err = NotFound)
  ∧ (slot_of s e = None ↔ Get e s = Throw NotFound s)
  ∧ (packed s → is_Some (slot_of s e) → ∃ v, Get e s = Ok v s).
Proof. exact (Get_facts s e). Qed.

Lemma store_hook_facts s e :
  (∀ s1, EntityWasDestroyed e s = Ok tt s1 →
     slot_of s1 e = None ∧ EntityWasDestroyed e s1 = Ok tt s1)
  ∧ (packed s → ∃ s1, EntityWasDestroyed e s = Ok tt s1 ∧ packed s1
       ∧ ∀ e', e' ≠ e → (is_Some (slot_of s1 e') ↔ is_Some (slot_of s e'))).
Proof.
  split.
  - intros s1 Hrun.
    assert (Habsent : slot_of s1 e = None).
    { revert Hrun. unfold EntityWasDestroyed. unfold bind, get.
      destruct (contains s e) eqn:Hc.
      - apply Remove_Ok_absent.
      - unfold ret. intros; simplify_eq.
        apply bool_decide_eq_false in Hc. by apply eq_None_not_Some. }
    split; [done|]. by apply store_EntityWasDestroyed_absent.
  - intros Hp. destruct (slot_of s e) as [i|] eqn:He.
    + destruct (Remove_present_facts s e i Hp He) as (s1 & Hrun & Hp1 & _ & Hkeep & Hnone).
      exists s1. split; [|split; [done|]].
      * unfold EntityWasDestroyed. unfold bind, get.
        by rewrite (contains_true s e i He).
      * intros e' Hne. split.
        -- intros Hsome. destruct (slot_of s e') eqn:He'; [by eexists|].
           apply Hnone in He'. rewrite He' in Hsome. by destruct Hsome.
        -- intros [j Hj]. destruct (Hkeep e' j Hne Hj) as [_ Hget].
           pose proof (Get_inv s1 e') as Hinv. rewrite Hget in Hinv.
           destruct Hinv as (_ & k & Hk & _). by exists k.
    + exists s. split; [by apply store_EntityWasDestroyed_absent|]. done.
Qed.

(** X5.  The destruction hook of a store removes the entity when it is there
    and is idempotent: after one call the entity is absent and a second call
    changes nothing.  On a packed store the hook always returns. *)
Theorem store_hook_idempotent s e :
  (∀ s1, EntityWasDestroyed e s = Ok tt s1 →
     slot_of s1 e = None ∧ EntityWasDestroyed e s1 = Ok tt s1)
  ∧ (packed s → ∃ s1, EntityWasDestroyed e s = Ok tt s1 ∧ packed s1
       ∧ ∀ e', e' ≠ e → (is_Some (slot_of s1 e') ↔ is_Some (slot_of s e'))).
Proof. exact (store_hook_facts s e). Qed.

End StoreRoundTrips.

Lemma sample_store_packed : Store.packed sample_store.
Proof.
  assert (Hrun : Store.run [Store.OpInsert 1 10; Store.OpInsert 2 20] Store.start
                 = Some (Store.History sample_store 2 0)).
  { vm_compute. reflexivity. }
  exact (proj1 (run_packed _ Store.start _ packed_empty Hrun)).
Qed.

(** Entity [7] joins the sample store with the value [70]. *)
Lemma insert_then_get_witness :
  ∃ s', ComponentList.Insert 7 70 sample_store = Ok tt s'
      ∧ ComponentList.Get 7 s' = Ok 70 s'
      ∧ ComponentList.Get 2 s' = Ok 20 s'.
Proof.
  destruct (insert_then_get sample_store 7 70 sample_store_packed)
    as (s' & Hins & _ & Hget & Hothers).
  - reflexivity.
  - reflexivity.
  - exists s'. split; [exact Hins|]. split; [exact Hget|].
    destruct (Hothers 2 1) as (_ & _ & Hget2).
    + vm_compute. congruence.
    + reflexivity.
    + exact Hget2.
Defined.

(** Entity [7] joins and leaves the sample store. *)
Lemma insert_then_remove_witness :
  ∃ s', (ComponentList.Insert 7 70;; ComponentList.Remove 7)%ecs sample_store
          = Ok tt s'
      ∧ Store.count s' = 2
      ∧ ComponentList.entity_to_component_index_ s' = {[1 := 0; 2 := 1]}.
Proof.
  destruct (insert_then_remove sample_store 7 70 sample_store_packed)
    as (s' & Hrun & Hcount & He2i & _).
  - reflexivity.
  - reflexivity.
  - exists s'. split; [exact Hrun|]. split; [exact Hcount|]. exact He2i.
Defined.

(** Removing the entity [1] from the sample store keeps [20] for entity [2]. *)
Lemma remove_keeps_others_witness :
  ∃ s', ComponentList.Remove 1 sample_store = Ok tt s'
      ∧ ComponentList.Get 1 s' = Throw NotFound s'
      ∧ ComponentList.Get 2 s' = Ok 20 s'.
Proof.
  destruct (remove_keeps_others sample_store 1 0 sample_store_packed)
    as (s' & Hrun & _ & Hgone & Hothers & _).
  - reflexivity.
  - exists s'. split; [exact Hrun|]. split; [exact Hgone|].
    destruct (Hothers 2 1) as (_ & Hget2).
    + vm_compute. congruence.
    + reflexivity.
    + exact Hget2.
Defined.

(** In the sample store [Get] finds the entity [2] and not the entity [9]. *)
Lemma Get_is_read_only_witness :
  ComponentList.Get 9 sample_store = Throw NotFound sample_store
  ∧ ∃ v, ComponentList.Get 2 sample_store = Ok v sample_store.
Proof.
  destruct (Get_is_read_only sample_store 9) as (_ & _ & Habsent & _).
  destruct (Get_is_read_only sample_store 2) as (_ & _ & _ & Hpresent).
  split.
  - apply Habsent. reflexivity.
  - apply Hpresent; [exact sample_store_packed|]. exists 1. reflexivity.
Defined.

(** The hook takes the entity [1] out of the sample store, once. *)
Lemma store_hook_idempotent_witness :
  ∃ s1, ComponentList.EntityWasDestroyed 1 sample_store = Ok tt s1
      ∧ Store.slot_of s1 1 = None
      ∧ ComponentList.EntityWasDestroyed 1 s1 = Ok tt s1.
Proof.
  destruct (store_hook_idempotent sample_store 1) as [Honce Hpacked].
  destruct (Hpacked sample_store_packed) as (s1 & Hrun & _).
  destruct (Honce s1 Hrun) as [Habsent Htwice].
  exists s1. split; [exact Hrun|]. split; [exact Habsent|]. exact Htwice.
Defined.

(** ** The entity manager: signatures, reuse order, uniqueness *)

Lemma create_n_pool (n : nat) : ∀ em,
  (n ≤ length (EntityManager.available_entities_ em))%nat →
  create_n n em
    = Ok (take n (EntityManager.available_entities_ em))
        (EntityManager.Build (drop n (EntityManager.available_entities_ em))
                             (EntityManager.entity_signatures_ em)).
Proof.
  induction n as [|n IH]; intros em Hn.
  { cbn [create_n take drop]. unfold ret. by destruct em. }
  destruct (EntityManager.available_entities_ em) as [|entity rest] eqn:Hq;
    [simpl in Hn; lia|].
  cbn [create_n]. rewrite (bind_Ok _ _ _ _ _ (CreateEntity_pool em entity rest Hq)).
  erewrite bind_Ok; [|apply IH; simpl in *; lia]. reflexivity.
Qed.

(** X6.  [SetSignature] followed by [GetSignature] returns the signature
    just set, for every identifier below [kMaxEntities]; the pool and the
    signatures of all other entities are untouched.  For an identifier of
    [kMaxEntities] or more both accessors throw the out-of-range error and
    change nothing. *)
Theorem signature_round_trip em (e signature : Z) :
  0 ≤ e →
  (e < kMaxEntities →
     ∃ em', EntityManager.SetSignature e signature em = Ok tt em'
       ∧ EntityManager.GetSignature e em' = Ok signature em'
       ∧ EntityManager.available_entities_ em' = EntityManager.available_entities_ em
       ∧ ∀ e', e' ≠ e → signature_of em' e' = signature_of em e')
  ∧ (kMaxEntities ≤ e →
       EntityManager.SetSignature e signature em = Throw OutOfRange em
       ∧ EntityManager.GetSignature e em = Throw OutOfRange em).
Proof.
  intros Hnn. split.
  - intros Hlt. eexists. split; [by apply SetSignature_in_range|].
    split; [|split; [done|]].
    + rewrite GetSignature_in_range by done.
      cbn [EntityManager.entity_signatures_]. by rewrite lookup_insert_eq.
    + intros e' Hne. unfold signature_of. cbn [EntityManager.entity_signatures_].
      by rewrite lookup_insert_ne.
  - intros Hge. split;
      [by apply SetSignature_out_of_range | by apply GetSignature_out_of_range].
Qed.

(** On the manager as constructed the entity [3] is given the signature [5]. *)
Lemma signature_round_trip_witness :
  ∃ em', EntityManager.SetSignature 3 5 EntityManager.new = Ok tt em'
       ∧ EntityManager.GetSignature 3 em' = Ok 5 em'.
Proof.
  destruct (signature_round_trip EntityManager.new 3 5) as [Hin _]; [lia|].
  destruct Hin as (em' & Hset & Hget & _); [by rewrite kMaxEntities_eq|].
  exists em'. split; [exact Hset | exact Hget].
Defined.

(** X7.  The pool is first in, first out: an identifier handed back by
    [DestroyEntity] is issued again only after every identifier that was
    waiting in the pool before it, and it comes back with an empty
    signature. *)
Theorem destroyed_id_is_reused_last em (e : Z) :
  0 ≤ e < kMaxEntities →
  ∃ em1 em2 em3,
    EntityManager.DestroyEntity e em = Ok tt em1
    ∧ create_n (length (EntityManager.available_entities_ em)) em1
        = Ok (EntityManager.available_entities_ em) em2
    ∧ EntityManager.CreateEntity em2 = Ok e em3
    ∧ EntityManager.available_entities_ em3 = []
    ∧ EntityManager.GetSignature e em3 = Ok 0 em3.
Proof.
  intros He.
  set (pool := EntityManager.available_entities_ em).
  assert (Hcreate : create_n (length pool) (Lifetime.destroyed e em)
            = Ok pool (EntityManager.Build [e]
                         (<[e := 0]> (EntityManager.entity_signatures_ em)))).
  { rewrite create_n_pool.
    - unfold Lifetime.destroyed.
      cbn [EntityManager.available_entities_ EntityManager.entity_signatures_].
      fold pool. by rewrite take_app_length, drop_app_length.
    - unfold Lifetime.destroyed. cbn [EntityManager.available_entities_].
      fold pool. rewrite length_app. lia. }
  eexists _, _, _. split; [by apply DestroyEntity_in_range|].
  split; [exact Hcreate|].
  split; [by apply CreateEntity_pool|].
  split; [done|].
  rewrite GetSignature_in_range by done.
  cbn [EntityManager.entity_signatures_]. by rewrite lookup_insert_eq.
Qed.

(** On the manager as constructed the destroyed entity [4] comes back after
    the [kMaxEntities] identifiers of the pool. *)
Lemma destroyed_id_is_reused_last_witness :
  ∃ em1 em2 em3,
    EntityManager.DestroyEntity 4 EntityManager.new = Ok tt em1
    ∧ create_n (length (EntityManager.available_entities_ EntityManager.new)) em1
        = Ok (EntityManager.available_entities_ EntityManager.new) em2
    ∧ EntityManager.CreateEntity em2 = Ok 4 em3.
Proof.
  destruct (destroyed_id_is_reused_last EntityManager.new 4)
    as (em1 & em2 & em3 & Hdestroy & Hcreate & Hlast & _).
  - by rewrite kMaxEntities_eq.
  - exists em1, em2, em3. split; [exact Hdestroy|]. split; [exact Hcreate | exact Hlast].
Defined.

Lemma step_keeps_ids_apart o t t' :
  (match o with Lifetime.OpDestroy e => e ∈ Lifetime.live t | _ => True end) →
  Lifetime.step o t = Some t' →
  let pool x := EntityManager.available_entities_ (Lifetime.manager x) in
  NoDup (pool t) →
  (∀ e, e ∈ pool t → e ∉ Lifetime.live t) →
  (∀ e, 0 ≤ e < kMaxEntities → e ∈ pool t ∨ e ∈ Lifetime.live t) →
  NoDup (pool t')
  ∧ (∀ e, e ∈ pool t' → e ∉ Lifetime.live t')
  ∧ (∀ e, 0 ≤ e < kMaxEntities → e ∈ pool t' ∨ e ∈ Lifetime.live t').
Proof.
  intros Hlive Hstep pool Hnd Hapart Hall. unfold pool in *.
  destruct o as [|e|e sig]; cbn [Lifetime.step] in Hstep.
  - destruct (EntityManager.available_entities_ (Lifetime.manager t))
      as [|e rest] eqn:Hq.
    + rewrite (CreateEntity_empty _ Hq) in Hstep. simplify_eq.
      cbn [Lifetime.manager Lifetime.live]. by rewrite Hq.
    + rewrite (CreateEntity_pool _ e rest Hq) in Hstep. simplify_eq.
      cbn [Lifetime.manager Lifetime.live EntityManager.available_entities_].
      apply NoDup_cons in Hnd as [Hfresh Hnd].
      split; [done|]. split.
      * intros x Hx. rewrite elem_of_union, elem_of_singleton.
        intros [Hin| ->]; [|done]. apply (Hapart x); [by right | done].
      * intros x Hx. destruct (Hall x Hx) as [Hin|Hin].
        -- apply elem_of_cons in Hin as [->|Hin]; [|by left].
           right. apply elem_of_union. right. by apply elem_of_singleton.
        -- right. apply elem_of_union. by left.
  - destruct (decide (kMaxEntities ≤ e)) as [Hge|Hlt].
    { rewrite DestroyEntity_out_of_range in Hstep by done. by simplify_eq. }
    destruct (decide (0 ≤ e)) as [Hnn|Hneg].
    + rewrite DestroyEntity_in_range in Hstep by lia. simplify_eq.
      unfold Lifetime.destroyed.
      cbn [Lifetime.manager Lifetime.live EntityManager.available_entities_].
      split; [|split].
      * apply NoDup_app. split; [done|]. split; [|apply NoDup_singleton].
        intros x Hx Hxe. apply list_elem_of_singleton in Hxe as ->.
        by apply (Hapart e).
      * intros x Hx. rewrite elem_of_difference, elem_of_singleton.
        apply elem_of_app in Hx as [Hx|Hx].
        -- intros [Hin _]. by apply (Hapart x).
        -- apply list_elem_of_singleton in Hx as ->. tauto.
      * intros x Hx. destruct (decide (x = e)) as [->|Hne].
        -- left. apply elem_of_app. right. by apply list_elem_of_singleton.
        -- destruct (Hall x Hx) as [Hin|Hin].
           ++ left. apply elem_of_app. by left.
           ++ right. apply elem_of_difference. split; [done|].
              by rewrite elem_of_singleton.
    + revert Hstep.
      unfold EntityManager.DestroyEntity, EntityManager.CheckEntityOutOfBound,
        array_write, in_bounds.
      run_monad. rewrite decide_False by lia. simpl.
      rewrite decide_False by lia. done.
  - revert Hstep.
    unfold EntityManager.SetSignature, EntityManager.CheckEntityOutOfBound,
      array_write.
    run_monad. repeat (case_decide; simpl); intros; by simplify_eq.
Qed.

Lemma run_keeps_ids_apart ops : ∀ t t',
  Lifetime.run ops t = Some t' → destroys_live ops t →
  let pool x := EntityManager.available_entities_ (Lifetime.manager x) in
  NoDup (pool t) →
  (∀ e, e ∈ pool t → e ∉ Lifetime.live t) →
  (∀ e, 0 ≤ e < kMaxEntities → e ∈ pool t ∨ e ∈ Lifetime.live t) →
  NoDup (pool t')
  ∧ (∀ e, e ∈ pool t' → e ∉ Lifetime.live t')
  ∧ (∀ e, 0 ≤ e < kMaxEntities → e ∈ pool t' ∨ e ∈ Lifetime.live t').
Proof.
  induction ops as [|o ops IH]; intros t t' Hrun Hused pool Hnd Hapart Hall;
    simpl in Hrun.
  { by simplify_eq. }
  destruct Hused as [Hlive Hused].
  destruct (Lifetime.step o t) as [t1|] eqn:Hstep; [|done]. simpl in Hrun.
  destruct (step_keeps_ids_apart o t t1 Hlive Hstep Hnd Hapart Hall)
    as (Hnd1 & Hapart1 & Hall1).
  by apply (IH t1 t').
Qed.

(** X8.  As long as [DestroyEntity] is only called on identifiers that are
    checked out, no identifier waits in the pool twice, none is both in the
    pool and checked out, and none below [kMaxEntities] is lost; so
    [CreateEntity] never returns an identifier that is still checked out. *)
Theorem live_ids_are_unique ops t :
  Lifetime.run ops Lifetime.fresh = Some t →
  destroys_live ops Lifetime.fresh →
  let pool := EntityManager.available_entities_ (Lifetime.manager t) in
  NoDup pool
  ∧ (∀ e, e ∈ pool → e ∉ Lifetime.live t)
  ∧ (∀ e, 0 ≤ e < kMaxEntities → e ∈ pool ∨ e ∈ Lifetime.live t)
  ∧ (∀ e em', EntityManager.CreateEntity (Lifetime.manager t) = Ok e em' →
       (e ∉ Lifetime.live t) ∧ (e ∉ EntityManager.available_entities_ em')).
Proof.
  intros Hrun Hused pool.
  destruct (run_keeps_ids_apart ops Lifetime.fresh t Hrun Hused)
    as (Hnd & Hapart & Hall).
  - cbn [Lifetime.fresh Lifetime.manager]. rewrite new_pool. apply NoDup_seqZ.
  - intros e _. cbn [Lifetime.fresh Lifetime.live]. apply not_elem_of_empty.
  - intros e He. left. cbn [Lifetime.fresh Lifetime.manager]. rewrite new_pool.
    apply elem_of_seqZ. lia.
  - split; [done|]. split; [done|]. split; [done|].
    intros e em' Hcreate. unfold pool in *.
    destruct (EntityManager.available_entities_ (Lifetime.manager t))
      as [|e0 rest] eqn:Hq.
    { by rewrite (CreateEntity_empty _ Hq) in Hcreate. }
    rewrite (CreateEntity_pool _ e0 rest Hq) in Hcreate. simplify_eq.
    cbn [EntityManager.available_entities_].
    apply NoDup_cons in Hnd as [Hfresh _].
    split; [|done]. apply Hapart. by left.
Qed.

(** Two creations and the destruction of the first entity created. *)
Lemma live_ids_are_unique_witness :
  ∃ t, Lifetime.run [Lifetime.OpCreate; Lifetime.OpCreate; Lifetime.OpDestroy 0]
         Lifetime.fresh = Some t
     ∧ NoDup (EntityManager.available_entities_ (Lifetime.manager t))
     ∧ 1 ∈ Lifetime.live t.
Proof.
  assert (Hq : ∃ rest, EntityManager.available_entities_ EntityManager.new
                       = 0 :: 1 :: rest).
  { rewrite new_pool. exists (seqZ 2 (kMaxEntities - 2)).
    rewrite seqZ_cons by (by rewrite kMaxEntities_eq).
    rewrite seqZ_cons by (by rewrite kMaxEntities_eq).
    repeat f_equal. }
  destruct Hq as [rest Hq].
  assert (Hfirst : Lifetime.step Lifetime.OpCreate Lifetime.fresh
            = Some (Lifetime.Tracked
                      (EntityManager.Build (1 :: rest)
                         (EntityManager.entity_signatures_ EntityManager.new))
                      (∅ ∪ {[0]}) (∅ ∪ {[0]}))).
  { cbn [Lifetime.step Lifetime.fresh Lifetime.manager Lifetime.issued Lifetime.live].
    by rewrite (CreateEntity_pool _ 0 (1 :: rest) Hq). }
  assert (Hin : 0 ≤ 0 < kMaxEntities) by (by rewrite kMaxEntities_eq).
  assert (Hrun : ∃ t, Lifetime.run
                   [Lifetime.OpCreate; Lifetime.OpCreate; Lifetime.OpDestroy 0]
                   Lifetime.fresh = Some t
                 ∧ 1 ∈ Lifetime.live t
                 ∧ destroys_live
                     [Lifetime.OpCreate; Lifetime.OpCreate; Lifetime.OpDestroy 0]
                     Lifetime.fresh).
  { eexists. split; [|split].
    - cbn [Lifetime.run]. rewrite Hfirst.
      cbn [mbind option_bind Lifetime.run Lifetime.step Lifetime.manager
           Lifetime.issued Lifetime.live].
      erewrite CreateEntity_pool; [|reflexivity].
      cbn [mbind option_bind Lifetime.run Lifetime.step Lifetime.manager
           Lifetime.issued Lifetime.live].
      rewrite DestroyEntity_in_range by exact Hin. reflexivity.
    - cbn [Lifetime.live]. set_solver.
    - cbn [destroys_live]. rewrite Hfirst.
      cbn [Lifetime.step Lifetime.manager Lifetime.issued Lifetime.live].
      erewrite CreateEntity_pool; [|reflexivity].
      cbn [Lifetime.step Lifetime.manager Lifetime.issued Lifetime.live].
      rewrite DestroyEntity_in_range by exact Hin.
      split; [done|]. split; [done|]. split; [set_solver | done]. }
  destruct Hrun as (t & Hrun & Hlive & Hused).
  exists t. split; [exact Hrun|]. split; [|exact Hlive].
  exact (proj1 (live_ids_are_unique _ t Hrun Hused)).
Defined.

(** ** The component manager: registry and typed stores *)

Section ManagerExtras.
Context {V : Type} `{Inhabited V}.
Implicit Types (cm : ComponentManager.t V) (l : ComponentList.t V) (T : TypeName).

Lemma on_component_list_Ok_inv {A} cm cm' T (op : M (ComponentList.t V) A) a :
  ComponentManager.on_component_list T op cm = Ok a cm' →
  ∃ l l', ComponentManager.component_lists_ cm !! T = Some l
        ∧ op l = Ok a l' ∧ cm' = ComponentManager.set_list T l' cm.
Proof.
  unfold ComponentManager.on_component_list. run_monad.
  destruct (ComponentManager.component_lists_ cm !! T) as [l|] eqn:HT; [|done].
  destruct (op l) as [a1 l1|err1 l1|] eqn:Hrun; [|done..].
  intros. simplify_eq. by exists l, l1.
Qed.

Lemma on_component_list_Ok {A} cm T (op : M (ComponentList.t V) A) l a l' :
  ComponentManager.component_lists_ cm !! T = Some l → op l = Ok a l' →
  ComponentManager.on_component_list T op cm
    = Ok a (ComponentManager.set_list T l' cm).
Proof.
  intros HT Hop. unfold ComponentManager.on_component_list. run_monad.
  by rewrite HT, Hop.
Qed.

Lemma manager_AddComponent_Ok_inv cm cm' T e (c : V) :
  ComponentManager.AddComponent T e c cm = Ok tt cm' →
  ∃ cm0 l l',
    (cm0 = cm ∧ is_Some (ComponentManager.component_types_ cm !! T)
     ∨ ComponentManager.component_types_ cm !! T = None
       ∧ ComponentManager.RegisterComponent T cm = Ok tt cm0)
    ∧ ComponentManager.component_lists_ cm0 !! T = Some l
    ∧ ComponentList.Insert e c l = Ok tt l'
    ∧ cm' = ComponentManager.set_list T l' cm0.
Proof.
  unfold ComponentManager.AddComponent. unfold bind at 1. unfold get.
  destruct (bool_decide (is_Some (ComponentManager.component_types_ cm !! T))) eqn:HT.
  - apply bool_decide_eq_true in HT. unfold bind, ret. intros Hrun.
    apply on_component_list_Ok_inv in Hrun as (l & l' & Hl & Hins & ->).
    exists cm, l, l'. split; [by left|]. done.
  - apply bool_decide_eq_false in HT.
    apply eq_None_not_Some in HT.
    rewrite (bind_Ok _ _ _ _ _ (RegisterComponent_fresh cm T HT)).
    intros Hrun.
    apply on_component_list_Ok_inv in Hrun as (l & l' & Hl & Hins & ->).
    eexists _, l, l'. split; [right; split; [done|]; by apply RegisterComponent_fresh|].
    done.
Qed.

Lemma for_each_relates {St K A} (body : K → A → M St unit) (R : St → St → Prop) :
  (∀ s, R s s) → (∀ s1 s2 s3, R s1 s2 → R s2 s3 → R s1 s3) →
  (∀ k a s u s', body k a s = Ok u s' → R s s') →
  (∀ k a s err s', body k a s = Throw err s' → R s s') →
  ∀ entries s,
    match for_each entries body s with
    | Ok _ s' | Throw _ s' => R s s'
    | Undefined => True
    end.
Proof.
  intros Hrefl Htrans HOk HThrow entries.
  induction entries as [|[k a] entries IH]; intros s; cbn [for_each].
  { apply Hrefl. }
  unfold bind. destruct (body k a s) as [u s1|err s1|] eqn:Hbody; [| |done].
  - specialize (IH s1). apply HOk in Hbody.
    destruct (for_each entries body s1); [| |done]; by apply (Htrans _ s1).
  - by apply HThrow in Hbody.
Qed.

(** What the broadcast of a destruction leaves in the component manager. *)
Lemma notify_loop_Ok e (entries : list (positive * ComponentList.t V)) :
  NoDup entries.*1 → ∀ cm cm',
  for_each entries (ComponentManager.notify_list e) cm = Ok tt cm' →
  ComponentManager.component_types_ cm' = ComponentManager.component_types_ cm
  ∧ ComponentManager.next_component_type_ cm'
      = ComponentManager.next_component_type_ cm
  ∧ ∀ T,
      match (list_to_map entries : gmap positive (ComponentList.t V)) !! T with
      | Some l => ∃ l', ComponentList.EntityWasDestroyed e l = Ok tt l'
                      ∧ ComponentManager.component_lists_ cm' !! T = Some l'
      | None => ComponentManager.component_lists_ cm' !! T
                = ComponentManager.component_lists_ cm !! T
      end.
Proof.
  induction entries as [|[k a] entries IH]; intros Hnd cm cm' Hrun.
  { cbn [for_each] in Hrun. unfold ret in Hrun. simplify_eq.
    split; [done|]. split; [done|]. intros T. cbn [list_to_map foldr].
    by rewrite lookup_empty. }
  apply NoDup_cons in Hnd as [Hk Hnd]. cbn [for_each] in Hrun.
  apply bind_Ok_inv in Hrun as ([] & cm1 & Hbody & Hrun).
  unfold ComponentManager.notify_list in Hbody.
  apply within_Ok_inv in Hbody as (a' & Hhook & ->).
  destruct (IH Hnd _ _ Hrun) as (Htypes & Hnext & Hlists).
  split; [done|]. split; [done|].
  intros T. cbn [list_to_map foldr curry fst snd]. specialize (Hlists T).
  destruct (decide (k = T)) as [<-|Hne].
  - rewrite lookup_insert_eq. exists a'. split; [done|].
    rewrite (not_elem_of_list_to_map_1 _ _ Hk) in Hlists. rewrite Hlists.
    unfold ComponentManager.set_list. cbn [ComponentManager.component_lists_].
    by rewrite lookup_insert_eq.
  - rewrite (lookup_insert_ne _ _ _ _ Hne).
    destruct (list_to_map entries !! T); [done|].
    rewrite Hlists. unfold ComponentManager.set_list.
    cbn [ComponentManager.component_lists_]. by rewrite lookup_insert_ne.
Qed.

Lemma manager_EntityWasDestroyed_Ok_inv cm cm' e :
  ComponentManager.EntityWasDestroyed e cm = Ok tt cm' →
  ComponentManager.component_types_ cm' = ComponentManager.component_types_ cm
  ∧ ComponentManager.next_component_type_ cm'
      = ComponentManager.next_component_type_ cm
  ∧ ∀ T,
      match ComponentManager.component_lists_ cm !! T with
      | Some l => ∃ l', ComponentList.EntityWasDestroyed e l = Ok tt l'
                      ∧ ComponentManager.component_lists_ cm' !! T = Some l'
      | None => ComponentManager.component_lists_ cm' !! T = None
      end.
Proof.
  unfold ComponentManager.EntityWasDestroyed. unfold bind at 1. unfold get.
  intros Hrun.
  destruct (notify_loop_Ok e _ (NoDup_fst_map_to_list _) _ _ Hrun)
    as (Htypes & Hnext & Hlists).
  split; [done|]. split; [done|]. intros T. specialize (Hlists T).
  rewrite list_to_map_to_list in Hlists.
  destruct (ComponentManager.component_lists_ cm !! T); [done|]. by rewrite Hlists.
Qed.

Lemma manager_call_unchanged (c : manager_call V) cm :
  (∀ err cm', perform_manager c cm = Throw err cm' → cm' = cm)
  ∧ (∀ cm', perform_manager c cm = Ok tt cm' →
       match c with
       | ManagerGetComponent _ _ | ManagerGetComponentType _ => cm' = cm
       | _ => True
       end).
Proof.
  split.
  - intros err cm' Hrun. destruct c as [T|T e v|T e|T e|T|e]; cbn [perform_manager] in Hrun.
    + destruct (RegisterComponent_total cm T) as [cm1 Hok].
      rewrite Hok in Hrun. discriminate.
    + by apply manager_AddComponent_Throw_inv in Hrun as [-> _].
    + by apply manager_RemoveComponent_Throw_inv in Hrun as [-> _].
    + apply bind_Throw_inv in Hrun as [Hrun|(? & ? & _ & ?)]; [|done].
      revert Hrun. apply on_component_list_Throw_inv.
      intros l l' err' Hget. pose proof (Get_inv l e) as Hinv.
      rewrite Hget in Hinv. by destruct Hinv.
    + apply bind_Throw_inv in Hrun as [Hrun|(? & ? & _ & ?)]; [|done].
      revert Hrun. unfold ComponentManager.GetComponentType. run_monad.
      destruct (ComponentManager.component_types_ cm !! T); [done|].
      intros; by simplify_eq.
    + by apply manager_EntityWasDestroyed_no_throw in Hrun.
  - intros cm' Hrun. destruct c as [T|T e v|T e|T e|T|e]; try done;
      cbn [perform_manager] in Hrun.
    + apply bind_Ok_inv in Hrun as (v & cm1 & Hrun & Hret).
      unfold ret in Hret. simplify_eq.
      apply on_component_list_Ok_inv in Hrun as (l & l' & Hl & Hget & ->).
      pose proof (Get_inv l e) as Hinv. rewrite Hget in Hinv.
      destruct Hinv as [-> _]. by apply set_list_id.
    + apply bind_Ok_inv in Hrun as (v & cm1 & Hrun & Hret).
      unfold ret in Hret. simplify_eq. revert Hrun.
      unfold ComponentManager.GetComponentType. run_monad.
      destruct (ComponentManager.component_types_ cm !! T); [|done].
      intros; by simplify_eq.
Qed.

(** X9.  The component manager gives the strong exception guarantee: a
    member function that throws leaves the manager exactly as it was, and
    the two lookups [GetComponent] and [GetComponentType] leave it as it was
    when they return, too. *)
Theorem manager_exceptions_change_nothing (c : manager_call V) cm :
  (∀ err cm', perform_manager c cm = Throw err cm' → cm' = cm)
  ∧ (∀ cm', perform_manager c cm = Ok tt cm' →
       match c with
       | ManagerGetComponent _ _ | ManagerGetComponentType _ => cm' = cm
       | _ => True
       end).
Proof. exact (manager_call_unchanged c cm). Qed.

End ManagerExtras.

Section RegistryProps.
Context {V : Type} `{Inhabited V}.
Implicit Types (cm : ComponentManager.t V) (l : ComponentList.t V) (T : TypeName).

Lemma registry_ok_new : registry_ok (ComponentManager.new (V:=V)).
Proof.
  unfold registry_ok, ComponentManager.new.
  cbn [ComponentManager.component_types_ ComponentManager.component_lists_
       ComponentManager.next_component_type_].
  split; [|split].
  - intros T. by rewrite !lookup_empty.
  - by rewrite map_size_empty.
  - intros _. split; intros *; by rewrite lookup_empty.
Qed.

Lemma registry_ok_set_list cm T l l' :
  ComponentManager.component_lists_ cm !! T = Some l →
  registry_ok cm → registry_ok (ComponentManager.set_list T l' cm).
Proof.
  intros HT (Hdom & Hnext & Hids). unfold registry_ok, ComponentManager.set_list.
  cbn [ComponentManager.component_types_ ComponentManager.component_lists_
       ComponentManager.next_component_type_].
  split; [|done]. intros T'. rewrite Hdom, lookup_insert.
  case_decide; [subst; rewrite HT; split; by eexists | done].
Qed.

Lemma registry_ok_register cm cm' T :
  registry_ok cm → ComponentManager.RegisterComponent T cm = Ok tt cm' →
  registry_ok cm'
  ∧ (∀ T' id, ComponentManager.component_types_ cm !! T' = Some id →
              ComponentManager.component_types_ cm' !! T' = Some id)
  ∧ (∀ T', T' ≠ T →
       ComponentManager.component_lists_ cm' !! T'
         = ComponentManager.component_lists_ cm !! T'
       ∧ ComponentManager.component_types_ cm' !! T'
         = ComponentManager.component_types_ cm !! T')
  ∧ (ComponentManager.component_types_ cm !! T = None →
       ComponentManager.component_lists_ cm' !! T = Some ComponentList.empty
       ∧ ComponentManager.component_types_ cm' !! T
           = Some (ComponentManager.next_component_type_ cm)).
Proof.
  intros Hok Hrun.
  destruct (ComponentManager.component_types_ cm !! T) as [id0|] eqn:HT.
  { rewrite RegisterComponent_known in Hrun by (by eexists). simplify_eq.
    split; [done|]. split; [done|]. split; [done|]. done. }
  rewrite (RegisterComponent_fresh cm T HT) in Hrun. simplify_eq.
  destruct Hok as (Hdom & Hnext & Hids).
  cbn [ComponentManager.component_types_ ComponentManager.component_lists_
       ComponentManager.next_component_type_].
  split; [|split; [|split]].
  - unfold registry_ok.
    cbn [ComponentManager.component_types_ ComponentManager.component_lists_
         ComponentManager.next_component_type_].
    rewrite (map_size_insert_None _ _ _ HT).
    unfold type_id_space, wrap_uint16 in *.
    split; [|split].
    + intros T'. rewrite !lookup_insert. case_decide; [split; by eexists|apply Hdom].
    + rewrite Hnext, Z.add_mod_idemp_l by done. f_equal. lia.
    + intros Hsize.
      assert (Hsmall : Z.of_nat (size (ComponentManager.component_types_ cm)) < 2 ^ 16)
        by lia.
      destruct Hids as [Hrange Hinj]; [lia|].
      rewrite Z.mod_small in Hnext by lia.
      split.
      * intros T' id. rewrite lookup_insert. case_decide; intros Hid; simplify_eq.
        -- lia.
        -- apply Hrange in Hid. lia.
      * intros T1 T2 id. rewrite !lookup_insert.
        repeat case_decide; intros Hid1 Hid2; simplify_eq; try done.
        -- apply Hrange in Hid2. lia.
        -- apply Hrange in Hid1. lia.
        -- by apply (Hinj T1 T2 id).
  - intros T' id Hid. rewrite lookup_insert_ne; [done|]. intros ->. congruence.
  - intros T' Hne. by rewrite !lookup_insert_ne.
  - intros _. by rewrite !lookup_insert_eq.
Qed.

Lemma stores_packed_set_list cm T l' :
  stores_packed cm → Store.packed l' →
  stores_packed (ComponentManager.set_list T l' cm).
Proof.
  intros Hp Hl' T' l. unfold ComponentManager.set_list.
  cbn [ComponentManager.component_lists_]. rewrite lookup_insert.
  case_decide; intros; simplify_eq; [done|]. by apply (Hp T').
Qed.

Lemma stores_packed_register cm cm' T :
  stores_packed cm → ComponentManager.RegisterComponent T cm = Ok tt cm' →
  stores_packed cm'.
Proof.
  intros Hp Hrun.
  destruct (ComponentManager.component_types_ cm !! T) as [id0|] eqn:HT.
  { rewrite RegisterComponent_known in Hrun by (by eexists). by simplify_eq. }
  rewrite (RegisterComponent_fresh cm T HT) in Hrun. simplify_eq.
  intros T' l. cbn [ComponentManager.component_lists_]. rewrite lookup_insert.
  case_decide; intros; simplify_eq; [apply packed_empty|]. by apply (Hp T').
Qed.

(** The effect of a successful call on the registry and on the stores. *)
Lemma manager_call_keeps cm cm' (c : manager_call V) :
  perform_manager c cm = Ok tt cm' →
  registry_ok cm → stores_packed cm →
  registry_ok cm' ∧ stores_packed cm'
  ∧ ∀ T id, ComponentManager.component_types_ cm !! T = Some id →
            ComponentManager.component_types_ cm' !! T = Some id.
Proof.
  intros Hrun Hok Hp.
  destruct c as [T|T e v|T e|T e|T|e]; cbn [perform_manager] in Hrun.
  - destruct (registry_ok_register cm cm' T Hok Hrun) as (Hok' & Hkeep & _).
    split; [done|]. split; [by apply (stores_packed_register cm cm' T)|done].
  - apply manager_AddComponent_Ok_inv in Hrun
      as (cm0 & l & l' & Hreg & Hl & Hins & ->).
    assert (registry_ok cm0 ∧ stores_packed cm0
            ∧ ∀ T' id, ComponentManager.component_types_ cm !! T' = Some id →
                       ComponentManager.component_types_ cm0 !! T' = Some id)
      as (Hok0 & Hp0 & Hkeep).
    { destruct Hreg as [[-> _]|[_ Hreg]]; [done|].
      destruct (registry_ok_register cm cm0 T Hok Hreg) as (? & ? & _).
      split; [done|]. split; [by apply (stores_packed_register cm cm0 T)|done]. }
    split; [by apply (registry_ok_set_list cm0 T l)|].
    split; [|done].
    apply stores_packed_set_list; [done|].
    by apply (Insert_packed l e v l' (Hp0 T l Hl)).
  - unfold ComponentManager.RemoveComponent in Hrun.
    apply on_component_list_Ok_inv in Hrun as (l & l' & Hl & Hrem & ->).
    split; [by apply (registry_ok_set_list cm T l)|]. split; [|done].
    apply stores_packed_set_list; [done|].
    by apply (Remove_packed l e l' (Hp T l Hl)).
  - destruct (manager_call_unchanged (ManagerGetComponent T e) cm)
      as [_ Hsame].
    by rewrite (Hsame cm' Hrun).
  - destruct (manager_call_unchanged (ManagerGetComponentType T) cm)
      as [_ Hsame].
    by rewrite (Hsame cm' Hrun).
  - apply manager_EntityWasDestroyed_Ok_inv in Hrun as (Htypes & Hnext & Hlists).
    split; [|split].
    + destruct Hok as (Hdom & Hn & Hids). unfold registry_ok.
      rewrite Htypes, Hnext. split; [|done].
      intros T. rewrite Hdom. specialize (Hlists T).
      destruct (ComponentManager.component_lists_ cm !! T).
      * destruct Hlists as (l' & _ & ->). split; by eexists.
      * by rewrite Hlists.
    + intros T l' Hl'. specialize (Hlists T).
      destruct (ComponentManager.component_lists_ cm !! T) as [l|] eqn:Hl;
        [|congruence].
      destruct Hlists as (l1 & Hhook & Hl1). simplify_eq.
      destruct (store_hook_facts l e) as [_ Hpacked].
      destruct (Hpacked (Hp T l Hl)) as (l2 & Hhook2 & Hp2 & _).
      congruence.
    + intros T id. by rewrite Htypes.
Qed.

Lemma manager_run_keeps (calls : list (manager_call V)) : ∀ cm cm',
  run_calls perform_manager calls cm = Some cm' →
  registry_ok cm → stores_packed cm →
  registry_ok cm' ∧ stores_packed cm'
  ∧ ∀ T id, ComponentManager.component_types_ cm !! T = Some id →
            ComponentManager.component_types_ cm' !! T = Some id.
Proof.
  induction calls as [|c calls IH]; intros cm cm' Hrun Hok Hp; simpl in Hrun.
  { by simplify_eq. }
  destruct (perform_manager c cm) as [[] cm1|err cm1|] eqn:Hcall; [| |done].
  - destruct (manager_call_keeps cm cm1 c Hcall Hok Hp) as (Hok1 & Hp1 & Hkeep1).
    destruct (IH cm1 cm' Hrun Hok1 Hp1) as (Hok' & Hp' & Hkeep').
    split; [done|]. split; [done|]. intros T id Hid. by apply Hkeep', Hkeep1.
  - destruct (manager_call_unchanged c cm) as [Hsame _].
    rewrite (Hsame err cm1 Hcall) in Hrun. by apply IH.
Qed.

(** X10.  The identifier of a component type is permanent: whatever calls
    are made on the component manager after a type has been registered, the
    type keeps its identifier, and registering it again changes nothing. *)
Theorem component_type_id_is_permanent (calls : list (manager_call V)) cm cm' T id :
  registry_ok cm → stores_packed cm →
  run_calls perform_manager calls cm = Some cm' →
  ComponentManager.component_types_ cm !! T = Some id →
  ComponentManager.GetComponentType T cm' = Ok id cm'
  ∧ ComponentManager.RegisterComponent T cm' = Ok tt cm'.
Proof.
  intros Hok Hp Hrun Hid.
  destruct (manager_run_keeps calls cm cm' Hrun Hok Hp) as (_ & _ & Hkeep).
  apply Hkeep in Hid. split.
  - by apply GetComponentType_registered.
  - apply RegisterComponent_known. by eexists.
Qed.

Lemma manager_GetComponent_outcome cm T e :
  registry_ok cm → stores_packed cm →
  match ComponentManager.GetComponent T e cm with
  | Ok _ cm' => cm' = cm ∧ stored cm T e
  | Throw err cm' =>
      cm' = cm ∧ ¬ stored cm T e
      ∧ (err = NotFound
         ∧ is_Some (ComponentManager.component_types_ cm !! T)
         ∨ err = MissingComponentList
           ∧ ComponentManager.component_types_ cm !! T = None)
  | Undefined => False
  end.
Proof.
  intros (Hdom & _) Hp.
  unfold ComponentManager.GetComponent, ComponentManager.on_component_list, stored.
  run_monad.
  destruct (ComponentManager.component_lists_ cm !! T) as [l|] eqn:Hl.
  - pose proof (Get_inv l e) as Hinv.
    destruct (Get_facts l e) as (_ & _ & _ & Hreturns).
    destruct (ComponentList.Get e l) as [v l'|err l'|] eqn:Hget.
    + destruct Hinv as (-> & i & Hi & _). split; [by apply set_list_id|].
      exists l. split; [done | by exists i].
    + destruct Hinv as (-> & -> & Hnone). split; [by apply set_list_id|].
      split.
      * intros (l0 & Hl0 & Hsome). simplify_eq. rewrite Hnone in Hsome.
        by destruct Hsome.
      * left. split; [done|]. apply Hdom. by eexists.
    + destruct Hinv as (i & Hi & _).
      destruct (Hreturns (Hp T l Hl)) as [v Hv]; [by exists i|]. congruence.
  - split; [done|]. split.
    + by intros (l0 & Hl0 & _).
    + right. split; [done|]. apply eq_None_not_Some. rewrite Hdom, Hl.
      by intros [? ?].
Qed.

(** X11.  In every state the component manager reaches from its
    construction, the stores are packed and each type has an identifier
    exactly when it has a store, so that [GetComponent] returns a component
    exactly when the store of the type holds one for the entity, throws
    otherwise and never changes the manager.  While at most [2 ^ 16] types
    are registered, their identifiers are the numbers below the number of
    types, each used once. *)
Theorem registry_stays_consistent (calls : list (manager_call V)) cm :
  run_calls perform_manager calls ComponentManager.new = Some cm →
  registry_ok cm ∧ stores_packed cm
  ∧ ∀ T e,
      match ComponentManager.GetComponent T e cm with
      | Ok _ cm' => cm' = cm ∧ stored cm T e
      | Throw err cm' =>
          cm' = cm ∧ ¬ stored cm T e
          ∧ (err = NotFound
             ∧ is_Some (ComponentManager.component_types_ cm !! T)
             ∨ err = MissingComponentList
               ∧ ComponentManager.component_types_ cm !! T = None)
      | Undefined => False
      end.
Proof.
  intros Hrun.
  destruct (manager_run_keeps calls _ cm Hrun registry_ok_new) as (Hok & Hp & _).
  { intros T l. unfold ComponentManager.new.
    cbn [ComponentManager.component_lists_]. by rewrite lookup_empty. }
  split; [done|]. split; [done|]. intros T e.
  by apply manager_GetComponent_outcome.
Qed.

Lemma manager_AddComponent_facts cm cm' T e (c : V) :
  ComponentManager.AddComponent T e c cm = Ok tt cm' →
  ComponentManager.GetComponent T e cm' = Ok c cm'
  ∧ is_Some (ComponentManager.component_types_ cm' !! T)
  ∧ ∀ T', T' ≠ T →
      ComponentManager.component_lists_ cm' !! T'
        = ComponentManager.component_lists_ cm !! T'
      ∧ ComponentManager.component_types_ cm' !! T'
        = ComponentManager.component_types_ cm !! T'.
Proof.
  intros Hrun.
  apply manager_AddComponent_Ok_inv in Hrun as (cm0 & l & l' & Hreg & Hl & Hins & ->).
  split; [|split].
  - unfold ComponentManager.GetComponent.
    erewrite on_component_list_Ok.
    + f_equal. apply set_list_id. unfold ComponentManager.set_list.
      cbn [ComponentManager.component_lists_]. by rewrite lookup_insert_eq.
    + unfold ComponentManager.set_list.
      cbn [ComponentManager.component_lists_]. by rewrite lookup_insert_eq.
    + by apply (Insert_Ok_Get l).
  - unfold ComponentManager.set_list. cbn [ComponentManager.component_types_].
    destruct Hreg as [[-> ?]|[HT Hreg]]; [done|].
    rewrite (RegisterComponent_fresh cm T HT) in Hreg. simplify_eq.
    cbn [ComponentManager.component_types_]. rewrite lookup_insert_eq. by eexists.
  - intros T' Hne. unfold ComponentManager.set_list.
    cbn [ComponentManager.component_lists_ ComponentManager.component_types_].
    rewrite lookup_insert_ne by done.
    destruct Hreg as [[-> ?]|[HT Hreg]]; [done|].
    rewrite (RegisterComponent_fresh cm T HT) in Hreg. simplify_eq.
    cbn [ComponentManager.component_lists_ ComponentManager.component_types_].
    by rewrite !lookup_insert_ne.
Qed.

(** X12.  After [AddComponent] has returned, [GetComponent] for the same
    type and entity returns the component added, the type is registered, and
    the stores and identifiers of all other types are as before. *)
Theorem manager_add_then_get cm cm' T e (c : V) :
  ComponentManager.AddComponent T e c cm = Ok tt cm' →
  ComponentManager.GetComponent T e cm' = Ok c cm'
  ∧ is_Some (ComponentManager.component_types_ cm' !! T)
  ∧ ∀ T', T' ≠ T →
      ComponentManager.component_lists_ cm' !! T'
        = ComponentManager.component_lists_ cm !! T'
      ∧ ComponentManager.component_types_ cm' !! T'
        = ComponentManager.component_types_ cm !! T'.
Proof. exact (manager_AddComponent_facts cm cm' T e c). Qed.

End RegistryProps.

(** ** The system manager: registration and broadcasts *)

(** X13.  A system type that is not registered cannot be looked up or given
    a signature.  Registering it stores the instance handed in, which
    [GetSystem] then returns; the required signatures and the other systems
    are untouched, and a second registration of the type throws and changes
    nothing. *)
Theorem register_then_get_system (sm : SystemManager.t) (T : TypeName)
    (system other : gset Z) (signature : Z) :
  SystemManager.systems_ sm !! T = None →
  SystemManager.GetSystem T sm = Throw UnregisteredType sm
  ∧ SystemManager.SetSystemSignature T signature sm = Throw UnregisteredType sm
  ∧ ∃ sm', SystemManager.RegisterSystem_copy T system sm = Ok system sm'
      ∧ SystemManager.GetSystem T sm' = Ok system sm'
      ∧ SystemManager.RegisterSystem_copy T other sm' = Throw AlreadyRegistered sm'
      ∧ SystemManager.RegisterSystem T sm' = Throw AlreadyRegistered sm'
      ∧ SystemManager.system_signatures_ sm' = SystemManager.system_signatures_ sm
      ∧ ∀ T', T' ≠ T →
          SystemManager.systems_ sm' !! T' = SystemManager.systems_ sm !! T'.
Proof.
  intros HT.
  assert (Hno : bool_decide (is_Some (SystemManager.systems_ sm !! T)) = false).
  { apply bool_decide_eq_false. rewrite HT. by intros [? ?]. }
  split; [|split].
  - unfold SystemManager.GetSystem. run_monad. by rewrite HT.
  - unfold SystemManager.SetSystemSignature. run_monad. by rewrite Hno.
  - exists (SystemManager.set_system T system sm).
    assert (Hyes : bool_decide (is_Some (SystemManager.systems_
                     (SystemManager.set_system T system sm) !! T)) = true).
    { apply bool_decide_eq_true. unfold SystemManager.set_system.
      cbn [SystemManager.systems_]. rewrite lookup_insert_eq. by eexists. }
    split; [|split; [|split; [|split; [|split]]]].
    + unfold SystemManager.RegisterSystem_copy. run_monad. by rewrite Hno.
    + unfold SystemManager.GetSystem, SystemManager.set_system. run_monad.
      by rewrite lookup_insert_eq.
    + unfold SystemManager.RegisterSystem_copy. unfold bind, get. by rewrite Hyes.
    + unfold SystemManager.RegisterSystem, SystemManager.RegisterSystem_copy.
      unfold bind, get. by rewrite Hyes.
    + done.
    + intros T' Hne. unfold SystemManager.set_system.
      cbn [SystemManager.systems_]. by rewrite lookup_insert_ne.
Qed.

(** On the manager as constructed the system type [3] is registered with the
    entities [8] and [9]. *)
Lemma register_then_get_system_witness :
  ∃ sm', SystemManager.RegisterSystem_copy 3%positive {[8; 9]} SystemManager.new
           = Ok {[8; 9]} sm'
       ∧ SystemManager.GetSystem 3%positive sm' = Ok {[8; 9]} sm'.
Proof.
  destruct (register_then_get_system SystemManager.new 3%positive {[8; 9]} ∅ 0)
    as (_ & _ & sm' & Hreg & Hget & _).
  - reflexivity.
  - exists sm'. split; [exact Hreg | exact Hget].
Defined.

Lemma EntitySignatureChanged_signatures e sig (sm : SystemManager.t) :
  ∃ sm', SystemManager.EntitySignatureChanged e sig sm = Ok tt sm'
    ∧ (∀ T, SystemManager.systems_ sm' !! T
            = admitted e sig (required sm T) <$> SystemManager.systems_ sm !! T)
    ∧ (∀ T, SystemManager.system_signatures_ sm' !! T
            = match SystemManager.systems_ sm !! T with
              | Some _ => Some (required sm T)
              | None => SystemManager.system_signatures_ sm !! T
              end).
Proof.
  destruct (match_loop e sig (map_to_list (SystemManager.systems_ sm))
              (NoDup_fst_map_to_list _) sm) as (sm' & Hrun & Hsys & Hsig).
  exists sm'. split; [done|].
  setoid_rewrite list_to_map_to_list in Hsys.
  setoid_rewrite list_to_map_to_list in Hsig.
  split; [|done].
  intros T. rewrite Hsys. by destruct (SystemManager.systems_ sm !! T).
Qed.

(** X14.  A registered system whose signature was never set admits every
    entity: a signature-change broadcast puts the entity into its set
    whatever the entity's signature is, and records the empty signature for
    the system on the way. *)
Theorem unset_signature_matches_everything (sm : SystemManager.t) (T : TypeName)
    (system : gset Z) (e entity_signature : Z) :
  SystemManager.systems_ sm !! T = Some system →
  SystemManager.system_signatures_ sm !! T = None →
  ∃ sm', SystemManager.EntitySignatureChanged e entity_signature sm = Ok tt sm'
    ∧ SystemManager.systems_ sm' !! T = Some (system ∪ {[e]})
    ∧ member sm' T e
    ∧ SystemManager.system_signatures_ sm' !! T = Some 0.
Proof.
  intros HT Hsig.
  destruct (EntitySignatureChanged_signatures e entity_signature sm)
    as (sm' & Hrun & Hsys & Hsigs).
  assert (Hreq : required sm T = 0) by (unfold required; by rewrite Hsig).
  assert (Hset : SystemManager.systems_ sm' !! T = Some (system ∪ {[e]})).
  { rewrite Hsys, HT, Hreq. simpl. f_equal. unfold admitted.
    rewrite Z.land_0_r. by rewrite decide_True. }
  exists sm'. split; [done|]. split; [done|]. split.
  - exists (system ∪ {[e]}). split; [done|].
    apply elem_of_union. right. by apply elem_of_singleton.
  - by rewrite Hsigs, HT, Hreq.
Qed.

(** A system registered without a signature admits the entity [6] whose
    signature is empty. *)
Lemma unset_signature_matches_everything_witness :
  ∃ sm', SystemManager.EntitySignatureChanged 6 0
           (SystemManager.Build {[2%positive := ∅]} ∅) = Ok tt sm'
       ∧ member sm' 2%positive 6.
Proof.
  destruct (unset_signature_matches_everything
              (SystemManager.Build {[2%positive := ∅]} ∅) 2%positive ∅ 6 0)
    as (sm' & Hrun & _ & Hmember & _).
  - reflexivity.
  - reflexivity.
  - exists sm'. split; [exact Hrun | exact Hmember].
Defined.

Lemma admitted_idempotent e esig ssig (system : gset Z) :
  admitted e esig ssig (admitted e esig ssig system) = admitted e esig ssig system.
Proof.
  apply set_eq. intros x. rewrite !elem_of_admitted.
  case_decide; [done|]. by rewrite elem_of_admitted, decide_False.
Qed.

(** X15.  Both broadcasts of the system manager are idempotent: repeating a
    signature-change broadcast with the same entity and signature, or a
    destruction broadcast with the same entity, changes nothing. *)
Theorem broadcasts_are_idempotent (sm : SystemManager.t) (e entity_signature : Z) :
  (∀ sm1, SystemManager.EntitySignatureChanged e entity_signature sm = Ok tt sm1 →
          SystemManager.EntitySignatureChanged e entity_signature sm1 = Ok tt sm1)
  ∧ (∀ sm1, SystemManager.EntityWasDestroyed e sm = Ok tt sm1 →
            SystemManager.EntityWasDestroyed e sm1 = Ok tt sm1).
Proof.
  split.
  - intros sm1 Hrun.
    destruct (EntitySignatureChanged_signatures e entity_signature sm)
      as (sm' & Hrun' & Hsys & Hsig).
    rewrite Hrun' in Hrun. simplify_eq.
    destruct (EntitySignatureChanged_signatures e entity_signature sm1)
      as (sm2 & Hrun2 & Hsys2 & Hsig2).
    rewrite Hrun2. f_equal.
    assert (Hreq : ∀ T, is_Some (SystemManager.systems_ sm !! T) →
                        required sm1 T = required sm T).
    { intros T [system HT]. unfold required at 1. by rewrite Hsig, HT. }
    apply SystemManager_eq; apply map_eq; intros T.
    + rewrite Hsys2, Hsys.
      destruct (SystemManager.systems_ sm !! T) as [system|] eqn:HT; [|done].
      simpl. rewrite Hreq by (by eexists). by rewrite admitted_idempotent.
    + rewrite Hsig2, Hsys, Hsig.
      destruct (SystemManager.systems_ sm !! T) as [system|] eqn:HT; [|done].
      simpl. by rewrite Hreq by (by eexists).
  - intros sm1 Hrun.
    destruct (EntityWasDestroyed_systems e sm) as (sm' & Hrun' & Hsig & Hsys).
    rewrite Hrun' in Hrun. simplify_eq.
    destruct (EntityWasDestroyed_systems e sm1) as (sm2 & Hrun2 & Hsig2 & Hsys2).
    rewrite Hrun2. f_equal.
    apply SystemManager_eq; [|done]. apply map_eq. intros T.
    rewrite Hsys2, Hsys.
    destruct (SystemManager.systems_ sm !! T) as [system|]; [|done].
    simpl. f_equal. apply set_eq. intros x.
    rewrite !elem_of_difference. tauto.
Qed.

(** Both broadcasts repeated on a manager with one system holding [4]. *)
Lemma broadcasts_are_idempotent_witness :
  let sm := SystemManager.Build {[1%positive := {[4]}]} {[1%positive := 1]} in
  ∃ sm1 sm2,
    SystemManager.EntitySignatureChanged 4 0 sm = Ok tt sm1
    ∧ SystemManager.EntitySignatureChanged 4 0 sm1 = Ok tt sm1
    ∧ SystemManager.EntityWasDestroyed 4 sm = Ok tt sm2
    ∧ SystemManager.EntityWasDestroyed 4 sm2 = Ok tt sm2.
Proof.
  intros sm.
  destruct (EntitySignatureChanged_signatures 4 0 sm) as (sm1 & Hrun1 & _).
  destruct (EntityWasDestroyed_systems 4 sm) as (sm2 & Hrun2 & _).
  destruct (broadcasts_are_idempotent sm 4 0) as [Hchanged Hdestroyed].
  exists sm1, sm2. split; [exact Hrun1|]. split; [exact (Hchanged sm1 Hrun1)|].
  split; [exact Hrun2 | exact (Hdestroyed sm2 Hrun2)].
Defined.

(** ** The engine: components against signatures *)

Lemma mask_test (id s : Z) :
  0 ≤ id → Z.land (Z.setbit 0 id) s = Z.setbit 0 id ↔ Z.testbit s id = true.
Proof.
  intros Hid. split.
  - intros Hland. apply (f_equal (λ z, Z.testbit z id)) in Hland.
    rewrite Z.land_spec, Z.setbit_eq in Hland by done. done.
  - intros Hbit. apply Z.bits_inj'. intros n Hn. rewrite Z.land_spec.
    destruct (decide (id = n)) as [<-|Hne].
    + rewrite Hbit. apply andb_true_r.
    + rewrite Z.setbit_neq, Z.bits_0 by done. done.
Qed.

Section EngineExtras.
Context {V : Type} `{Inhabited V}.
Implicit Types (eng : Engine.t V) (cm : ComponentManager.t V) (T : TypeName).

Lemma HasComponent_in_range eng T e id :
  ComponentManager.component_types_ (Engine.component_manager_ eng) !! T = Some id →
  0 ≤ id < kMaxComponents → 0 ≤ e < kMaxEntities →
  Engine.HasComponent T e eng
    = Ok (Z.testbit (signature_of (Engine.entity_manager_ eng) e) id) eng.
Proof.
  intros HT Hid He. unfold Engine.HasComponent, Engine.components, Engine.entities.
  unfold bind at 1. unfold within at 1.
  rewrite (GetComponentType_registered _ T id HT).
  unfold bind at 1. unfold bitset_set. rewrite decide_True by done. unfold ret at 1.
  unfold bind, within. rewrite GetSignature_in_range by done.
  rewrite Engine_eta. unfold ret. f_equal. fold (signature_of (Engine.entity_manager_ eng) e).
  destruct (Z.testbit (signature_of (Engine.entity_manager_ eng) e) id) eqn:Hbit.
  - apply bool_decide_eq_true. apply mask_test; [lia | done].
  - apply bool_decide_eq_false. rewrite mask_test by lia. congruence.
  - by destruct eng.
Qed.

(** X16.  [HasComponent] never changes the engine.  When it returns, the
    type is registered with a bit index below [kMaxComponents], the entity
    is below [kMaxEntities], and the answer is that bit of the entity's
    signature.  When it throws, the cause is, in this order of precedence,
    an unregistered type, a type identifier that is no bit index, or an
    entity out of range. *)
Theorem HasComponent_reads_the_signature_bit eng T (e : Z) :
  0 ≤ e →
  match Engine.HasComponent T e eng with
  | Ok answer eng' =>
      eng' = eng
      ∧ ∃ id, ComponentManager.component_types_ (Engine.component_manager_ eng) !! T
                = Some id
            ∧ 0 ≤ id < kMaxComponents ∧ e < kMaxEntities
            ∧ answer = Z.testbit (signature_of (Engine.entity_manager_ eng) e) id
  | Throw err eng' =>
      eng' = eng
      ∧ match ComponentManager.component_types_ (Engine.component_manager_ eng) !! T with
        | None => err = UnregisteredType
        | Some id =>
            if decide (0 ≤ id < kMaxComponents)
            then err = OutOfRange ∧ kMaxEntities ≤ e
            else err = BitsetPosition
        end
  | Undefined => False
  end.
Proof.
  intros Hnn.
  destruct (ComponentManager.component_types_ (Engine.component_manager_ eng) !! T)
    as [id|] eqn:HT.
  2:{ unfold Engine.HasComponent, Engine.components.
      unfold bind at 1. unfold within.
      rewrite (GetComponentType_unregistered _ T HT). by destruct eng. }
  destruct (decide (0 ≤ id < kMaxComponents)) as [Hid|Hid].
  - destruct (decide (e < kMaxEntities)) as [He|He].
    + rewrite (HasComponent_in_range eng T e id HT Hid) by lia.
      split; [done|]. by exists id.
    + unfold Engine.HasComponent, Engine.components, Engine.entities.
      unfold bind at 1. unfold within at 1.
      rewrite (GetComponentType_registered _ T id HT).
      unfold bind at 1. unfold bitset_set. rewrite decide_True by done.
      unfold ret at 1. unfold bind, within.
      rewrite GetSignature_out_of_range by lia.
      split; [by destruct eng|]. split; [done | lia].
  - unfold Engine.HasComponent, Engine.components, Engine.entities.
    unfold bind at 1. unfold within at 1.
    rewrite (GetComponentType_registered _ T id HT).
    unfold bind at 1. unfold bitset_set. rewrite decide_False by done.
    unfold throw. by destruct eng.
Qed.

(** The engine after the signature part of [AddComponent] and
    [RemoveComponent] has run to its end. *)
Lemma signature_update_Ok_signature (val : bool) T e eng eng' :
  (component_id <- Engine.components (ComponentManager.GetComponentType T);;
   entity_signature <- Engine.entities (EntityManager.GetSignature e);;
   entity_signature <- bitset_set entity_signature component_id val;;
   Engine.entities (EntityManager.SetSignature e entity_signature);;
   Engine.systems (SystemManager.EntitySignatureChanged e entity_signature)) eng
    = Ok tt eng' →
  ∃ id,
    ComponentManager.component_types_ (Engine.component_manager_ eng) !! T = Some id
    ∧ 0 ≤ id < kMaxComponents ∧ 0 ≤ e < kMaxEntities
    ∧ Engine.component_manager_ eng' = Engine.component_manager_ eng
    ∧ EntityManager.available_entities_ (Engine.entity_manager_ eng')
        = EntityManager.available_entities_ (Engine.entity_manager_ eng)
    ∧ EntityManager.entity_signatures_ (Engine.entity_manager_ eng')
        = <[e := if val
                 then Z.setbit (signature_of (Engine.entity_manager_ eng) e) id
                 else Z.clearbit (signature_of (Engine.entity_manager_ eng) e) id]>
            (EntityManager.entity_signatures_ (Engine.entity_manager_ eng)).
Proof.
  destruct eng as [em cm sm].
  unfold Engine.components, Engine.entities, Engine.systems, within, bind,
    ComponentManager.GetComponentType, EntityManager.GetSignature,
    EntityManager.SetSignature, EntityManager.CheckEntityOutOfBound,
    array_read, array_write, bitset_set.
  run_monad.
  destruct (ComponentManager.component_types_ cm !! T) as [id|]; simpl; [|done].
  destruct (decide (kMaxEntities ≤ e)) as [|Hlt]; simpl; [done|].
  destruct (decide (in_bounds e)) as [Hb|]; simpl; [|done].
  destruct (decide (0 ≤ id < kMaxComponents)); simpl; [|done].
  match goal with
  | |- context [SystemManager.EntitySignatureChanged e ?sig sm] =>
      destruct (EntitySignatureChanged_systems e sig sm) as (sm' & -> & _)
  end.
  intros Heq. simplify_eq. exists id.
  cbn [Engine.component_manager_ Engine.entity_manager_
       EntityManager.available_entities_ EntityManager.entity_signatures_].
  by destruct val.
Qed.

Lemma manager_GetComponent_absent cm T (l : ComponentList.t V) e :
  ComponentManager.component_lists_ cm !! T = Some l →
  Store.slot_of l e = None →
  ComponentManager.GetComponent T e cm = Throw NotFound cm.
Proof.
  intros Hl He.
  unfold ComponentManager.GetComponent, ComponentManager.on_component_list.
  run_monad. rewrite Hl, (Get_absent l e He). by rewrite (set_list_id cm T l Hl).
Qed.

(** X17.  After [AddComponent] has returned, [HasComponent] answers [true]
    and [GetComponent] returns the component added, for that type and
    entity; the signatures of all other entities are as before. *)
Theorem add_then_has_and_get eng eng' T (e : Z) (c : V) :
  Engine.AddComponent T e c eng = Ok tt eng' →
  Engine.HasComponent T e eng' = Ok true eng'
  ∧ Engine.GetComponent T e eng' = Ok c eng'
  ∧ ∀ e', e' ≠ e →
      signature_of (Engine.entity_manager_ eng') e'
        = signature_of (Engine.entity_manager_ eng) e'.
Proof.
  intros Hrun. apply bind_Ok_inv in Hrun as ([] & eng1 & Hstore & Htail).
  apply within_Ok_inv in Hstore as (cm1 & Hstore & ->).
  apply signature_update_Ok_signature in Htail
    as (id & HT & Hid & He & Hcm & _ & Hsigs).
  cbn [Engine.component_manager_ Engine.entity_manager_] in *.
  destruct (manager_AddComponent_facts _ _ _ _ _ Hstore) as (Hget & _).
  split; [|split].
  - rewrite (HasComponent_in_range eng' T e id); [| by rewrite Hcm | done..].
    f_equal. unfold signature_of at 1. rewrite Hsigs, lookup_insert_eq.
    cbn [default]. apply Z.setbit_eq. lia.
  - unfold Engine.GetComponent, Engine.components, within.
    rewrite Hcm, Hget, <- Hcm. by rewrite Engine_eta.
  - intros e' Hne. unfold signature_of. rewrite Hsigs. by rewrite lookup_insert_ne.
Qed.

(** X18.  After [RemoveComponent] has returned, [HasComponent] answers
    [false] and [GetComponent] throws the not-found error, for that type and
    entity. *)
Theorem remove_then_has_and_get eng eng' T (e : Z) :
  Engine.RemoveComponent T e eng = Ok tt eng' →
  Engine.HasComponent T e eng' = Ok false eng'
  ∧ Engine.GetComponent T e eng' = Throw NotFound eng'
  ∧ ∀ e', e' ≠ e →
      signature_of (Engine.entity_manager_ eng') e'
        = signature_of (Engine.entity_manager_ eng) e'.
Proof.
  intros Hrun. apply bind_Ok_inv in Hrun as ([] & eng1 & Hstore & Htail).
  apply within_Ok_inv in Hstore as (cm1 & Hstore & ->).
  apply signature_update_Ok_signature in Htail
    as (id & HT & Hid & He & Hcm & _ & Hsigs).
  cbn [Engine.component_manager_ Engine.entity_manager_] in *.
  unfold ComponentManager.RemoveComponent in Hstore.
  apply on_component_list_Ok_inv in Hstore as (l & l' & Hl & Hrem & ->).
  split; [|split].
  - rewrite (HasComponent_in_range eng' T e id); [| by rewrite Hcm | done..].
    f_equal. unfold signature_of at 1. rewrite Hsigs, lookup_insert_eq.
    cbn [default]. apply Z.clearbit_eq.
  - unfold Engine.GetComponent, Engine.components, within.
    rewrite (manager_GetComponent_absent _ T l' e); [by rewrite Engine_eta| |].
    + rewrite Hcm. unfold ComponentManager.set_list.
      cbn [ComponentManager.component_lists_]. by rewrite lookup_insert_eq.
    + by apply (Remove_Ok_absent l e l').
  - intros e' Hne. unfold signature_of. rewrite Hsigs. by rewrite lookup_insert_ne.
Qed.

(** X19.  After [DestroyEntity] has returned, no store holds a component for
    the entity: [GetComponent] throws the not-found error for every type
    that has a store.  The registered types and their identifiers are as
    before, and the identifier waits at the back of the pool. *)
Theorem destroy_purges_every_store eng eng' (e : Z) :
  Engine.DestroyEntity e eng = Ok tt eng' →
  (∀ T, ¬ stored (Engine.component_manager_ eng') T e)
  ∧ (∀ T, is_Some (ComponentManager.component_lists_
                     (Engine.component_manager_ eng) !! T) →
          Engine.GetComponent T e eng' = Throw NotFound eng')
  ∧ ComponentManager.component_types_ (Engine.component_manager_ eng')
      = ComponentManager.component_types_ (Engine.component_manager_ eng)
  ∧ EntityManager.available_entities_ (Engine.entity_manager_ eng')
      = EntityManager.available_entities_ (Engine.entity_manager_ eng) ++ [e].
Proof.
  intros Hrun. unfold Engine.DestroyEntity in Hrun.
  apply bind_Ok_inv in Hrun as ([] & eng1 & Hdestroy & Hrun).
  apply bind_Ok_inv in Hrun as ([] & eng2 & Hlists & Hrun).
  apply within_Ok_inv in Hdestroy as (em1 & Hdestroy & ->).
  apply within_Ok_inv in Hlists as (cm2 & Hlists & ->).
  apply within_Ok_inv in Hrun as (sm3 & _ & ->).
  cbn [Engine.entity_manager_ Engine.system_manager_
       Engine.component_manager_] in *.
  apply manager_EntityWasDestroyed_Ok_inv in Hlists
    as (Htypes & _ & Hstores).
  assert (Hgone : ∀ T l', ComponentManager.component_lists_ cm2 !! T = Some l' →
                          Store.slot_of l' e = None).
  { intros T l' Hl'. specialize (Hstores T).
    destruct (ComponentManager.component_lists_ (Engine.component_manager_ eng) !! T)
      as [l|]; [|congruence].
    destruct Hstores as (l1 & Hhook & Hl1).
    assert (l1 = l') as -> by congruence.
    destruct (store_hook_facts l e) as [Honce _].
    by destruct (Honce l' Hhook). }
  split; [|split; [|split]].
  - intros T (l' & Hl' & Hsome). rewrite (Hgone T l' Hl') in Hsome.
    by destruct Hsome.
  - intros T [l Hl]. specialize (Hstores T). rewrite Hl in Hstores.
    destruct Hstores as (l' & _ & Hl').
    unfold Engine.GetComponent, Engine.components, within.
    cbn [Engine.component_manager_].
    by rewrite (manager_GetComponent_absent cm2 T l' e Hl' (Hgone T l' Hl')).
  - done.
  - revert Hdestroy.
    unfold EntityManager.DestroyEntity, EntityManager.CheckEntityOutOfBound,
      array_write.
    run_monad. repeat (case_decide; simpl; try done).
    intros; by simplify_eq.
Qed.

End EngineExtras.

(** ** The engine: signatures and stores stay in step *)

Section EngineInvariant.
Context {V : Type} `{Inhabited V}.
Implicit Types (eng : Engine.t V) (cm : ComponentManager.t V)
  (l : ComponentList.t V) (T : TypeName).

Lemma Insert_slots l l' e (c : V) :
  ComponentList.Insert e c l = Ok tt l' →
  ∀ e', is_Some (Store.slot_of l' e') ↔ is_Some (Store.slot_of l e') ∨ e' = e.
Proof.
  intros Hrun e'. apply Insert_Ok_inv in Hrun as (_ & _ & ->).
  unfold Store.slot_of. cbn [ComponentList.entity_to_component_index_].
  rewrite lookup_insert. case_decide; subst.
  - split; [by right | by eexists].
  - split; [by left | by intros [?|?]].
Qed.

Lemma hook_slots l l' e :
  Store.packed l → ComponentList.EntityWasDestroyed e l = Ok tt l' →
  ∀ e', is_Some (Store.slot_of l' e') ↔ is_Some (Store.slot_of l e') ∧ e' ≠ e.
Proof.
  intros Hp Hrun e'.
  destruct (store_hook_facts l e) as [Honce Hpacked].
  destruct (Honce l' Hrun) as [Hgone _].
  destruct (Hpacked Hp) as (l1 & Hrun1 & _ & Hothers).
  assert (l1 = l') as -> by congruence.
  destruct (decide (e' = e)) as [->|Hne].
  - rewrite Hgone. split; [by intros [? ?] | by intros [_ ?]].
  - rewrite (Hothers e' Hne). tauto.
Qed.

Lemma Remove_slots l l' e :
  Store.packed l → ComponentList.Remove e l = Ok tt l' →
  ∀ e', is_Some (Store.slot_of l' e') ↔ is_Some (Store.slot_of l e') ∧ e' ≠ e.
Proof.
  intros Hp Hrun. apply (hook_slots l l' e Hp).
  destruct (Remove_Ok_inv l e l' Hp Hrun) as (i & _ & Hi & _).
  unfold ComponentList.EntityWasDestroyed. unfold bind, get.
  by rewrite (contains_true l e i Hi).
Qed.

Lemma stored_set_list cm T l l' :
  ComponentManager.component_lists_ cm !! T = Some l →
  ∀ T' e, stored (ComponentManager.set_list T l' cm) T' e
          ↔ if decide (T' = T) then is_Some (Store.slot_of l' e)
            else stored cm T' e.
Proof.
  intros Hl T' e. unfold stored, ComponentManager.set_list.
  cbn [ComponentManager.component_lists_]. rewrite lookup_insert.
  repeat case_decide; simplify_eq.
  - split; [by intros (? & ? & ?); simplify_eq | intros; by eexists].
  - done.
Qed.

Lemma signature_of_insert (em em' : EntityManager.t) e0 x e :
  EntityManager.entity_signatures_ em'
    = <[e0 := x]> (EntityManager.entity_signatures_ em) →
  signature_of em' e = if decide (e = e0) then x else signature_of em e.
Proof.
  intros Hsigs. unfold signature_of. rewrite Hsigs, lookup_insert.
  repeat case_decide; by simplify_eq.
Qed.

Lemma engine_consistent_new : engine_consistent (Engine.new (V:=V)).
Proof.
  split; [apply registry_ok_new|]. split.
  - intros T l. unfold Engine.new, ComponentManager.new.
    cbn [Engine.component_manager_ ComponentManager.component_lists_].
    by rewrite lookup_empty.
  - intros _. unfold bits_match_stores, bits_are_registered, signature_of,
      Engine.new, EntityManager.new.
    cbn [Engine.entity_manager_ EntityManager.entity_signatures_].
    split.
    + intros T id e. cbn [Engine.component_manager_ ComponentManager.new
        ComponentManager.component_types_]. by rewrite lookup_empty.
    + intros e id. rewrite lookup_empty. cbn [default]. by rewrite Z.bits_0.
Qed.

(** Only the signatures and the component manager matter. *)
Lemma engine_consistent_same eng eng' :
  EntityManager.entity_signatures_ (Engine.entity_manager_ eng')
    = EntityManager.entity_signatures_ (Engine.entity_manager_ eng) →
  Engine.component_manager_ eng' = Engine.component_manager_ eng →
  engine_consistent eng → engine_consistent eng'.
Proof.
  destruct eng as [[pool sigs] cm sm], eng' as [[pool' sigs'] cm' sm'].
  cbn [Engine.entity_manager_ Engine.component_manager_
       EntityManager.entity_signatures_].
  by intros -> ->.
Qed.

Lemma engine_consistent_register eng eng' T :
  engine_consistent eng →
  ComponentManager.RegisterComponent T (Engine.component_manager_ eng)
    = Ok tt (Engine.component_manager_ eng') →
  EntityManager.entity_signatures_ (Engine.entity_manager_ eng')
    = EntityManager.entity_signatures_ (Engine.entity_manager_ eng) →
  engine_consistent eng'.
Proof.
  intros (Hok & Hp & Hbits) Hreg Hsigs.
  destruct (ComponentManager.component_types_ (Engine.component_manager_ eng) !! T)
    as [id0|] eqn:HT.
  { rewrite RegisterComponent_known in Hreg by (by eexists). simplify_eq.
    by apply (engine_consistent_same eng). }
  destruct (registry_ok_register _ _ T Hok Hreg) as (Hok' & Hkeep & Hother & Hnew).
  destruct (Hnew HT) as [Hlist Htype].
  split; [done|]. split; [by apply (stores_packed_register _ _ T Hp Hreg)|].
  rewrite (RegisterComponent_fresh _ T HT) in Hreg.
  assert (Htypes : ComponentManager.component_types_ (Engine.component_manager_ eng')
            = <[T := ComponentManager.next_component_type_ (Engine.component_manager_ eng)]>
                (ComponentManager.component_types_ (Engine.component_manager_ eng))).
  { injection Hreg as Heq. by rewrite <- Heq. }
  rewrite Htypes, (map_size_insert_None _ _ _ HT). intros Hsize.
  destruct Hok as (_ & Hnext & Hids).
  unfold type_id_space in *.
  destruct Hids as [Hrange _]; [lia|]. destruct Hbits as [Hmatch Hreg']; [lia|].
  rewrite Z.mod_small in Hnext by lia.
  assert (Hsame : ∀ e, signature_of (Engine.entity_manager_ eng') e
                       = signature_of (Engine.entity_manager_ eng) e).
  { intros e. unfold signature_of. by rewrite Hsigs. }
  split.
  - intros T' id e HT' Hid He. rewrite Hsame.
    destruct (decide (T' = T)) as [->|Hne].
    + rewrite Htype in HT'. simplify_eq. split.
      * intros Hbit. destruct (Hreg' e _ Hbit) as [T'' HT''].
        apply Hrange in HT''. lia.
      * intros (l & Hl & Hsome). rewrite Hlist in Hl. simplify_eq.
        unfold Store.slot_of, ComponentList.empty in Hsome. simpl in Hsome.
        rewrite lookup_empty in Hsome. by destruct Hsome.
    + destruct (Hother T' Hne) as [Hl Ht]. rewrite Ht in HT'.
      rewrite (Hmatch T' id e HT' Hid He). unfold stored. by rewrite Hl.
  - intros e id. rewrite Hsame. intros Hbit.
    destruct (Hreg' e id Hbit) as [T' HT']. exists T'. by apply Hkeep.
Qed.

(** The store of [T] gains ([b = true]) or loses ([b = false]) the entity
    [e0], and the bit of [T] in the signature of [e0] follows whenever the
    engine got as far as writing it. *)
Lemma engine_consistent_update eng eng' T e0 (b : bool) :
  engine_consistent eng →
  registry_ok (Engine.component_manager_ eng') →
  stores_packed (Engine.component_manager_ eng') →
  ComponentManager.component_types_ (Engine.component_manager_ eng')
    = ComponentManager.component_types_ (Engine.component_manager_ eng) →
  (∀ T' e, stored (Engine.component_manager_ eng') T' e
           ↔ if decide (T' = T ∧ e = e0) then b = true
             else stored (Engine.component_manager_ eng) T' e) →
  (EntityManager.entity_signatures_ (Engine.entity_manager_ eng')
     = EntityManager.entity_signatures_ (Engine.entity_manager_ eng)
   ∧ (∀ id0, ComponentManager.component_types_ (Engine.component_manager_ eng) !! T
               = Some id0 →
             ¬ (0 ≤ id0 < kMaxComponents ∧ 0 ≤ e0 < kMaxEntities))
   ∨ ∃ id0,
       ComponentManager.component_types_ (Engine.component_manager_ eng) !! T
         = Some id0
       ∧ 0 ≤ id0
       ∧ EntityManager.entity_signatures_ (Engine.entity_manager_ eng')
           = <[e0 := if b
                     then Z.setbit (signature_of (Engine.entity_manager_ eng) e0) id0
                     else Z.clearbit (signature_of (Engine.entity_manager_ eng) e0) id0]>
               (EntityManager.entity_signatures_ (Engine.entity_manager_ eng))) →
  engine_consistent eng'.
Proof.
  intros (Hok & Hp & Hbits) Hok' Hp' Htypes Hstored Hsigs.
  split; [done|]. split; [done|]. rewrite Htypes. intros Hsize.
  destruct (Hbits Hsize) as [Hmatch Hreg].
  destruct Hok as (_ & _ & Hids). destruct (Hids Hsize) as [_ Hinj].
  destruct Hsigs as [[Hsigs Hcause]|(id0 & HT & Hid0 & Hsigs)].
  - assert (Hsame : ∀ e, signature_of (Engine.entity_manager_ eng') e
                         = signature_of (Engine.entity_manager_ eng) e).
    { intros e. unfold signature_of. by rewrite Hsigs. }
    split.
    + intros T' id e HT' Hid He. rewrite Hsame, Hstored, Htypes in *.
      case_decide as Hcase; [|by apply Hmatch].
      destruct Hcase as [-> ->]. destruct (Hcause id HT'). done.
    + intros e id. rewrite Hsame, Htypes. apply Hreg.
  - split.
    + intros T' id e HT' Hid He. rewrite Htypes in HT'.
      rewrite (signature_of_insert _ _ e0 _ e Hsigs), Hstored.
      destruct (decide (e = e0)) as [->|Hne].
      * destruct (decide (T' = T)) as [->|HneT].
        -- rewrite decide_True by done. assert (id = id0) as -> by congruence.
           destruct b.
           ++ by rewrite Z.setbit_eq.
           ++ by rewrite Z.clearbit_eq.
        -- rewrite decide_False by (by intros [? _]).
           assert (id0 ≠ id).
           { intros ->. apply HneT. by apply (Hinj T' T id). }
           destruct b.
           ++ rewrite Z.setbit_neq by done. by apply Hmatch.
           ++ rewrite Z.clearbit_neq by done. by apply Hmatch.
      * rewrite decide_False by (by intros [_ ?]). by apply Hmatch.
    + intros e id. rewrite (signature_of_insert _ _ e0 _ e Hsigs), Htypes.
      case_decide; [|apply Hreg]. subst.
      destruct (decide (id0 = id)) as [<-|Hne]; [intros _; by exists T|].
      destruct b.
      * rewrite Z.setbit_neq by done. apply Hreg.
      * rewrite Z.clearbit_neq by done. apply Hreg.
Qed.

Lemma engine_consistent_destroy eng eng' e0 :
  engine_consistent eng →
  ComponentManager.EntityWasDestroyed e0 (Engine.component_manager_ eng)
    = Ok tt (Engine.component_manager_ eng') →
  EntityManager.entity_signatures_ (Engine.entity_manager_ eng')
    = <[e0 := 0]> (EntityManager.entity_signatures_ (Engine.entity_manager_ eng)) →
  engine_consistent eng'.
Proof.
  intros (Hok & Hp & Hbits) Hrun Hsigs.
  destruct (manager_call_keeps _ _ (ManagerEntityWasDestroyed e0) Hrun Hok Hp)
    as (Hok' & Hp' & _).
  apply manager_EntityWasDestroyed_Ok_inv in Hrun as (Htypes & _ & Hlists).
  assert (Hstored : ∀ T e, stored (Engine.component_manager_ eng') T e
                           ↔ stored (Engine.component_manager_ eng) T e ∧ e ≠ e0).
  { intros T e. unfold stored. specialize (Hlists T).
    destruct (ComponentManager.component_lists_ (Engine.component_manager_ eng) !! T)
      as [l|] eqn:Hl.
    - destruct Hlists as (l' & Hhook & Hl').
      pose proof (hook_slots l l' e0 (Hp T l Hl) Hhook e) as Hslots.
      rewrite Hl'. split.
      + intros (l1 & ? & Hsome). simplify_eq. apply Hslots in Hsome as [? ?].
        split; [|done]. by exists l.
      + intros [(l1 & ? & Hsome) Hne]. simplify_eq. exists l'. split; [done|].
        by apply Hslots.
    - rewrite Hlists. split; [by intros (? & ? & _) | by intros [(? & ? & _) _]]. }
  split; [done|]. split; [done|]. rewrite Htypes. intros Hsize.
  destruct (Hbits Hsize) as [Hmatch Hreg]. split.
  - intros T id e HT Hid He. rewrite Htypes in HT.
    rewrite (signature_of_insert _ _ e0 _ e Hsigs), Hstored.
    case_decide; subst.
    + rewrite Z.bits_0. split; [done | by intros [_ ?]].
    + rewrite (Hmatch T id e HT Hid He). tauto.
  - intros e id. rewrite (signature_of_insert _ _ e0 _ e Hsigs), Htypes.
    case_decide; [by rewrite Z.bits_0 | apply Hreg].
Qed.

End EngineInvariant.

Section EngineRuns.
Context {V : Type} `{Inhabited V}.
Implicit Types (eng : Engine.t V) (cm : ComponentManager.t V)
  (l : ComponentList.t V) (T : TypeName).

Lemma signature_update_Throw_cause (val : bool) T e eng err eng' :
  (component_id <- Engine.components (ComponentManager.GetComponentType T);;
   entity_signature <- Engine.entities (EntityManager.GetSignature e);;
   entity_signature <- bitset_set entity_signature component_id val;;
   Engine.entities (EntityManager.SetSignature e entity_signature);;
   Engine.systems (SystemManager.EntitySignatureChanged e entity_signature)) eng
    = Throw err eng' →
  ∀ id, ComponentManager.component_types_ (Engine.component_manager_ eng) !! T
          = Some id →
        ¬ (0 ≤ id < kMaxComponents ∧ 0 ≤ e < kMaxEntities).
Proof.
  destruct eng as [em cm sm].
  unfold Engine.components, Engine.entities, Engine.systems, within, bind,
    ComponentManager.GetComponentType, EntityManager.GetSignature,
    EntityManager.SetSignature, EntityManager.CheckEntityOutOfBound,
    array_read, array_write, bitset_set.
  run_monad.
  destruct (ComponentManager.component_types_ cm !! T) as [id|]; simpl; [|done].
  destruct (decide (kMaxEntities ≤ e)); simpl.
  { intros _ id' Hid' [_ ?]. lia. }
  destruct (decide (in_bounds e)); simpl; [|done].
  destruct (decide (0 ≤ id < kMaxComponents)); simpl.
  2:{ intros _ id' Hid' [? _]. by simplify_eq. }
  match goal with
  | |- context [SystemManager.EntitySignatureChanged e ?sig sm] =>
      destruct (EntitySignatureChanged_systems e sig sm) as (sm' & -> & _)
  end.
  done.
Qed.

(** The component manager's part of [AddComponent]. *)
Lemma store_insert_facts eng cm1 T e (c : V) :
  engine_consistent eng →
  ComponentManager.AddComponent T e c (Engine.component_manager_ eng) = Ok tt cm1 →
  ∃ eng0,
    engine_consistent eng0
    ∧ Engine.entity_manager_ eng0 = Engine.entity_manager_ eng
    ∧ registry_ok cm1 ∧ stores_packed cm1
    ∧ ComponentManager.component_types_ cm1
        = ComponentManager.component_types_ (Engine.component_manager_ eng0)
    ∧ ∀ T' e', stored cm1 T' e'
               ↔ if decide (T' = T ∧ e' = e) then true = true
                 else stored (Engine.component_manager_ eng0) T' e'.
Proof.
  intros Hinv Hrun.
  apply manager_AddComponent_Ok_inv in Hrun as (cm0 & l & l' & Hreg & Hl & Hins & ->).
  set (eng0 := Engine.Build (Engine.entity_manager_ eng) cm0
                 (Engine.system_manager_ eng)).
  assert (Hinv0 : engine_consistent eng0).
  { destruct Hreg as [[-> _]|[_ Hreg]].
    - by apply (engine_consistent_same eng).
    - by apply (engine_consistent_register eng eng0 T). }
  exists eng0. split; [done|]. split; [done|].
  destruct Hinv0 as (Hok0 & Hp0 & _). cbn [eng0 Engine.component_manager_] in *.
  split; [by apply (registry_ok_set_list cm0 T l)|].
  split.
  { apply stores_packed_set_list; [done|].
    by apply (Insert_packed l e c l' (Hp0 T l Hl)). }
  split; [done|].
  intros T' e'. rewrite (stored_set_list cm0 T l l' Hl).
  destruct (decide (T' = T)) as [->|Hne].
  - rewrite (Insert_slots l l' e c Hins).
    destruct (decide (e' = e)) as [->|Hnee].
    + rewrite decide_True by done. split; [done | by right].
    + rewrite decide_False by (by intros [_ ?]). unfold stored. rewrite Hl.
      split.
      * intros [Hsome|?]; [|done]. by exists l.
      * intros (l0 & ? & Hsome). simplify_eq. by left.
  - by rewrite decide_False by (by intros [? _]).
Qed.

(** The component manager's part of [RemoveComponent]. *)
Lemma store_remove_facts eng cm1 T e :
  engine_consistent eng →
  ComponentManager.RemoveComponent T e (Engine.component_manager_ eng) = Ok tt cm1 →
  registry_ok cm1 ∧ stores_packed cm1
  ∧ ComponentManager.component_types_ cm1
      = ComponentManager.component_types_ (Engine.component_manager_ eng)
  ∧ ∀ T' e', stored cm1 T' e'
             ↔ if decide (T' = T ∧ e' = e) then false = true
               else stored (Engine.component_manager_ eng) T' e'.
Proof.
  intros (Hok & Hp & _) Hrun. unfold ComponentManager.RemoveComponent in Hrun.
  apply on_component_list_Ok_inv in Hrun as (l & l' & Hl & Hrem & ->).
  split; [by apply (registry_ok_set_list _ T l)|].
  split.
  { apply stores_packed_set_list; [done|].
    by apply (Remove_packed l e l' (Hp T l Hl)). }
  split; [done|].
  intros T' e'. rewrite (stored_set_list _ T l l' Hl).
  destruct (decide (T' = T)) as [->|Hne].
  - rewrite (Remove_slots l l' e (Hp T l Hl) Hrem).
    destruct (decide (e' = e)) as [->|Hnee].
    + rewrite decide_True by done. split; [by intros [_ ?] | done].
    + rewrite decide_False by (by intros [_ ?]). unfold stored. rewrite Hl.
      split.
      * intros [Hsome _]. by exists l.
      * intros (l0 & ? & Hsome). by simplify_eq.
  - by rewrite decide_False by (by intros [? _]).
Qed.

Lemma AddComponent_keeps eng T e (c : V) :
  engine_consistent eng →
  match Engine.AddComponent T e c eng with
  | Ok _ eng' | Throw _ eng' => engine_consistent eng'
  | Undefined => True
  end.
Proof.
  intros Hinv.
  destruct (Engine.AddComponent T e c eng) as [[] eng'|err eng'|] eqn:Hrun; [| |done].
  - apply bind_Ok_inv in Hrun as ([] & eng1 & Hstore & Htail).
    apply within_Ok_inv in Hstore as (cm1 & Hstore & ->).
    destruct (store_insert_facts eng cm1 T e c Hinv Hstore)
      as (eng0 & Hinv0 & Hem & Hok1 & Hp1 & Htypes & Hstored).
    apply signature_update_Ok_signature in Htail
      as (id & HT & Hid & He & Hcm & _ & Hsigs).
    cbn [Engine.component_manager_ Engine.entity_manager_] in *.
    apply (engine_consistent_update eng0 eng' T e true Hinv0);
      rewrite ?Hcm, ?Hem; try done.
    right. exists id. rewrite <- Htypes. split; [done|]. split; [lia | done].
  - apply bind_Throw_inv in Hrun as [Hrun|([] & eng1 & Hstore & Htail)].
    + apply within_Throw_inv in Hrun as (cm1 & Hrun & ->).
      apply manager_AddComponent_Throw_inv in Hrun as [-> _].
      by rewrite Engine_eta.
    + apply within_Ok_inv in Hstore as (cm1 & Hstore & ->).
      destruct (store_insert_facts eng cm1 T e c Hinv Hstore)
        as (eng0 & Hinv0 & Hem & Hok1 & Hp1 & Htypes & Hstored).
      pose proof (signature_update_Throw_cause _ _ _ _ _ _ Htail) as Hcause.
      apply signature_update_Throw in Htail as [-> _].
      cbn [Engine.component_manager_ Engine.entity_manager_] in *.
      apply (engine_consistent_update eng0 _ T e true Hinv0);
        cbn [Engine.component_manager_ Engine.entity_manager_];
        rewrite ?Hem; try done.
      left. split; [done|]. intros id0 HT. apply Hcause. by rewrite Htypes.
Qed.

Lemma RemoveComponent_keeps eng T e :
  engine_consistent eng →
  match Engine.RemoveComponent T e eng with
  | Ok _ eng' | Throw _ eng' => engine_consistent eng'
  | Undefined => True
  end.
Proof.
  intros Hinv.
  destruct (Engine.RemoveComponent T e eng) as [[] eng'|err eng'|] eqn:Hrun; [| |done].
  - apply bind_Ok_inv in Hrun as ([] & eng1 & Hstore & Htail).
    apply within_Ok_inv in Hstore as (cm1 & Hstore & ->).
    destruct (store_remove_facts eng cm1 T e Hinv Hstore)
      as (Hok1 & Hp1 & Htypes & Hstored).
    apply signature_update_Ok_signature in Htail
      as (id & HT & Hid & He & Hcm & _ & Hsigs).
    cbn [Engine.component_manager_ Engine.entity_manager_] in *.
    apply (engine_consistent_update eng eng' T e false Hinv);
      rewrite ?Hcm; try done.
    right. exists id. rewrite <- Htypes. split; [done|]. split; [lia | done].
  - apply bind_Throw_inv in Hrun as [Hrun|([] & eng1 & Hstore & Htail)].
    + apply within_Throw_inv in Hrun as (cm1 & Hrun & ->).
      apply manager_RemoveComponent_Throw_inv in Hrun as [-> _].
      by rewrite Engine_eta.
    + apply within_Ok_inv in Hstore as (cm1 & Hstore & ->).
      destruct (store_remove_facts eng cm1 T e Hinv Hstore)
        as (Hok1 & Hp1 & Htypes & Hstored).
      pose proof (signature_update_Throw_cause _ _ _ _ _ _ Htail) as Hcause.
      apply signature_update_Throw in Htail as [-> _].
      cbn [Engine.component_manager_ Engine.entity_manager_] in *.
      apply (engine_consistent_update eng _ T e false Hinv);
        cbn [Engine.component_manager_ Engine.entity_manager_]; try done.
      left. split; [done|]. intros id0 HT. apply Hcause. by rewrite Htypes.
Qed.

Lemma DestroyEntity_keeps eng e :
  engine_consistent eng →
  match Engine.DestroyEntity e eng with
  | Ok _ eng' | Throw _ eng' => engine_consistent eng'
  | Undefined => True
  end.
Proof.
  intros Hinv.
  destruct (Engine.DestroyEntity e eng) as [[] eng'|err eng'|] eqn:Hrun; [| |done].
  - unfold Engine.DestroyEntity in Hrun.
    apply bind_Ok_inv in Hrun as ([] & eng1 & Hdestroy & Hrun).
    apply bind_Ok_inv in Hrun as ([] & eng2 & Hlists & Hrun).
    apply within_Ok_inv in Hdestroy as (em1 & Hdestroy & ->).
    apply within_Ok_inv in Hlists as (cm2 & Hlists & ->).
    apply within_Ok_inv in Hrun as (sm3 & _ & ->).
    cbn [Engine.entity_manager_ Engine.system_manager_
         Engine.component_manager_] in *.
    apply (engine_consistent_destroy eng _ e Hinv);
      cbn [Engine.entity_manager_ Engine.component_manager_]; [done|].
    revert Hdestroy.
    unfold EntityManager.DestroyEntity, EntityManager.CheckEntityOutOfBound,
      array_write.
    run_monad. repeat (case_decide; simpl; try done).
    intros; by simplify_eq.
  - by apply DestroyEntity_Throw_inv in Hrun as [-> _].
Qed.

Lemma engine_call_keeps (c : mutation V) eng :
  engine_consistent eng →
  match perform c eng with
  | Ok _ eng' | Throw _ eng' => engine_consistent eng'
  | Undefined => True
  end.
Proof.
  intros Hinv.
  destruct c as [|e|T|T e v|T e|T|T system|T sig];
    try (by apply AddComponent_keeps);
    try (by apply RemoveComponent_keeps);
    try (by apply DestroyEntity_keeps);
    (destruct (perform _ eng) as [[] eng'|err eng'|] eqn:Hrun; [| |done];
     [|apply other_calls_Throw_inv in Hrun as ->; done]);
    cbn [perform] in Hrun.
  - apply bind_Ok_inv in Hrun as (e & eng1 & Hrun & Hret).
    unfold ret in Hret. simplify_eq.
    apply within_Ok_inv in Hrun as (em1 & Hrun & ->).
    apply (engine_consistent_same eng); [|done|done].
    cbn [Engine.entity_manager_]. revert Hrun.
    unfold EntityManager.CreateEntity. run_monad.
    destruct (EntityManager.available_entities_ (Engine.entity_manager_ eng));
      [done|].
    intros; by simplify_eq.
  - apply within_Ok_inv in Hrun as (cm1 & Hrun & ->).
    by apply (engine_consistent_register eng _ T).
  - apply bind_Ok_inv in Hrun as (x & eng1 & Hrun & Hret).
    unfold ret in Hret. simplify_eq.
    apply within_Ok_inv in Hrun as (sm1 & _ & ->).
    by apply (engine_consistent_same eng).
  - apply bind_Ok_inv in Hrun as (x & eng1 & Hrun & Hret).
    unfold ret in Hret. simplify_eq.
    apply within_Ok_inv in Hrun as (sm1 & _ & ->).
    by apply (engine_consistent_same eng).
  - apply within_Ok_inv in Hrun as (sm1 & _ & ->).
    by apply (engine_consistent_same eng).
Qed.

Lemma engine_run_keeps (calls : list (mutation V)) : ∀ eng eng',
  run_calls perform calls eng = Some eng' →
  engine_consistent eng → engine_consistent eng'.
Proof.
  induction calls as [|c calls IH]; intros eng eng' Hrun Hinv; simpl in Hrun.
  { by simplify_eq. }
  pose proof (engine_call_keeps c eng Hinv) as Hstep.
  destruct (perform c eng) as [[] eng1|err eng1|]; [| |done]; by apply (IH eng1).
Qed.

(** X20.  In every state the engine reaches from its construction through
    its mutating operations, whether they return or throw, the signatures
    and the stores are in step: for a registered component type with a bit
    index below [kMaxComponents] and an entity below [kMaxEntities],
    [HasComponent] answers [true] exactly when the store of the type holds a
    component for the entity, which is exactly when [GetComponent] returns.
    This needs no more than [2 ^ 16] registered types, beyond which
    identifiers repeat. *)
Theorem HasComponent_agrees_with_the_stores (calls : list (mutation V)) eng T id
    (e : Z) :
  run_calls perform calls Engine.new = Some eng →
  Z.of_nat (size (ComponentManager.component_types_ (Engine.component_manager_ eng)))
    ≤ type_id_space →
  ComponentManager.component_types_ (Engine.component_manager_ eng) !! T = Some id →
  0 ≤ id < kMaxComponents → 0 ≤ e < kMaxEntities →
  (Engine.HasComponent T e eng = Ok true eng
   ↔ stored (Engine.component_manager_ eng) T e)
  ∧ (Engine.HasComponent T e eng = Ok false eng
     ↔ ¬ stored (Engine.component_manager_ eng) T e)
  ∧ (stored (Engine.component_manager_ eng) T e
     ↔ ∃ v, Engine.GetComponent T e eng = Ok v eng).
Proof.
  intros Hrun Hsize HT Hid He.
  destruct (engine_run_keeps calls _ eng Hrun engine_consistent_new)
    as (Hok & Hp & Hbits).
  destruct (Hbits Hsize) as [Hmatch _].
  specialize (Hmatch T id e HT Hid He).
  rewrite (HasComponent_in_range eng T e id HT Hid He).
  split; [|split].
  - rewrite <- Hmatch. split; [by intros ?; simplify_eq | by intros ->].
  - rewrite <- Hmatch. split.
    + intros ?. simplify_eq. congruence.
    + intros Hbit. f_equal. by apply not_true_is_false.
  - pose proof (manager_GetComponent_outcome (Engine.component_manager_ eng) T e
                  Hok Hp) as Hget.
    unfold Engine.GetComponent, Engine.components, within.
    destruct (ComponentManager.GetComponent T e (Engine.component_manager_ eng))
      as [v cm'|err cm'|]; [| |done].
    + destruct Hget as [-> Hstored]. split; [|done]. intros _. exists v.
      by rewrite Engine_eta.
    + destruct Hget as (-> & Hnot & _). split; [done|]. by intros [v ?].
Qed.

End EngineRuns.

(** ** Instances of the properties above *)

(** A duplicate [AddComponent] on the component manager throws and changes
    nothing. *)
Lemma manager_exceptions_change_nothing_witness :
  ∃ cm : ComponentManager.t Z,
    ComponentManager.AddComponent 1%positive 0 7 ComponentManager.new = Ok tt cm
    ∧ perform_manager (ManagerAddComponent 1%positive 0 8) cm
        = Throw DuplicateEntity cm.
Proof.
  eexists. split; [vm_compute; reflexivity|].
  match goal with |- perform_manager ?c ?cm = _ =>
    assert (Hrun : ∃ cm', perform_manager c cm = Throw DuplicateEntity cm')
      by (eexists; vm_compute; reflexivity);
    destruct Hrun as [cm' Hrun];
    destruct (manager_exceptions_change_nothing c cm) as [Hsame _]
  end.
  rewrite Hrun. f_equal. exact (Hsame _ _ Hrun).
Defined.

(** The type [1], registered first, still has the identifier [0] after a
    second type and a component have been added. *)
Lemma component_type_id_is_permanent_witness :
  ∃ cm cm' : ComponentManager.t Z,
    ComponentManager.RegisterComponent 1%positive ComponentManager.new = Ok tt cm
    ∧ run_calls perform_manager
        [ManagerRegisterComponent 2%positive; ManagerAddComponent 1%positive 5 50]
        cm = Some cm'
    ∧ ComponentManager.GetComponentType 1%positive cm' = Ok 0 cm'.
Proof.
  eexists. eexists. split; [vm_compute; reflexivity|].
  match goal with |- ?run = Some ?cm' ∧ _ =>
    assert (Hrun : run = Some cm') by (vm_compute; reflexivity)
  end.
  split; [exact Hrun|].
  assert (Hstart : registry_ok (V:=Z) ComponentManager.new
                   ∧ stores_packed (V:=Z) ComponentManager.new).
  { split; [apply registry_ok_new|]. intros T l Hl.
    unfold ComponentManager.new in Hl.
    cbn [ComponentManager.component_lists_] in Hl.
    by rewrite lookup_empty in Hl. }
  destruct Hstart as [Hok0 Hp0].
  match type of Hrun with run_calls _ ?calls ?cm = Some ?cm' =>
    destruct (manager_run_keeps
                [ManagerRegisterComponent 1%positive] ComponentManager.new
                cm eq_refl Hok0 Hp0) as (Hok & Hp & _);
    destruct (component_type_id_is_permanent calls cm cm' 1%positive 0
                Hok Hp Hrun eq_refl) as [Hget _]
  end.
  exact Hget.
Defined.

(** After two registrations and an insertion the component manager finds
    the component of the entity [5]. *)
Lemma registry_stays_consistent_witness :
  ∃ cm : ComponentManager.t Z,
    run_calls perform_manager
      [ManagerRegisterComponent 1%positive; ManagerRegisterComponent 2%positive;
       ManagerAddComponent 1%positive 5 50] ComponentManager.new = Some cm
    ∧ stored cm 1%positive 5
    ∧ ¬ stored cm 2%positive 5.
Proof.
  eexists.
  match goal with |- ?run = Some ?cm ∧ _ =>
    assert (Hrun : run = Some cm) by (vm_compute; reflexivity)
  end.
  split; [exact Hrun|].
  destruct (registry_stays_consistent _ _ Hrun) as (_ & _ & Hget).
  split.
  - pose proof (Hget 1%positive 5) as Hfound.
    match type of Hfound with match ?get with _ => _ end =>
      assert (Hok : ∃ cm', get = Ok 50 cm') by (eexists; vm_compute; reflexivity)
    end.
    destruct Hok as [cm' Hok]. rewrite Hok in Hfound. by destruct Hfound.
  - pose proof (Hget 2%positive 5) as Hmissing.
    match type of Hmissing with match ?get with _ => _ end =>
      assert (Hthrow : ∃ cm', get = Throw NotFound cm')
        by (eexists; vm_compute; reflexivity)
    end.
    destruct Hthrow as [cm' Hthrow]. rewrite Hthrow in Hmissing.
    by destruct Hmissing as (_ & ? & _).
Defined.

(** A component added through the component manager is found again. *)
Lemma manager_add_then_get_witness :
  ∃ cm : ComponentManager.t Z,
    ComponentManager.AddComponent 1%positive 5 50 ComponentManager.new = Ok tt cm
    ∧ ComponentManager.GetComponent 1%positive 5 cm = Ok 50 cm.
Proof.
  eexists.
  match goal with |- ?run = Ok tt ?cm ∧ _ =>
    assert (Hrun : run = Ok tt cm) by (vm_compute; reflexivity)
  end.
  split; [exact Hrun|].
  exact (proj1 (manager_add_then_get _ _ _ _ _ Hrun)).
Defined.

(** On the engine as constructed no type is registered, so [HasComponent]
    throws and leaves the engine alone. *)
Lemma HasComponent_reads_the_signature_bit_witness :
  Engine.HasComponent 1%positive 0 (Engine.new (V:=Z))
    = Throw UnregisteredType Engine.new.
Proof.
  pose proof (HasComponent_reads_the_signature_bit (Engine.new (V:=Z)) 1%positive 0)
    as Hread.
  destruct (Engine.HasComponent 1%positive 0 (Engine.new (V:=Z)))
    as [answer eng'|err eng'|] eqn:Hrun.
  - destruct Hread as (_ & id & Hid & _); [lia|]. discriminate Hid.
  - destruct Hread as [-> Herr]; [lia|]. cbn in Herr. by rewrite Herr.
  - destruct Hread. lia.
Defined.

(** A component added to the entity [0] is reported and returned. *)
Lemma add_then_has_and_get_witness :
  ∃ eng : Engine.t Z,
    Engine.AddComponent 1%positive 0 7 Engine.new = Ok tt eng
    ∧ Engine.HasComponent 1%positive 0 eng = Ok true eng
    ∧ Engine.GetComponent 1%positive 0 eng = Ok 7 eng.
Proof.
  unfold Engine.new, EntityManager.new.
  generalize (EntityManager.pushed_from (Z.to_nat kMaxEntities) 0). intros pool.
  eexists.
  match goal with |- ?run = Ok tt ?eng ∧ _ =>
    assert (Hrun : run = Ok tt eng) by (vm_compute; reflexivity)
  end.
  split; [exact Hrun|].
  destruct (add_then_has_and_get _ _ _ _ _ Hrun) as (Hhas & Hget & _).
  split; [exact Hhas | exact Hget].
Defined.

(** A component added to the entity [0] and removed again is neither
    reported nor returned. *)
Lemma remove_then_has_and_get_witness :
  ∃ eng eng' : Engine.t Z,
    Engine.AddComponent 1%positive 0 7 Engine.new = Ok tt eng
    ∧ Engine.RemoveComponent 1%positive 0 eng = Ok tt eng'
    ∧ Engine.HasComponent 1%positive 0 eng' = Ok false eng'
    ∧ Engine.GetComponent 1%positive 0 eng' = Throw NotFound eng'.
Proof.
  unfold Engine.new, EntityManager.new.
  generalize (EntityManager.pushed_from (Z.to_nat kMaxEntities) 0). intros pool.
  eexists. eexists. split; [vm_compute; reflexivity|].
  match goal with |- ?run = Ok tt ?eng ∧ _ =>
    assert (Hrun : run = Ok tt eng) by (vm_compute; reflexivity)
  end.
  split; [exact Hrun|].
  destruct (remove_then_has_and_get _ _ _ _ Hrun) as (Hhas & Hget & _).
  split; [exact Hhas | exact Hget].
Defined.

(** The entity [0] is destroyed while it holds a component of type [1]. *)
Lemma destroy_purges_every_store_witness :
  ∃ eng eng' : Engine.t Z,
    Engine.AddComponent 1%positive 0 7 Engine.new = Ok tt eng
    ∧ Engine.DestroyEntity 0 eng = Ok tt eng'
    ∧ Engine.GetComponent 1%positive 0 eng' = Throw NotFound eng'.
Proof.
  unfold Engine.new, EntityManager.new.
  generalize (EntityManager.pushed_from (Z.to_nat kMaxEntities) 0). intros pool.
  eexists. eexists. split; [vm_compute; reflexivity|].
  match goal with |- ?run = Ok tt ?eng ∧ _ =>
    assert (Hrun : run = Ok tt eng) by (vm_compute; reflexivity)
  end.
  split; [exact Hrun|].
  destruct (destroy_purges_every_store _ _ _ Hrun) as (_ & Hget & _).
  apply Hget. eexists. reflexivity.
Defined.

(** After a component was added and a system registered, [HasComponent]
    and the store of the type agree on the entity [0]. *)
Lemma HasComponent_agrees_with_the_stores_witness :
  ∃ eng : Engine.t Z,
    run_calls perform
      [CallAddComponent 1%positive 0 7; CallRegisterSystem 2%positive]
      Engine.new = Some eng
    ∧ (Engine.HasComponent 1%positive 0 eng = Ok true eng
       ↔ stored (Engine.component_manager_ eng) 1%positive 0).
Proof.
  assert (Hgen : ∀ pool, ∃ eng : Engine.t Z,
    run_calls perform
      [CallAddComponent 1%positive 0 7; CallRegisterSystem 2%positive]
      (Engine.Build (EntityManager.Build pool ∅) ComponentManager.new
                    SystemManager.new) = Some eng
    ∧ ComponentManager.component_types_ (Engine.component_manager_ eng)
        = {[1%positive := 0]}).
  { intros pool. eexists. split; [vm_compute; reflexivity | reflexivity]. }
  destruct (Hgen (EntityManager.pushed_from (Z.to_nat kMaxEntities) 0))
    as (eng & Hrun & Htypes).
  exists eng. split; [exact Hrun|].
  apply (HasComponent_agrees_with_the_stores _ eng 1%positive 0 0 Hrun).
  - rewrite Htypes. vm_compute. congruence.
  - rewrite Htypes. reflexivity.
  - vm_compute. split; congruence.
  - vm_compute. split; congruence.
Defined.

(** ** The integration test and [main] *)

Section Drivers.
Context {V : Type} `{Inhabited V}.

(** The pool of the engine as constructed starts with the identifiers [0]
    and [1]. *)
Lemma new_engine_pool :
  ∃ rest, (Engine.new (V:=V))
    = Engine.Build (EntityManager.Build (0 :: 1 :: rest) ∅)
        ComponentManager.new SystemManager.new.
Proof.
  assert (Hpool : ∃ rest,
    EntityManager.pushed_from (Z.to_nat kMaxEntities) 0 = 0 :: 1 :: rest).
  { rewrite (pushed_from_seqZ (Z.to_nat kMaxEntities) 0) by reflexivity.
    rewrite (seqZ_cons 0) by reflexivity.
    rewrite (seqZ_cons (Z.succ 0)) by reflexivity.
    eexists. reflexivity. }
  destruct Hpool as [rest Hpool]. exists rest.
  unfold Engine.new, EntityManager.new. rewrite Hpool. reflexivity.
Qed.

(** X21.  On the engine as constructed, with [float] named [1] and
    [TestSystem] named [2], the integration test and [main] run to their
    end without an exception or an access out of bounds: the component
    type gets the identifier [0], [GetComponent] returns the value added
    and [HasComponent] answers [true].  The entity is the second of the
    pool in the test and the first in [main].  Because the system is
    registered after the component was added, and [SetSystemSignature]
    broadcasts nothing, each of the three calls of [Update] visits no
    entity. *)
Theorem drivers_run_to_the_end (one : V) :
  (∃ eng, IntegrationTest 1%positive 2%positive one Engine.new
          = Ok (Observed V 1 0 one true [∅; ∅; ∅]) eng)
  ∧ (∃ eng, main 1%positive 2%positive one Engine.new
          = Ok (Observed V 0 0 one true [∅; ∅; ∅]) eng).
Proof.
  destruct new_engine_pool as [rest ->].
  split; eexists; vm_compute; reflexivity.
Qed.

End Drivers.
